(** * Outfit Intelligence Tool: colour extraction, harmony and scoring

    A shallow embedding of the algorithmic core of the repository
    ([js/colorAnalysis.js], [js/garmentDetection.js] and the [Scoring]
    object) together with the properties its specification states and
    further properties of the same code: round trips, ranges and
    invariants of the functions around them.

    Numbers.  JavaScript numbers are IEEE doubles.  Pixel channels, HSL
    components, counts and scores are integers and are modelled as [Z].
    Fractions that the code computes from them (channel / 255, means,
    frequencies, luminances) are modelled exactly, as rationals [Q], and
    a decimal constant such as [0.1] is the rational it is written as.
    [Math.round] is [floor (x + 1/2)].  On integer arguments of the sizes
    that occur (array lengths, image sizes) [Math.floor(n * 0.1)],
    [Math.floor(n * 0.3)], [Math.floor(n * 0.4)] and the like return the
    same integer in double arithmetic as in exact arithmetic; elsewhere
    the exact model can differ from the doubles only where a quantity
    sits within rounding error of a threshold or of a tie of
    [Math.round].  The body-column detector is the exception: it keeps
    its column means and edge strengths in [Float32Array]s and tests an
    average of them against a threshold, so it is modelled in IEEE
    arithmetic itself, with the kernel's binary64 numbers for the
    doubles and a rounding to 24 bits for every store into a
    [Float32Array].
    The scoring engine calls [Math.exp] and [Math.sqrt]; it is modelled
    over the real numbers, extended with [NaN] and the two infinities.

    Texts.  Explanations, details and other display texts that no
    function reads back are left out of the records, as noted at each
    record. *)

From Stdlib Require Import ZArith QArith Qround Qminmax Qabs.
From Stdlib Require Import String Ascii.
From Stdlib Require Import List Bool Lia Lra Lqa Permutation Sorted.
From Stdlib Require Import Reals.
From Stdlib Require Import Floats.
Import ListNotations.

Local Open Scope Z_scope.

(* ================================================================== *)
(** * JavaScript primitives used by the three objects                  *)
(* ================================================================== *)

Module JS.

(** [Math.round]: nearest integer, ties towards plus infinity. *)
Definition round (x : Q) : Z := Qfloor (x + (1 # 2)).

(** [Math.floor]. *)
Definition floor (x : Q) : Z := Qfloor x.

(** [a < b] on rationals, as a boolean. *)
Definition Qltb (x y : Q) : bool := negb (Qle_bool y x).

(** [arr.length], as an integer. *)
Definition len {A : Type} (xs : list A) : Z := Z.of_nat (List.length xs).

(** [arr.reduce((a, b) => a + b, 0)]. *)
Definition sum (xs : list Z) : Z := fold_left Z.add xs 0.

(** [arr.reduce((a, b) => a + b, 0) / arr.length] for a non-empty array
    of integers (for the empty array the quotient is [NaN]; every use
    below is guarded by a length test). *)
Definition mean (xs : list Z) : Q :=
  (inject_Z (sum xs) / inject_Z (len xs))%Q.

(** [Math.max(...arr)] and [Math.min(...arr)] for a non-empty array. *)
Definition maximum (xs : list Z) : Z :=
  match xs with
  | [] => 0
  | x :: rest => fold_left Z.max rest x
  end.

Definition minimum (xs : list Z) : Z :=
  match xs with
  | [] => 0
  | x :: rest => fold_left Z.min rest x
  end.

(** [Array.prototype.sort(cmp)].  The sort is stable (ECMAScript 2019):
    an element is placed before the first already-sorted element that
    does not compare strictly below it. *)
Fixpoint insert {A : Type} (cmp : A -> A -> Z) (x : A) (xs : list A) : list A :=
  match xs with
  | [] => [x]
  | y :: rest =>
      if cmp x y <=? 0 then x :: y :: rest else y :: insert cmp x rest
  end.

Fixpoint sort {A : Type} (cmp : A -> A -> Z) (xs : list A) : list A :=
  match xs with
  | [] => []
  | x :: rest => insert cmp x (sort cmp rest)
  end.

(** The order a comparator sorts by: [x] may stand before [y] when
    [cmp(x, y) <= 0]. *)
Definition before {A : Type} (cmp : A -> A -> Z) (x y : A) : Prop :=
  cmp x y <= 0.

(** [arr.slice(from, to)] for [0 <= from]. *)
Definition slice {A : Type} (from to : Z) (xs : list A) : list A :=
  firstn (Z.to_nat (to - from)) (skipn (Z.to_nat from) xs).

(** [arr[i]] for an index that is in range (the default stands for
    [undefined], which no in-range read returns). *)
Definition at_ {A : Type} (xs : list A) (i : Z) (undefined : A) : A :=
  if i <? 0 then undefined else nth (Z.to_nat i) xs undefined.

(** The integers [0, 1, ..., n - 1] of a counting loop. *)
Definition upto (n : Z) : list Z := map Z.of_nat (seq 0 (Z.to_nat n)).

(** The values [from, from + step, ...] below [bound] that the loop
    [for (i = from; i < bound; i += step)] visits, for [step > 0]. *)
Definition range (from bound step : Z) : list Z :=
  map (fun k => from + step * k) (upto ((bound - from + step - 1) / step)).

(** The pairs [(xs[i], xs[j])] for [i < j], in the order of the nested
    loop [for i ... for j = i + 1 ...]. *)
Fixpoint pairs {A : Type} (xs : list A) : list (A * A) :=
  match xs with
  | [] => []
  | x :: rest => map (fun y => (x, y)) rest ++ pairs rest
  end.

End JS.

(* ================================================================== *)
(** * IEEE numbers: doubles and the entries of a [Float32Array]        *)
(* ================================================================== *)

Module F64.

(** The double that an integer is as a JavaScript number: the nearest
    one, ties to even (exact below 2^53). *)
Definition ofZ (z : Z) : float :=
  SF2Prim (binary_normalize prec emax z 0 false).

(** [Math.fround]: the number a store into a [Float32Array] keeps, the
    nearest binary32 value (24 bits of precision, exponents up to 128),
    ties to even.  Zeros, infinities and [NaN] are kept. *)
Definition fround (x : float) : float :=
  match Prim2SF x with
  | S754_finite s m e => SF2Prim (binary_round 24 128 s m e)
  | _ => x
  end.

(** [data[i]] of an array of bytes, as a number; a read outside the
    array is [undefined], which is [NaN] in arithmetic. *)
Definition byte (data : list Z) (i : Z) : float :=
  if i <? 0 then nan
  else
    match nth_error data (Z.to_nat i) with
    | Some v => ofZ v
    | None => nan
    end.

(** [arr[i]] of a [Float32Array]; outside the array, [NaN] likewise. *)
Definition read (arr : list float) (i : Z) : float :=
  if i <? 0 then nan else nth (Z.to_nat i) arr nan.

End F64.

(* ================================================================== *)
(** * The canvas the pixels are read from                              *)
(* ================================================================== *)

Module DOM.

(** A canvas: its size and the RGBA bytes of the pixel at column [x],
    row [y]. *)
Record Canvas : Type := mkCanvas {
  canvas_width : Z;
  canvas_height : Z;
  canvas_pixel : Z -> Z -> Z * Z * Z * Z
}.

(** [ctx.getImageData(x, y, w, h).data]: the bytes of the rectangle,
    row by row, four per pixel.  Every call below asks for a rectangle
    that lies inside the canvas. *)
Definition getImageData (canvas : Canvas) (x y w h : Z) : list Z :=
  flat_map
    (fun row =>
       flat_map
         (fun col =>
            let '(r, g, b, a) := canvas_pixel canvas (x + col) (y + row) in
            [r; g; b; a])
         (JS.upto w))
    (JS.upto h).

(** The alpha byte of a pixel. *)
Definition alpha (px : Z * Z * Z * Z) : Z := snd px.

(** Image data in which every pixel has an alpha byte below 128. *)
Inductive Transparent : list Z -> Prop :=
| Transparent_nil : Transparent []
| Transparent_pixel (r g b a : Z) (rest : list Z) :
    a < 128 -> Transparent rest -> Transparent (r :: g :: b :: a :: rest).

End DOM.

(* ================================================================== *)
(** * ColorAnalysis ([js/colorAnalysis.js])                            *)
(* ================================================================== *)

Module ColorAnalysis.
Import DOM.

(** [{r, g, b}] and [{h, s, l}] objects. *)
Record RGB : Type := mkRGB { rgb_r : Z; rgb_g : Z; rgb_b : Z }.
Record HSL : Type := mkHSL { hsl_h : Z; hsl_s : Z; hsl_l : Z }.

(** The helper [trimmedMean] that [extractAverageColor] declares.  It
    has no guard of its own: on the empty array the read [sorted[0]]
    yields [undefined], which is [None] here. *)
Definition trimmedMean (arr : list Z) : option Z :=
  let sorted := JS.sort (fun a b => a - b) arr in
  let trimCount := JS.floor (inject_Z (JS.len sorted) * (1 # 10)) in
  let trimmed := JS.slice trimCount (JS.len sorted - trimCount) sorted in
  if JS.len trimmed =? 0
  then nth_error sorted (Z.to_nat (JS.floor (inject_Z (JS.len sorted) / 2)))
  else Some (JS.round (inject_Z (JS.sum trimmed) / inject_Z (JS.len trimmed))).

(** [extractAverageColor(canvas, x, y, width, height)], with [width]
    and [height] whole numbers of pixels.  A channel is [None] only if
    [trimmedMean] returned [undefined]. *)
Definition extractAverageColor (canvas : Canvas) (x y : Q) (width height : Z)
  : option Z * option Z * option Z :=
  let gray := (Some 128, Some 128, Some 128) in
  let cx := Z.max 0 (JS.round x) in
  let cy := Z.max 0 (JS.round y) in
  let cw := Z.min width (canvas_width canvas - cx) in
  let ch := Z.min height (canvas_height canvas - cy) in
  if (cw <=? 0) || (ch <=? 0) then gray
  else
    let data := getImageData canvas cx cy cw ch in
    let sampled :=
      filter (fun i => negb (JS.at_ data (i + 3) 0 <? 128))
             (JS.range 0 (JS.len data) 16) in
    let rValues := map (fun i => JS.at_ data i 0) sampled in
    let gValues := map (fun i => JS.at_ data (i + 1) 0) sampled in
    let bValues := map (fun i => JS.at_ data (i + 2) 0) sampled in
    if JS.len rValues =? 0 then gray
    else (trimmedMean rValues, trimmedMean gValues, trimmedMean bValues).

(** The locals [h], [s], [l] of [rgbToHsl] just before the final
    rounding: the hue as a fraction of a turn, saturation and lightness
    as fractions of one. *)
Definition hslFractions (r g b : Z) : Q * Q * Q :=
  let r := (inject_Z r / 255)%Q in
  let g := (inject_Z g / 255)%Q in
  let b := (inject_Z b / 255)%Q in
  let max := Qmax r (Qmax g b) in
  let min := Qmin r (Qmin g b) in
  let l := ((max + min) / 2)%Q in
  if Qeq_bool max min then (0%Q, 0%Q, l)
  else
    let d := (max - min)%Q in
    let s := if JS.Qltb (1 # 2) l then (d / (2 - max - min))%Q
             else (d / (max + min))%Q in
    let h :=
      if Qeq_bool max r then
        (((g - b) / d + (if JS.Qltb g b then 6 else 0)) / 6)%Q
      else if Qeq_bool max g then (((b - r) / d + 2) / 6)%Q
      else if Qeq_bool max b then (((r - g) / d + 4) / 6)%Q
      else 0%Q in
    (h, s, l).

Definition rgbToHsl (r g b : Z) : HSL :=
  let '(h, s, l) := hslFractions r g b in
  {| hsl_h := JS.round (h * 360);
     hsl_s := JS.round (s * 100);
     hsl_l := JS.round (l * 100) |}.

(** Circular hue difference. *)
Definition hueDifference (h1 h2 : Z) : Z :=
  let diff := Z.abs (h1 - h2) in
  Z.min diff (360 - diff).

Definition isWarmHue (h : Z) : bool :=
  ((0 <=? h) && (h <? 70)) || (300 <=? h).

Definition isCoolHue (h : Z) : bool :=
  (170 <=? h) && (h <? 300).

(** The part of a colour record that the analysis reads: [color.rgb]
    and [color.hsl].  The remaining fields of a record ([hex], [name],
    [confidence], ...) are presentation data and are not read here. *)
Record Color : Type := mkColor { rgb : RGB; hsl : HSL }.

(** A colour given by its HSL components only. *)
Definition ofHsl (h s l : Z) : Color :=
  {| rgb := mkRGB 0 0 0; hsl := mkHSL h s l |}.

Definition isNeutral (color : Color) : bool :=
  let s := hsl_s (hsl color) in
  let l := hsl_l (hsl color) in
  if s <? 12 then true
  else if ((l <? 12) || (92 <? l)) && (s <? 20) then true
  else false.

Definition isFashionNeutral (color : Color) : bool :=
  if isNeutral color then true
  else
    let h := hsl_h (hsl color) in
    let s := hsl_s (hsl color) in
    let l := hsl_l (hsl color) in
    if (210 <=? h) && (h <=? 250) && (20 <=? s) && (s <=? 60)
       && (10 <=? l) && (l <=? 30) then true
    else if (30 <=? h) && (h <=? 55) && (10 <=? s) && (s <=? 40)
       && (50 <=? l) && (l <=? 80) then true
    else if (60 <=? h) && (h <=? 100) && (15 <=? s) && (s <=? 45)
       && (20 <=? l) && (l <=? 45) then true
    else if (15 <=? h) && (h <=? 40) && (20 <=? s) && (s <=? 60)
       && (15 <=? l) && (l <=? 40) then true
    else false.

Definition lightnessContrast (color1 color2 : Color) : Z :=
  Z.abs (hsl_l (hsl color1) - hsl_l (hsl color2)).

Definition getTemperature (color : Color) : string :=
  if isNeutral color then "neutral"%string
  else if isWarmHue (hsl_h (hsl color)) then "warm"%string
  else "cool"%string.

Record Temperature : Type := mkTemperature {
  dominant : string;
  warmCount : Z;
  coolCount : Z;
  neutralCount : Z;
  coherence : Q
}.

Definition analyzeTemperature (colors : list Color) : Temperature :=
  let '(warm, cool, neutral) :=
    fold_left
      (fun '(w, c, n) col =>
         let temp := getTemperature col in
         if String.eqb temp "warm" then (w + 1, c, n)
         else if String.eqb temp "cool" then (w, c + 1, n)
         else (w, c, n + 1))
      colors (0, 0, 0) in
  let chromaticTotal := warm + cool in
  let coh :=
    if 0 <? chromaticTotal
    then (inject_Z (Z.max warm cool) / inject_Z chromaticTotal)%Q
    else 1%Q in
  let dom :=
    if cool <? warm then "warm"%string
    else if warm <? cool then "cool"%string
    else "neutral"%string in
  {| dominant := dom; warmCount := warm; coolCount := cool;
     neutralCount := neutral; coherence := coh |}.

(** The result of [analyzeHarmony]: its [type] and [score].  The
    [explanation] text and the [details] object are fixed per branch
    and are not modelled. *)
Record HarmonyResult : Type := mkHarmony {
  harmony_type : string;
  harmony_score : Z
}.

(** [differences]: the pairwise circular hue differences. *)
Definition hueDifferences (hues : list Z) : list Z :=
  map (fun p => hueDifference (fst p) (snd p)) (JS.pairs hues).

(** [d >= 130 && d <= 170], the test of the split-complementary rule. *)
Definition inSplitRange (d : Z) : bool := (130 <=? d) && (d <=? 170).

(** [d >= 90 && d <= 150], the test inside the triadic rule. *)
Definition inTriadRange (d : Z) : bool := (90 <=? d) && (d <=? 150).

(** The hue-wheel rules of [analyzeHarmony], reached once the neutral
    cases have returned.  At that point [chromatics] has at least two
    elements, so [differences] is not empty and [Math.max], [Math.min]
    and the means are finite. *)
Definition hueRules (neutrals chromatics : list Color) : HarmonyResult :=
  let hues := map (fun c => hsl_h (hsl c)) chromatics in
  let saturations := map (fun c => hsl_s (hsl c)) chromatics in
  let avgSaturation := JS.mean saturations in
  let differences := hueDifferences hues in
  let maxDiff := JS.maximum differences in
  let minDiff := JS.minimum differences in
  let avgDiff := JS.mean differences in
  let tempAnalysis := analyzeTemperature chromatics in
  if maxDiff <? 25 then
    let satVariance := JS.maximum saturations - JS.minimum saturations in
    let lights := map (fun c => hsl_l (hsl c)) chromatics in
    let lightVariance := JS.maximum lights - JS.minimum lights in
    if (25 <? satVariance) || (25 <? lightVariance)
    then mkHarmony "Monochromatic" 87
    else mkHarmony "Monochromatic - Flat" 68
  else if (25 <=? maxDiff) && (maxDiff <=? 60) then
    let bonus := if 0 <? JS.len neutrals then 5 else 0 in
    let tempBonus := if Qeq_bool (coherence tempAnalysis) 1 then 3 else 0 in
    mkHarmony "Analogous" (Z.min 100 (88 + bonus + tempBonus))
  else if (2 <=? JS.len chromatics) && existsb inSplitRange differences then
    mkHarmony "Split-Complementary" 84
  else if (150 <=? maxDiff) && (maxDiff <=? 180) then
    let hasAnchor := 0 <? JS.len neutrals in
    if JS.Qltb 60 avgSaturation && negb hasAnchor
    then mkHarmony "Complementary - Bold" 75
    else mkHarmony "Complementary" (if hasAnchor then 90 else 84)
  else if (3 <=? JS.len chromatics) && (3 <=? JS.len differences)
          && ((forallb inTriadRange differences || (maxDiff - minDiff <? 40))
              && Qle_bool 90 avgDiff) then
    mkHarmony "Triadic" 82
  else if Qle_bool 60 avgDiff && JS.Qltb avgDiff 130
          && JS.Qltb 45 avgSaturation then
    if (1 <=? JS.len neutrals) && (JS.len chromatics <=? 2)
    then mkHarmony "Tension (Neutral-Rescued)" 62
    else
      let tempClash :=
        (0 <? warmCount tempAnalysis) && (0 <? coolCount tempAnalysis) in
      mkHarmony "Color Clash" (if tempClash then 32 else 40)
  else if Qeq_bool (coherence tempAnalysis) 1 && (2 <=? JS.len chromatics) then
    mkHarmony
      ((if String.eqb (dominant tempAnalysis) "warm" then "Warm" else "Cool")
         ++ " Harmony")%string
      78
  else
    let mixedScore :=
      JS.round (50 + coherence tempAnalysis * 15
                + (if 0 <? JS.len neutrals then 5 else 0)) in
    mkHarmony "Mixed" (Z.min 70 mixedScore).

Definition analyzeHarmony (colors : list Color) : HarmonyResult :=
  if JS.len colors <? 2 then mkHarmony "Single Color" 50
  else
    let neutrals := filter isNeutral colors in
    let chromatics := filter (fun c => negb (isNeutral c)) colors in
    if JS.len chromatics =? 0 then
      let lights := map (fun c => hsl_l (hsl c)) colors in
      let lightRange := JS.maximum lights - JS.minimum lights in
      if 40 <? lightRange
      then mkHarmony "Achromatic Contrast" 85
      else mkHarmony "Achromatic" 72
    else if (JS.len chromatics =? 1) && (1 <=? JS.len neutrals) then
      (* [chromatics[0]]: the array has exactly one element here *)
      match chromatics with
      | pop :: _ =>
          if 50 <? hsl_s (hsl pop)
          then mkHarmony "Neutral-Anchored Pop" 88
          else mkHarmony "Neutral-Anchored" 80
      | [] => mkHarmony "Neutral-Anchored" 80
      end
    else hueRules neutrals chromatics.

(** The locals of [analyzeHarmony] that its rules are stated with. *)
Definition neutrals (colors : list Color) : list Color :=
  filter isNeutral colors.

Definition chromatics (colors : list Color) : list Color :=
  filter (fun c => negb (isNeutral c)) colors.

Definition differences (colors : list Color) : list Z :=
  hueDifferences (map (fun c => hsl_h (hsl c)) (chromatics colors)).

Definition avgSaturation (colors : list Color) : Q :=
  JS.mean (map (fun c => hsl_s (hsl c)) (chromatics colors)).

End ColorAnalysis.

(* ================================================================== *)
(** * GarmentDetection ([js/garmentDetection.js])                      *)
(* ================================================================== *)

Module GarmentDetection.
Import DOM ColorAnalysis.

(** A rectangle [{x, y, width, height}]. *)
Record Rect : Type := mkRect {
  rect_x : Q;
  rect_y : Q;
  rect_width : Q;
  rect_height : Q
}.

(** A zone: the full rectangle and, when present, the inner
    [samplingRect]. *)
Record Zone : Type := mkZone {
  zone_rect : Rect;
  samplingRect : option Rect
}.

(** [_config.skinRanges]. *)
Record SkinRange : Type := mkSkinRange {
  hMin : Z; hMax : Z; sMin : Z; sMax : Z; lMin : Z; lMax : Z
}.

Definition skinRanges : list SkinRange :=
  [ mkSkinRange 5 45 15 70 20 80;
    mkSkinRange 15 40 20 60 10 50 ].

Definition _getPixelData (canvas : Canvas) (rect : Rect) : list RGB :=
  let x := Z.max 0 (JS.round (rect_x rect)) in
  let y := Z.max 0 (JS.round (rect_y rect)) in
  let w := Z.min (JS.round (rect_width rect)) (canvas_width canvas - x) in
  let h := Z.min (JS.round (rect_height rect)) (canvas_height canvas - y) in
  if (w <=? 0) || (h <=? 0) then []
  else
    let data := getImageData canvas x y w h in
    flat_map
      (fun i =>
         if JS.at_ data (i + 3) 0 <? 128 then []
         else [ mkRGB (JS.at_ data i 0) (JS.at_ data (i + 1) 0)
                      (JS.at_ data (i + 2) 0) ])
      (JS.range 0 (JS.len data) 16).

Definition _isSkinColor (pixel : RGB) : bool :=
  let c := rgbToHsl (rgb_r pixel) (rgb_g pixel) (rgb_b pixel) in
  existsb
    (fun range =>
       (hMin range <=? hsl_h c) && (hsl_h c <=? hMax range) &&
       (sMin range <=? hsl_s c) && (hsl_s c <=? sMax range) &&
       (lMin range <=? hsl_l c) && (hsl_l c <=? lMax range))
    skinRanges.

Definition _rejectSkinPixels (pixels : list RGB) : list RGB :=
  filter (fun px => negb (_isSkinColor px)) pixels.

(** [_trimmedMean].  The read [sorted[floor(length / 2)]] is in range
    because the array is not empty there. *)
Definition _trimmedMean (values : list Z) : Z :=
  if JS.len values =? 0 then 128
  else
    let sorted := JS.sort (fun a b => a - b) values in
    let trim := JS.floor (inject_Z (JS.len sorted) * (1 # 10)) in
    let trimmed := JS.slice trim (JS.len sorted - trim) sorted in
    if JS.len trimmed =? 0
    then JS.at_ sorted (JS.floor (inject_Z (JS.len sorted) / 2)) 0
    else JS.round (inject_Z (JS.sum trimmed) / inject_Z (JS.len trimmed)).

Definition _getDominantFromPixels (pixels : list RGB) : RGB :=
  if JS.len pixels =? 0 then mkRGB 128 128 128
  else
    let rVals := map rgb_r pixels in
    let gVals := map rgb_g pixels in
    let bVals := map rgb_b pixels in
    mkRGB (_trimmedMean rVals) (_trimmedMean gVals) (_trimmedMean bVals).

(** The neutral gray that stands for "no pixel sampled". *)
Definition neutralGray : RGB := mkRGB 128 128 128.

(** A bucket of the colour histogram.  The map key
    [`${r >> 4},${g >> 4},${b >> 4}`] is kept as the triple it prints. *)
Record Bucket : Type := mkBucket {
  count : Z; totalR : Z; totalG : Z; totalB : Z
}.

Definition Key : Type := (Z * Z * Z)%type.

Definition key_eqb (k1 k2 : Key) : bool :=
  let '(a1, b1, c1) := k1 in
  let '(a2, b2, c2) := k2 in
  (a1 =? a2) && (b1 =? b2) && (c1 =? c2).

(** A [Map] keeps its entries in insertion order; updating the value of
    a key that is present leaves the order unchanged. *)
Fixpoint addPixel (buckets : list (Key * Bucket)) (k : Key) (px : RGB)
  : list (Key * Bucket) :=
  match buckets with
  | [] => [ (k, mkBucket 1 (rgb_r px) (rgb_g px) (rgb_b px)) ]
  | (k', b) :: rest =>
      if key_eqb k' k
      then (k', mkBucket (count b + 1) (totalR b + rgb_r px)
                         (totalG b + rgb_g px) (totalB b + rgb_b px)) :: rest
      else (k', b) :: addPixel rest k px
  end.

(** An entry of [dominantColors]: [{rgb, hsl, hex, frequency}] without
    the [hex] text. *)
Record DominantColor : Type := mkDominant {
  dom_rgb : RGB;
  dom_hsl : HSL;
  frequency : Q
}.

Definition _getDominantColorsFromPixels (pixels : list RGB) (n : Z)
  : list DominantColor :=
  if JS.len pixels =? 0 then []
  else
    let shift := 4 in
    let buckets :=
      fold_left
        (fun acc px =>
           addPixel acc
             (Z.shiftr (rgb_r px) shift, Z.shiftr (rgb_g px) shift,
              Z.shiftr (rgb_b px) shift) px)
        pixels [] in
    map
      (fun b =>
         let c :=
           mkRGB (JS.round (inject_Z (totalR b) / inject_Z (count b)))
                 (JS.round (inject_Z (totalG b) / inject_Z (count b)))
                 (JS.round (inject_Z (totalB b) / inject_Z (count b))) in
         {| dom_rgb := c;
            dom_hsl := rgbToHsl (rgb_r c) (rgb_g c) (rgb_b c);
            frequency := (inject_Z (count b) / inject_Z (JS.len pixels))%Q |})
      (JS.slice 0 n
         (JS.sort (fun a b => count b - count a) (map snd buckets))).

Definition _isPattern (dominantColors : list DominantColor) : bool :=
  match dominantColors with
  | c1 :: c2 :: _ =>
      if JS.Qltb (frequency c1) (1 # 4) || JS.Qltb (frequency c2) (3 # 20)
      then false
      else
        let hueDiff := hueDifference (hsl_h (dom_hsl c1)) (hsl_h (dom_hsl c2)) in
        let lightDiff := Z.abs (hsl_l (dom_hsl c1) - hsl_l (dom_hsl c2)) in
        let satDiff := Z.abs (hsl_s (dom_hsl c1) - hsl_s (dom_hsl c2)) in
        (25 <? hueDiff) || (25 <? lightDiff) || (30 <? satDiff)
  | _ => false
  end.

(** The record [extractZoneColors] builds for a zone, without the
    texts [hex] and [name] and the floating-point [confidence]. *)
Record ZoneColor : Type := mkZoneColor {
  zc_rgb : RGB;
  zc_hsl : HSL;
  dominantColors : list DominantColor;
  isPattern : bool;
  pixelCount : Z;
  filteredCount : Z
}.

(** [zone.samplingRect || {x: zone.x, ...}]. *)
Definition sampledRect (zone : Zone) : Rect :=
  match samplingRect zone with
  | Some r => r
  | None => zone_rect zone
  end.

(** The body of the loop of [extractZoneColors], for one zone. *)
Definition extractZoneColor (canvas : Canvas) (zone : Zone) : ZoneColor :=
  let rect := sampledRect zone in
  let pixelData := _getPixelData canvas rect in
  let filtered := _rejectSkinPixels pixelData in
  let dominant :=
    _getDominantFromPixels
      (if 0 <? JS.len filtered then filtered else pixelData) in
  let dominantColors :=
    _getDominantColorsFromPixels
      (if 0 <? JS.len filtered then filtered else pixelData) 3 in
  {| zc_rgb := dominant;
     zc_hsl := rgbToHsl (rgb_r dominant) (rgb_g dominant) (rgb_b dominant);
     dominantColors := dominantColors;
     isPattern := _isPattern dominantColors;
     pixelCount := JS.len pixelData;
     filteredCount := JS.len filtered |}.

(** [extractZoneColors]: one record per entry of [zones], under the
    same key. *)
Definition extractZoneColors (canvas : Canvas) (zones : list (string * Zone))
  : list (string * ZoneColor) :=
  map (fun kz => (fst kz, extractZoneColor canvas (snd kz))) zones.

(** The result [{x, width}] of the body-column detector. *)
Record Column : Type := mkColumn { column_x : Z; column_width : Z }.

(** [columnBrightness]: per column, the mean luminance over every
    fourth row of the strip, summed and divided in doubles and stored
    into a [Float32Array]. *)
#[warnings="-inexact-float"]
Definition columnBrightness (data : list Z) (width stripH : Z) : list float :=
  map
    (fun x =>
       let rows := JS.range 0 stripH 4 in
       let sum :=
         fold_left
           (fun acc y =>
              let idx := (y * width + x) * 4 in
              (acc + (F64.byte data idx * 0.299
                      + F64.byte data (idx + 1) * 0.587
                      + F64.byte data (idx + 2) * 0.114))%float)
           rows 0%float in
       let count := JS.len rows in
       F64.fround
         (if 0 <? count then (sum / F64.ofZ count)%float else 128%float))
    (JS.upto width).

(** [edgeStrength]: central difference of the brightness, stored into
    a [Float32Array]; the first and the last entry keep the zero the
    array is created with. *)
Definition edgeStrength (brightness : list float) (width : Z) : list float :=
  map
    (fun x =>
       if (1 <=? x) && (x <? width - 1)
       then F64.fround
              (abs (F64.read brightness (x + 1)
                    - F64.read brightness (x - 1))%float)
       else 0%float)
    (JS.upto width).

(** One turn of the sliding-window loop, at window start [i], on the
    state [(currentSum, maxSum, maxStart)]; the sums are doubles. *)
Definition slideStep (edge : list float) (windowSize : Z)
  (state : float * float * Z) (i : Z) : float * float * Z :=
  let '(currentSum, maxSum, maxStart) := state in
  let currentSum := (currentSum - F64.read edge (i - 1))%float in
  let currentSum := (currentSum + F64.read edge (i + windowSize - 1))%float in
  if (maxSum <? currentSum)%float
  then (currentSum, currentSum, i)
  else (currentSum, maxSum, maxStart).

(** The sliding-window loop: [(currentSum, maxSum, maxStart)] after the
    initial window and every later start. *)
Definition slideWindow (edge : list float) (width windowSize : Z)
  : float * float * Z :=
  let initial :=
    fold_left (fun acc i => (acc + F64.read edge i)%float)
              (JS.upto windowSize) 0%float in
  fold_left (slideStep edge windowSize)
            (JS.range 1 (width - windowSize + 1) 1)
            (initial, initial, 0).

(** The strip that is analysed: rows [stripY .. stripY + stripH). *)
Definition stripY (canvas : Canvas) : Z :=
  JS.floor (inject_Z (canvas_height canvas) * (3 # 10)).

Definition stripH (canvas : Canvas) : Z :=
  JS.floor (inject_Z (canvas_height canvas) * (4 # 10)).

(** The array [edgeStrength] of the strip. *)
Definition stripEdges (canvas : Canvas) : list float :=
  let width := canvas_width canvas in
  let data := getImageData canvas 0 (stripY canvas) width (stripH canvas) in
  edgeStrength (columnBrightness data width (stripH canvas)) width.

Definition windowSize (canvas : Canvas) : Z :=
  JS.floor (inject_Z (canvas_width canvas) * (5 # 10)).

(** [maxSum] when the loop ends: the largest of the window sums the
    loop has formed. *)
Definition maxSum (canvas : Canvas) : float :=
  snd (fst (slideWindow (stripEdges canvas) (canvas_width canvas)
                        (windowSize canvas))).

(** [avgEdge]: [maxSum / windowSize]. *)
Definition avgEdge (canvas : Canvas) : float :=
  (maxSum canvas / F64.ofZ (windowSize canvas))%float.

Definition _detectBodyColumn (canvas : Canvas) : option Column :=
  let width := canvas_width canvas in
  let stripY := stripY canvas in
  let stripH := stripH canvas in
  if (stripH <? 10) || (width <? 20) then None
  else
    let edge := stripEdges canvas in
    let windowSize := windowSize canvas in
    if windowSize <? 10 then None
    else
      let '(_, maxSum, maxStart) := slideWindow edge width windowSize in
      let avgEdge := (maxSum / F64.ofZ windowSize)%float in
      if (avgEdge <? 3)%float then None
      else
        let padding := JS.floor (inject_Z width * (5 # 100)) in
        let resultX := Z.max 0 (maxStart - padding) in
        let resultW := Z.min (width - resultX) (windowSize + padding * 2) in
        Some (mkColumn resultX resultW).

End GarmentDetection.

(* ================================================================== *)
(** * JavaScript numbers with their non-finite values                  *)
(* ================================================================== *)

(** The scoring engine divides by array lengths and spreads
    [Math.max] over arrays without testing for emptiness first, so its
    numbers can be [NaN] or infinite.  A finite double is idealised as
    the real it denotes; signed zeros are not distinguished (every
    divisor below is an array length or a positive constant). *)
Module Num.
Local Open Scope R_scope.

Inductive num : Type :=
| Fin (x : R)
| PInf
| NInf
| NaN.

Definition ofZ (z : Z) : num := Fin (IZR z).

(** A number that is neither [NaN] nor infinite. *)
Definition finite (a : num) : Prop := exists x : R, a = Fin x.

Definition neg (a : num) : num :=
  match a with
  | Fin x => Fin (- x)
  | PInf => NInf
  | NInf => PInf
  | NaN => NaN
  end.

Definition add (a b : num) : num :=
  match a, b with
  | NaN, _ | _, NaN => NaN
  | Fin x, Fin y => Fin (x + y)
  | PInf, NInf | NInf, PInf => NaN
  | PInf, _ | _, PInf => PInf
  | NInf, _ | _, NInf => NInf
  end.

Definition sub (a b : num) : num := add a (neg b).

(** The sign of an infinity multiplied or divided by a finite number. *)
Definition signed (positive : bool) (x : R) : num :=
  if Rlt_dec 0 x then (if positive then PInf else NInf)
  else if Rlt_dec x 0 then (if positive then NInf else PInf)
  else NaN.

Definition mul (a b : num) : num :=
  match a, b with
  | NaN, _ | _, NaN => NaN
  | Fin x, Fin y => Fin (x * y)
  | Fin x, PInf | PInf, Fin x => signed true x
  | Fin x, NInf | NInf, Fin x => signed false x
  | PInf, PInf | NInf, NInf => PInf
  | PInf, NInf | NInf, PInf => NInf
  end.

Definition div (a b : num) : num :=
  match a, b with
  | NaN, _ | _, NaN => NaN
  | Fin x, Fin y => if Req_dec_T y 0 then signed true x else Fin (x / y)
  | Fin _, PInf | Fin _, NInf => Fin 0
  | PInf, Fin y => if Rlt_dec y 0 then NInf else PInf
  | NInf, Fin y => if Rlt_dec y 0 then PInf else NInf
  | PInf, PInf | PInf, NInf | NInf, PInf | NInf, NInf => NaN
  end.

(** [Math.pow(x, 2)]. *)
Definition sqr (a : num) : num := mul a a.

(** [Math.exp]. *)
Definition exp (a : num) : num :=
  match a with
  | Fin x => Fin (Rtrigo_def.exp x)
  | PInf => PInf
  | NInf => Fin 0
  | NaN => NaN
  end.

(** [Math.sqrt]. *)
Definition sqrt (a : num) : num :=
  match a with
  | Fin x => if Rlt_dec x 0 then NaN else Fin (R_sqrt.sqrt x)
  | PInf => PInf
  | NInf => NaN
  | NaN => NaN
  end.

(** [Math.round]. *)
Definition round (a : num) : num :=
  match a with
  | Fin x => Fin (IZR (Zfloor (x + 0.5)))
  | other => other
  end.

(** Two-argument [Math.max] and [Math.min]. *)
Definition max (a b : num) : num :=
  match a, b with
  | NaN, _ | _, NaN => NaN
  | PInf, _ | _, PInf => PInf
  | NInf, other | other, NInf => other
  | Fin x, Fin y => Fin (Rmax x y)
  end.

Definition min (a b : num) : num :=
  match a, b with
  | NaN, _ | _, NaN => NaN
  | NInf, _ | _, NInf => NInf
  | PInf, other | other, PInf => other
  | Fin x, Fin y => Fin (Rmin x y)
  end.

(** [Math.max(...arr)] and [Math.min(...arr)]; on the empty array they
    are minus and plus infinity. *)
Definition maximum (xs : list num) : num := fold_left max xs NInf.
Definition minimum (xs : list num) : num := fold_left min xs PInf.

(** [arr.reduce((a, b) => a + b, 0)]. *)
Definition sum (xs : list num) : num := fold_left add xs (Fin 0).

(** Comparisons; any comparison with [NaN] is false. *)
Definition ltb (a b : num) : bool :=
  match a, b with
  | NaN, _ | _, NaN => false
  | Fin x, Fin y => if Rlt_dec x y then true else false
  | NInf, NInf | PInf, _ | _, NInf => false
  | NInf, _ | _, PInf => true
  end.

Definition leb (a b : num) : bool :=
  match a, b with
  | NaN, _ | _, NaN => false
  | Fin x, Fin y => if Rle_dec x y then true else false
  | NInf, _ | _, PInf => true
  | PInf, _ | _, NInf => false
  end.

Definition eqb (a b : num) : bool :=
  match a, b with
  | Fin x, Fin y => if Req_dec_T x y then true else false
  | PInf, PInf | NInf, NInf => true
  | _, _ => false
  end.

End Num.

(* ================================================================== *)
(** * Scoring (the [Scoring] object)                                   *)
(* ================================================================== *)

Module Scoring.
Import ColorAnalysis.
Import Num.

Definition _bellCurve (value center spread : num) : num :=
  exp (mul (Fin (-0.5)%R) (sqr (div (sub value center) spread))).

Definition _pairwiseContrasts (colors : list Color) : list Z :=
  map (fun p => Z.abs (hsl_l (hsl (fst p)) - hsl_l (hsl (snd p))))
      (JS.pairs colors).

Definition _hueDiff (h1 h2 : Z) : Z :=
  let d := Z.abs (h1 - h2) in
  Z.min d (360 - d).

Definition _isNeutral (color : Color) : bool := hsl_s (hsl color) <? 12.

Definition _isWarmHue (h : Z) : bool :=
  ((0 <=? h) && (h <? 70)) || (300 <=? h).

Definition _isCoolHue (h : Z) : bool :=
  (170 <=? h) && (h <? 300).

(** [colors.filter(c => !this._isNeutral(c))] and the count of
    [colors.filter(c => this._isNeutral(c))], as every function of the
    object computes them. *)
Definition chromaticColors (colors : list Color) : list Color :=
  filter (fun c => negb (_isNeutral c)) colors.

Definition neutralCount (colors : list Color) : Z :=
  JS.len (filter _isNeutral colors).

Definition warmCount (chromatic : list Color) : Z :=
  JS.len (filter (fun c => _isWarmHue (hsl_h (hsl c))) chromatic).

Definition coolCount (chromatic : list Color) : Z :=
  JS.len (filter (fun c => _isCoolHue (hsl_h (hsl c))) chromatic).

(** An entry of the breakdown, without its [detail] text. *)
Record BreakdownItem : Type := mkItem {
  category : string;
  points : num;
  max_points : Z
}.

Record ScoreResult : Type := mkScore {
  total : num;
  breakdown : list BreakdownItem
}.

(** 1. Colour harmony. *)
Definition harmonyPoints (harmonyResult : HarmonyResult) : num :=
  round (mul (ofZ (harmony_score harmonyResult)) (Fin 0.30%R)).

(** 2. Contrast balance. *)
Definition contrastPoints (colors : list Color) : num :=
  let contrasts := map ofZ (_pairwiseContrasts colors) in
  if 0 <? JS.len contrasts then
    let avgContrast := div (sum contrasts) (ofZ (JS.len contrasts)) in
    round (mul (_bellCurve avgContrast (Fin 38) (Fin 18)) (Fin 18))
  else Fin 0.

(** [colors.reduce((s, c) => s + c.hsl.s, 0) / colors.length]. *)
Definition avgSat (colors : list Color) : num :=
  div (sum (map (fun c => ofZ (hsl_s (hsl c))) colors)) (ofZ (JS.len colors)).

(** 3. Colour intensity. *)
Definition intensityPoints (colors : list Color) : num :=
  let sats := map (fun c => ofZ (hsl_s (hsl c))) colors in
  let satVariance := sub (maximum sats) (minimum sats) in
  let satVarScore := mul (_bellCurve satVariance (Fin 35) (Fin 20)) (Fin 8) in
  let avgSatScore := mul (_bellCurve (avgSat colors) (Fin 45) (Fin 25)) (Fin 7) in
  round (add satVarScore avgSatScore).

(** 4. Warm/cool coherence. *)
Definition coherencePoints (colors : list Color) : Z :=
  let chromatic := chromaticColors colors in
  if 2 <=? JS.len chromatic then
    let dominance :=
      div (ofZ (Z.max (warmCount chromatic) (coolCount chromatic)))
          (ofZ (JS.len chromatic)) in
    if eqb dominance (Fin 1) then 12
    else if leb (Fin 0.66%R) dominance then 8
    else 4
  else 10.

(** 5. Neutral anchoring. *)
Definition anchorPoints (colors : list Color) : Z :=
  let chromatic := chromaticColors colors in
  let neutrals := neutralCount colors in
  if (neutrals =? 1) && (1 <=? JS.len chromatic) then 10
  else if (neutrals =? 2) && (JS.len colors =? 3) then 7
  else if (neutrals =? 0) && ltb (Fin 50) (avgSat colors) then 5
  else if neutrals =? JS.len colors then 8
  else 6.

(** The standard deviation of the lightnesses, as the polish rule
    computes it. *)
Definition lightStdDev (colors : list Color) : num :=
  let lightnesses := map (fun c => ofZ (hsl_l (hsl c))) colors in
  sqrt
    (div
       (fold_left
          (fun s l =>
             add s (sqr (sub l (div (sum lightnesses)
                                    (ofZ (JS.len lightnesses))))))
          lightnesses (Fin 0))
       (ofZ (JS.len lightnesses))).

(** 6. Professional polish. *)
Definition polishPoints (colors : list Color) (harmonyResult : HarmonyResult)
  : Z :=
  let chromatic := chromaticColors colors in
  let polish := 15 in
  let polish :=
    if String.eqb (harmony_type harmonyResult) "Color Clash"
    then polish - 8 else polish in
  let highSatCount := JS.len (filter (fun c => 75 <? hsl_s (hsl c)) colors) in
  let polish := if 3 <=? highSatCount then polish - 5 else polish in
  let polish :=
    if 2 <=? JS.len chromatic then
      let warmC := warmCount chromatic in
      let coolC := coolCount chromatic in
      if (0 <? warmC) && (0 <? coolC) && (Z.abs (warmC - coolC) <=? 1)
      then polish - 4 else polish
    else polish in
  let polish :=
    if ltb (Fin 30) (lightStdDev colors) then polish - 3 else polish in
  let polish :=
    if String.eqb (harmony_type harmonyResult) "Analogous" then polish + 3
    else if String.eqb (harmony_type harmonyResult) "Complementary"
    then polish + 2
    else if String.eqb (harmony_type harmonyResult) "Monochromatic"
            && (2 <=? JS.len chromatic)
    then polish + 2
    else polish in
  Z.max 0 (Z.min 15 polish).

Definition calculateOutfitScore (colors : list Color)
  (harmonyResult : HarmonyResult) : ScoreResult :=
  let score := Fin 0 in
  let score := add score (harmonyPoints harmonyResult) in
  let score := add score (contrastPoints colors) in
  let score := add score (intensityPoints colors) in
  let score := add score (ofZ (coherencePoints colors)) in
  let score := add score (ofZ (anchorPoints colors)) in
  let score := add score (ofZ (polishPoints colors harmonyResult)) in
  {| total := max (Fin 0) (min (Fin 100) (round score));
     breakdown :=
       [ mkItem "🎨 Color Harmony" (harmonyPoints harmonyResult) 30;
         mkItem "🔲 Contrast Balance" (contrastPoints colors) 18;
         mkItem "💡 Color Intensity" (intensityPoints colors) 15;
         mkItem "🌡️ Warm/Cool Coherence" (ofZ (coherencePoints colors)) 12;
         mkItem "⚓ Neutral Anchoring" (ofZ (anchorPoints colors)) 10;
         mkItem "👔 Professional Polish"
                (ofZ (polishPoints colors harmonyResult)) 15 ] |}.

(** A grade [{letter, color, description}]. *)
Record Grade : Type := mkGrade {
  letter : string;
  color : string;
  description : string
}.

Definition getGrade (score : Z) : Grade :=
  if 95 <=? score then
    mkGrade "S" "text-purple-400" "Perfection! 💎 Runway-ready."
  else if 90 <=? score then
    mkGrade "A+" "text-green-400" "Outstanding! A masterclass in color."
  else if 85 <=? score then
    mkGrade "A" "text-green-400" "Excellent — polished and intentional."
  else if 80 <=? score then
    mkGrade "B+" "text-blue-400" "Very Good — minor tweaks away from great."
  else if 75 <=? score then
    mkGrade "B" "text-blue-400" "Good — solid color choices."
  else if 70 <=? score then
    mkGrade "C+" "text-yellow-400" "Above Average — room to improve."
  else if 65 <=? score then
    mkGrade "C" "text-yellow-400" "Average — safe but unremarkable."
  else if 58 <=? score then
    mkGrade "D+" "text-orange-400" "Below Average — some clashing."
  else if 50 <=? score then
    mkGrade "D" "text-orange-400" "Weak — needs rethinking."
  else if 40 <=? score then
    mkGrade "E" "text-red-400" "Poor — significant color issues."
  else
    mkGrade "F" "text-red-400" "Fail — complete color mismatch.".

End Scoring.

(* ================================================================== *)
(** * The specification's wording, for comparison with the code        *)
(* ================================================================== *)

Module Spec.
Import ColorAnalysis.

(** "Sort ascending, drop floor(10%) from each end, mean the remainder;
    if remainder empty, return the median of the original sorted list":
    the specification's [trimmedMean], word for word.  The median of a
    list is its middle element; the empty list has none. *)
Definition remainder (values : list Z) : list Z :=
  let sorted := JS.sort (fun a b => a - b) values in
  let drop := JS.len values / 10 in
  JS.slice drop (JS.len values - drop) sorted.

Definition trimmedMean (values : list Z) : option Q :=
  let sorted := JS.sort (fun a b => a - b) values in
  match remainder values with
  | [] => option_map inject_Z (nth_error sorted (Z.to_nat (JS.len sorted / 2)))
  | _ => Some (JS.mean (remainder values))
  end.

(** An integer result of the code agrees with the specification's
    value. *)
Definition agrees (code : Z) (spec : option Q) : Prop :=
  match spec with
  | Some q => (inject_Z code == q)%Q
  | None => False
  end.

(** [x] rounded to a nearest integer is [z]. *)
Definition nearest (x : Q) (z : Z) : Prop :=
  (Qabs (x - inject_Z z) <= 1 # 2)%Q.

(** "Visually distinct (hue difference > 25, or lightness difference
    > 25, or saturation difference > 30)". *)
Definition distinct (c1 c2 : GarmentDetection.DominantColor) : Prop :=
  let h1 := GarmentDetection.dom_hsl c1 in
  let h2 := GarmentDetection.dom_hsl c2 in
  25 < hueDifference (hsl_h h1) (hsl_h h2) \/
  25 < Z.abs (hsl_l h1 - hsl_l h2) \/
  30 < Z.abs (hsl_s h1 - hsl_s h2).

(** "The two most frequent dominant colors" of a list: two of its
    entries, at different places, the first at least as frequent as the
    second and the second at least as frequent as every other entry. *)
Definition twoMostFrequent (dcs : list GarmentDetection.DominantColor)
  (c1 c2 : GarmentDetection.DominantColor) : Prop :=
  exists i j : nat,
    i <> j /\ nth_error dcs i = Some c1 /\ nth_error dcs j = Some c2 /\
    (GarmentDetection.frequency c2 <= GarmentDetection.frequency c1)%Q /\
    forall (k : nat) (d : GarmentDetection.DominantColor),
      k <> i -> k <> j -> nth_error dcs k = Some d ->
      (GarmentDetection.frequency d <= GarmentDetection.frequency c2)%Q.

(** A list of dominant colours in order of decreasing frequency. *)
Definition byFrequency (dcs : list GarmentDetection.DominantColor) : Prop :=
  StronglySorted
    (fun a b => (GarmentDetection.frequency b <= GarmentDetection.frequency a)%Q)
    dcs.

(** Every pixel of the part of [rect] that lies on the canvas (the
    rectangle [_getPixelData] reads) has an alpha byte below 128. *)
Definition transparentIn (canvas : DOM.Canvas)
  (rect : GarmentDetection.Rect) : Prop :=
  let x := Z.max 0 (JS.round (GarmentDetection.rect_x rect)) in
  let y := Z.max 0 (JS.round (GarmentDetection.rect_y rect)) in
  let w := Z.min (JS.round (GarmentDetection.rect_width rect))
                 (DOM.canvas_width canvas - x) in
  let h := Z.min (JS.round (GarmentDetection.rect_height rect))
                 (DOM.canvas_height canvas - y) in
  forall i j,
    x <= i < x + w -> y <= j < y + h ->
    DOM.alpha (DOM.canvas_pixel canvas i j) < 128.

(** A JavaScript number that is an integer between 0 and 100. *)
Definition isScore (n : Num.num) : Prop :=
  exists t : Z, n = Num.ofZ t /\ 0 <= t <= 100.

(** [Math.max(0, Math.min(100, n))] on integers. *)
Definition clamp (n : Z) : Z := Z.max 0 (Z.min 100 n).

End Spec.

(* ================================================================== *)
(** * ColorAnalysis: hexadecimal codes and colour names                *)
(* ================================================================== *)

Module ColorText.
Import ColorAnalysis.
Local Open Scope string_scope.
Local Open Scope Z_scope.

(** The digit of [Number.prototype.toString(16)] for a value 0..15. *)
Definition hexDigit (d : Z) : ascii :=
  if d <? 10 then ascii_of_nat (48 + Z.to_nat d)
  else ascii_of_nat (87 + Z.to_nat d).

(** [x.toString(16)] for an integer [x]: a minus sign if [x < 0], then
    the hexadecimal digits of its absolute value, most significant
    first, in lower case.  The fuel bounds the number of digits. *)
Fixpoint digits16 (fuel : nat) (x : Z) : string :=
  match fuel with
  | O => String (hexDigit x) EmptyString
  | S fuel' =>
      if x <? 16 then String (hexDigit x) EmptyString
      else (digits16 fuel' (x / 16)
            ++ String (hexDigit (x mod 16)) EmptyString)%string
  end.

Definition toString16 (x : Z) : string :=
  if x <? 0 then String "-" (digits16 (Z.to_nat (- x)) (- x))
  else digits16 (Z.to_nat x) x.

(** [s.padStart(2, '0')]. *)
Definition padStart2 (s : string) : string :=
  match s with
  | EmptyString => "00"
  | String c EmptyString => String "0" (String c EmptyString)
  | _ => s
  end.

(** [rgbToHex(r, g, b)]. *)
Definition rgbToHex (r g b : Z) : string :=
  ("#" ++ String.concat EmptyString
            (map (fun x => padStart2 (toString16 x)) [r; g; b]))%string.

(** The value of a character matched by [[a-f\d]] under the [i] flag. *)
Definition hexValue (c : ascii) : option Z :=
  let n := Z.of_nat (nat_of_ascii c) in
  if (48 <=? n) && (n <=? 57) then Some (n - 48)
  else if (97 <=? n) && (n <=? 102) then Some (n - 87)
  else if (65 <=? n) && (n <=? 70) then Some (n - 55)
  else None.

(** [parseInt(pair, 16)] for a group of two hexadecimal digits. *)
Definition parsePair (c1 c2 : ascii) : option Z :=
  match hexValue c1, hexValue c2 with
  | Some d1, Some d2 => Some (16 * d1 + d2)
  | _, _ => None
  end.

(** [hexToRgb(hex)] of the application object: the pattern
    [/^#?([a-f\d]{2})([a-f\d]{2})([a-f\d]{2})$/i] and three [parseInt];
    [None] is [null]. *)
Definition hexToRgb (hex : string) : option RGB :=
  let body :=
    match hex with
    | String "#" rest => rest
    | _ => hex
    end in
  match body with
  | String r1 (String r2 (String g1 (String g2 (String b1 (String b2 EmptyString))))) =>
      match parsePair r1 r2, parsePair g1 g2, parsePair b1 b2 with
      | Some r, Some g, Some b => Some (mkRGB r g b)
      | _, _, _ => None
      end
  | _ => None
  end.

(** [_getHueName(h, s, l)]. *)
Definition _getHueName (h s l : Z) : string :=
  if (345 <=? h) || (h <? 8) then
    if (l <? 30) && (30 <? s) then "Maroon"
    else if (l <? 40) && (40 <? s) then "Burgundy"
    else if (60 <? s) && (40 <? l) then "Red"
    else "Red"
  else if (8 <=? h) && (h <? 20) then
    if (60 <? l) && (50 <? s) then "Coral"
    else if l <? 35 then "Rust"
    else "Red-Orange"
  else if (20 <=? h) && (h <? 40) then
    if (l <? 35) && (20 <=? s) then "Brown"
    else if (35 <=? l) && (l <? 50) && (s <? 50) then "Tan"
    else if (60 <? s) && (55 <? l) then "Orange"
    else if 70 <? l then "Peach"
    else "Orange"
  else if (40 <=? h) && (h <? 50) then
    if l <? 40 then "Dark Gold"
    else if 50 <? s then "Gold"
    else if 75 <? l then "Beige"
    else "Gold"
  else if (50 <=? h) && (h <? 70) then
    if (l <? 40) && (s <? 50) then "Olive"
    else if (s <? 40) && (60 <? l) then "Khaki"
    else if 75 <? l then "Lemon"
    else "Yellow"
  else if (70 <=? h) && (h <? 90) then
    if l <? 40 then "Olive"
    else if 50 <? s then "Lime"
    else "Yellow-Green"
  else if (90 <=? h) && (h <? 160) then
    if (l <? 25) && (s <? 50) then "Forest Green"
    else if l <? 35 then "Dark Green"
    else if (140 <=? h) && (30 <? s) then "Emerald"
    else if (50 <? s) && (40 <? l) then "Green"
    else if s <? 35 then "Sage"
    else "Green"
  else if (160 <=? h) && (h <? 185) then
    if l <? 35 then "Dark Teal"
    else "Teal"
  else if (185 <=? h) && (h <? 200) then
    if 70 <? l then "Light Cyan"
    else "Cyan"
  else if (200 <=? h) && (h <? 250) then
    if (l <? 20) && (25 <? s) then "Navy"
    else if (l <? 35) && (20 <? s) then "Dark Blue"
    else if (220 <=? h) && (h <? 245) && (50 <? s) then "Royal Blue"
    else if 65 <? l then "Sky Blue"
    else if s <? 35 then "Steel Blue"
    else "Blue"
  else if (250 <=? h) && (h <? 270) then
    if l <? 30 then "Dark Indigo"
    else "Indigo"
  else if (270 <=? h) && (h <? 300) then
    if l <? 30 then "Dark Purple"
    else if 70 <? l then "Lavender"
    else if 50 <? s then "Purple"
    else "Mauve"
  else if (300 <=? h) && (h <? 330) then
    if (60 <? s) && (40 <? l) then "Magenta"
    else if 70 <? l then "Pink"
    else if l <? 35 then "Plum"
    else "Pink"
  else if (330 <=? h) && (h <? 345) then
    if 65 <? l then "Rose"
    else if l <? 30 then "Wine"
    else if 50 <? s then "Hot Pink"
    else "Rose"
  else "Unknown".

(** [getColorDescription(color)]; it reads [color.hsl] only. *)
Definition getColorDescription (color : HSL) : string :=
  let h := hsl_h color in
  let s := hsl_s color in
  let l := hsl_l color in
  if s <? 8 then
    if l <? 8 then "Black"
    else if l <? 20 then "Charcoal"
    else if l <? 35 then "Dark Gray"
    else if l <? 50 then "Gray"
    else if l <? 65 then "Silver"
    else if l <? 80 then "Light Gray"
    else if l <? 92 then "Off-White"
    else "White"
  else if s <? 15 then
    if l <? 15 then "Near Black"
    else if 85 <? l then "Off-White"
    else if (20 <=? h) && (h <? 50) && (60 <=? l) then "Cream"
    else if (20 <=? h) && (h <? 50) && (l <? 60) then "Taupe"
    else "Gray"
  else
    let hueName := _getHueName h s l in
    if l <? 18 then ("Very Dark " ++ hueName)%string
    else if l <? 30 then ("Dark " ++ hueName)%string
    else if 82 <? l then ("Pale " ++ hueName)%string
    else if 70 <? l then ("Light " ++ hueName)%string
    else if s <? 25 then ("Muted " ++ hueName)%string
    else if 80 <? s then ("Vivid " ++ hueName)%string
    else if 65 <? s then ("Vibrant " ++ hueName)%string
    else hueName.

(** The fixed texts of [generateSuggestions]. *)
Definition suggestAnchor : string :=
  "Add a neutral piece (black, white, gray, or navy) to anchor the outfit and reduce visual noise.".

Definition suggestTemperature (dominant : string) : string :=
  ("You're mixing warm and cool tones. Try committing to one temperature family — "
   ++ (if String.eqb dominant "warm"
       then "swap cool pieces for warm ones"
       else "swap warm pieces for cool ones")
   ++ ".")%string.

Definition suggestContrast : string :=
  "The outfit lacks contrast — everything blends together. Try a lighter top with darker bottoms (or vice versa).".

Definition suggestToneDown : string :=
  "Multiple highly-saturated colors compete for attention. Tone down 1–2 pieces to let one color be the star.".

Definition suggestClash : string :=
  "These colors clash. Quick fix: replace one chromatic piece with a neutral, or shift it to a neighboring hue (±30° on the color wheel).".

Definition suggestAccent : string :=
  "All neutral is safe but can feel flat. Try adding one saturated accent — a colored shoe, bag, or top layer.".

Definition suggestShades : string :=
  "Same-hue outfit needs more light/dark variation. Try pairing a darker shade on bottom with a lighter shade on top.".

(** [arr.push(x)] when [test] holds. *)
Definition pushIf (test : bool) (x : string) (arr : list string) : list string :=
  if test then arr ++ [x] else arr.

(** [generateSuggestions(colors, harmonyResult)]. *)
Definition generateSuggestions (colors : list Color)
  (harmonyResult : HarmonyResult) : list string :=
  let suggestions := [] in
  let neutrals := filter isNeutral colors in
  let chromatics := filter (fun c => negb (isNeutral c)) colors in
  let tempAnalysis := analyzeTemperature colors in
  let suggestions :=
    pushIf ((JS.len neutrals =? 0) && (2 <=? JS.len chromatics))
           suggestAnchor suggestions in
  let suggestions :=
    pushIf ((0 <? warmCount tempAnalysis) && (0 <? coolCount tempAnalysis)
            && (2 <=? JS.len chromatics))
           (suggestTemperature (dominant tempAnalysis)) suggestions in
  let contrasts :=
    map (fun p => lightnessContrast (fst p) (snd p)) (JS.pairs colors) in
  let avgContrast :=
    if 0 <? JS.len contrasts then JS.mean contrasts else 0%Q in
  let suggestions :=
    pushIf (JS.Qltb avgContrast 15) suggestContrast suggestions in
  let highSatCount := JS.len (filter (fun c => 70 <? hsl_s (hsl c)) colors) in
  let suggestions := pushIf (3 <=? highSatCount) suggestToneDown suggestions in
  let suggestions :=
    pushIf (String.eqb (harmony_type harmonyResult) "Color Clash")
           suggestClash suggestions in
  let suggestions :=
    pushIf (JS.len chromatics =? 0) suggestAccent suggestions in
  let suggestions :=
    pushIf (String.eqb (harmony_type harmonyResult) "Monochromatic - Flat")
           suggestShades suggestions in
  suggestions.

End ColorText.

(* ================================================================== *)
(** * ColorAnalysis: WCAG luminance and contrast                       *)
(* ================================================================== *)

(** [Math.pow(x, 2.4)] is the real power; its base is positive wherever
    the code calls it.  The channels are integers, so no argument is
    [NaN] or infinite and the results are plain reals. *)
Module Contrast.
Import ColorAnalysis.
Local Open Scope R_scope.

(** The function mapped over [[r, g, b]] in [relativeLuminance]. *)
Definition linearize (c : Z) : R :=
  let c := IZR c / 255 in
  if Rle_dec c 0.03928 then c / 12.92
  else Rpower ((c + 0.055) / 1.055) 2.4.

Definition relativeLuminance (r g b : Z) : R :=
  let rs := linearize r in
  let gs := linearize g in
  let bs := linearize b in
  0.2126 * rs + 0.7152 * gs + 0.0722 * bs.

Definition calculateContrast (color1 color2 : Color) : R :=
  let l1 := relativeLuminance (rgb_r (rgb color1)) (rgb_g (rgb color1))
                              (rgb_b (rgb color1)) in
  let l2 := relativeLuminance (rgb_r (rgb color2)) (rgb_g (rgb color2))
                              (rgb_b (rgb color2)) in
  let lighter := Rmax l1 l2 in
  let darker := Rmin l1 l2 in
  (lighter + 0.05) / (darker + 0.05).

End Contrast.

(* ================================================================== *)
(** * ColorAnalysis: the colour histogram of a canvas region           *)
(* ================================================================== *)

Module Histogram.
Import DOM ColorAnalysis.

(** An entry [{r, g, b, frequency}] of the result; here [frequency] is
    the number of pixels in the bucket. *)
Record Entry : Type := mkEntry {
  entry_r : Z;
  entry_g : Z;
  entry_b : Z;
  entry_frequency : Z
}.

(** The buckets after the sampling loop, in the order of the [Map].
    The [Map] is the one of [GarmentDetection._getDominantColorsFromPixels],
    with the key [`${r >> 3},${g >> 3},${b >> 3}`]. *)
Definition buckets (data : list Z)
  : list (GarmentDetection.Key * GarmentDetection.Bucket) :=
  let shift := 3 in
  fold_left
    (fun acc i =>
       if JS.at_ data (i + 3) 0 <? 128 then acc
       else
         GarmentDetection.addPixel acc
           (Z.shiftr (JS.at_ data i 0) shift,
            Z.shiftr (JS.at_ data (i + 1) 0) shift,
            Z.shiftr (JS.at_ data (i + 2) 0) shift)
           (mkRGB (JS.at_ data i 0) (JS.at_ data (i + 1) 0)
                  (JS.at_ data (i + 2) 0)))
    (JS.range 0 (JS.len data) 16) [].

(** [extractDominantColors(canvas, x, y, width, height, count)], with
    [width] and [height] whole numbers of pixels and [0 <= count]. *)
Definition extractDominantColors (canvas : Canvas) (x y : Q)
  (width height count : Z) : list Entry :=
  let cx := Z.max 0 (JS.round x) in
  let cy := Z.max 0 (JS.round y) in
  let cw := Z.min width (canvas_width canvas - cx) in
  let ch := Z.min height (canvas_height canvas - cy) in
  if (cw <=? 0) || (ch <=? 0) then []
  else
    let data := getImageData canvas cx cy cw ch in
    let sorted :=
      JS.slice 0 count
        (JS.sort (fun a b => GarmentDetection.count b - GarmentDetection.count a)
                 (map snd (buckets data))) in
    map
      (fun b =>
         {| entry_r := JS.round (inject_Z (GarmentDetection.totalR b)
                                 / inject_Z (GarmentDetection.count b));
            entry_g := JS.round (inject_Z (GarmentDetection.totalG b)
                                 / inject_Z (GarmentDetection.count b));
            entry_b := JS.round (inject_Z (GarmentDetection.totalB b)
                                 / inject_Z (GarmentDetection.count b));
            entry_frequency := GarmentDetection.count b |})
      sorted.

End Histogram.

(* ================================================================== *)
(** * GarmentDetection: the confidence of a zone's colour              *)
(* ================================================================== *)

Module ZoneConfidence.
Import ColorAnalysis.
Import Num.

(** The distance [Math.sqrt(dr^2 + dg^2 + db^2)] of a pixel from the
    dominant colour. *)
Definition distance (px dominantColor : RGB) : num :=
  sqrt (add (add (sqr (ofZ (rgb_r px - rgb_r dominantColor)))
                 (sqr (ofZ (rgb_g px - rgb_g dominantColor))))
            (sqr (ofZ (rgb_b px - rgb_b dominantColor)))).

(** [_calculateConfidence(allPixels, filteredPixels, dominantColor)]. *)
Definition _calculateConfidence (allPixels filteredPixels : list RGB)
  (dominantColor : RGB) : num :=
  if JS.len allPixels =? 0 then Fin 0
  else
    let confidence := Fin 0 in
    let survivalRate :=
      div (ofZ (JS.len filteredPixels)) (ofZ (JS.len allPixels)) in
    let confidence :=
      add confidence
          (mul (min (Fin 1) (div survivalRate (Fin 0.5%R))) (Fin 0.4%R)) in
    let samplePixels :=
      if 0 <? JS.len filteredPixels then filteredPixels else allPixels in
    let sample := JS.slice 0 200 samplePixels in
    let confidence :=
      if 0 <? JS.len sample then
        let totalDist :=
          fold_left (fun total px => add total (distance px dominantColor))
                    sample (Fin 0) in
        let avgDist := div totalDist (ofZ (JS.len sample)) in
        let consistencyScore :=
          max (Fin 0) (sub (Fin 1) (div avgDist (Fin 150))) in
        add confidence (mul consistencyScore (Fin 0.4%R))
      else confidence in
    let pixelScore :=
      min (Fin 1) (div (ofZ (JS.len samplePixels)) (Fin 100)) in
    let confidence := add confidence (mul pixelScore (Fin 0.2%R)) in
    div (round (mul confidence (Fin 100))) (Fin 100).

End ZoneConfidence.

(* ================================================================== *)
(** * Scoring: confidence and mood                                     *)
(* ================================================================== *)

Module Signals.
Import ColorAnalysis.
Import Scoring.


(** [colors.reduce((s, c) => s + c.hsl.l, 0) / colors.length]. *)
Definition avgLight (colors : list Color) : Num.num :=
  Num.div (Num.sum (map (fun c => Num.ofZ (hsl_l (hsl c))) colors))
          (Num.ofZ (JS.len colors)).

(** The standard deviation of the lightnesses around [avgLight]. *)
Definition lightDeviation (colors : list Color) : Num.num :=
  Num.sqrt
    (Num.div
       (fold_left
          (fun s c =>
             Num.add s (Num.sqr (Num.sub (Num.ofZ (hsl_l (hsl c)))
                                         (avgLight colors))))
          colors (Num.Fin 0))
       (Num.ofZ (JS.len colors))).

(** The running [score] of [calculateConfidence] after its six factors,
    before the final rounding; [colors] is not empty. *)
Definition confidenceSum (colors : list Color) : Num.num :=
  let score := Num.Fin 0 in
  (* Factor 1: contrast *)
  let contrasts := map Num.ofZ (_pairwiseContrasts colors) in
  let score :=
    if 0 <? JS.len contrasts then
      let avgContrast := Num.div (Num.sum contrasts) (Num.ofZ (JS.len contrasts)) in
      Num.add score
        (Num.mul (_bellCurve avgContrast (Num.Fin 40) (Num.Fin 20)) (Num.Fin 25))
    else score in
  (* Factor 2: saturation strength *)
  let avgSat := avgSat colors in
  let score :=
    Num.add score
      (Num.mul (_bellCurve avgSat (Num.Fin 55) (Num.Fin 25)) (Num.Fin 20)) in
  (* Factor 3: visual balance *)
  let avgLight := avgLight colors in
  let lightStdDev := lightDeviation colors in
  let score :=
    Num.add score
      (Num.mul (_bellCurve lightStdDev (Num.Fin 15) (Num.Fin 12)) (Num.Fin 15)) in
  (* Factor 4: neutral anchor *)
  let neutralCount := JS.len (filter _isNeutral colors) in
  let chromaticCount := JS.len colors - neutralCount in
  let score :=
    if (neutralCount =? 1) && (1 <=? chromaticCount) then
      Num.add score (Num.Fin 15)
    else if neutralCount =? JS.len colors then
      Num.add score (Num.mul (Num.Fin 15) (Num.Fin 0.75%R))
    else if (neutralCount =? 0) && Num.ltb (Num.Fin 50) avgSat then
      Num.add score (Num.mul (Num.Fin 15) (Num.Fin 0.6%R))
    else if 2 <=? neutralCount then
      Num.add score (Num.mul (Num.Fin 15) (Num.Fin 0.5%R))
    else score in
  (* Factor 5: warm/cool coherence *)
  let chromaticColors := filter (fun c => negb (_isNeutral c)) colors in
  let score :=
    if 2 <=? JS.len chromaticColors then
      let warmCount :=
        JS.len (filter (fun c => _isWarmHue (hsl_h (hsl c))) chromaticColors) in
      let coolCount :=
        JS.len (filter (fun c => _isCoolHue (hsl_h (hsl c))) chromaticColors) in
      let coherence :=
        Num.div (Num.ofZ (Z.max warmCount coolCount))
                (Num.ofZ (JS.len chromaticColors)) in
      Num.add score (Num.mul coherence (Num.Fin 15))
    else Num.add score (Num.mul (Num.Fin 15) (Num.Fin 0.8%R)) in
  (* Factor 6: darkness *)
  let score :=
    if Num.ltb avgLight (Num.Fin 20) && Num.ltb avgSat (Num.Fin 20) then
      Num.add score (Num.Fin 10)
    else if Num.ltb avgLight (Num.Fin 35) then
      Num.add score (Num.mul (Num.Fin 10) (Num.Fin 0.7%R))
    else if Num.ltb (Num.Fin 75) avgLight then
      Num.add score (Num.mul (Num.Fin 10) (Num.Fin 0.4%R))
    else Num.add score (Num.mul (Num.Fin 10) (Num.Fin 0.5%R)) in
  score.

(** [calculateConfidence(colors)] for an array [colors]. *)
Definition calculateConfidence (colors : list Color) : Num.num :=
  if JS.len colors =? 0 then Num.Fin 0
  else
    Num.max (Num.Fin 0)
            (Num.min (Num.Fin 100) (Num.round (confidenceSum colors))).

(** The result [{mood, emoji}] of [detectMood], without its
    [explanation] text. *)
Record Mood : Type := mkMood { mood : string; emoji : string }.

(** [_isWarmHue] and [_isCoolHue] at an average hue, which need not be
    an integer. *)
Definition isWarmAvg (h : Q) : bool :=
  (Qle_bool 0 h && JS.Qltb h 70) || Qle_bool 300 h.

Definition isCoolAvg (h : Q) : bool :=
  Qle_bool 170 h && JS.Qltb h 300.

(** [detectMood(colors)] for an array [colors].  The averages are
    quotients of integer sums by the length and are modelled exactly. *)
Definition detectMood (colors : list Color) : Mood :=
  if JS.len colors =? 0 then mkMood "Unknown" "❓"
  else
    let avgHue := JS.mean (map (fun c => hsl_h (hsl c)) colors) in
    let avgSat := JS.mean (map (fun c => hsl_s (hsl c)) colors) in
    let avgLight := JS.mean (map (fun c => hsl_l (hsl c)) colors) in
    let lightnesses := map (fun c => hsl_l (hsl c)) colors in
    let maxContrast := JS.maximum lightnesses - JS.minimum lightnesses in
    let chromaticColors := filter (fun c => negb (_isNeutral c)) colors in
    let neutralCount := JS.len (filter _isNeutral colors) in
    let hues := map (fun c => hsl_h (hsl c)) chromaticColors in
    let hueSpread :=
      if 2 <=? JS.len hues then JS.maximum hues - JS.minimum hues else 0 in
    let isWarm := isWarmAvg avgHue in
    let isCool := isCoolAvg avgHue in
    if JS.Qltb avgLight 18 && JS.Qltb avgSat 20 then
      mkMood "Dark / Edgy" "🖤"
    else if (neutralCount =? JS.len colors)
            && Qle_bool 18 avgLight && Qle_bool avgLight 75 then
      mkMood "Monochrome Minimal" "🤍"
    else if JS.Qltb 55 avgSat && (isWarm || (40 <? maxContrast)) then
      mkMood "Energetic / Bold" "⚡"
    else if JS.Qltb 60 avgLight && Qle_bool 20 avgSat && Qle_bool avgSat 55
            && (Qle_bool 300 avgHue || JS.Qltb avgHue 30) then
      mkMood "Romantic / Soft" "🌸"
    else if isWarm && Qle_bool 15 avgSat && Qle_bool avgSat 50
            && Qle_bool 20 avgLight && Qle_bool avgLight 55 then
      mkMood "Earthy / Natural" "🍂"
    else if isCool && Qle_bool 20 avgSat && Qle_bool avgSat 55
            && (maxContrast <? 40) then
      mkMood "Calm / Professional" "💼"
    else if (2 <=? JS.len chromaticColors) && (60 <? hueSpread)
            && JS.Qltb 35 avgSat then
      mkMood "Playful / Creative" "🎨"
    else if JS.Qltb 55 avgLight && JS.Qltb 40 avgSat && (25 <? maxContrast) then
      mkMood "Fresh / Sporty" "🏃"
    else if JS.Qltb avgSat 25 && JS.Qltb 30 avgLight && JS.Qltb avgLight 70 then
      mkMood "Minimal / Elegant" "✨"
    else if JS.Qltb avgSat 15 then
      mkMood "Neutral / Classic" "🎯"
    else mkMood "Balanced" "⚖️".

End Signals.

(* ================================================================== *)
(** * Bytes: what an image holds                                       *)
(* ================================================================== *)

(** The data of a canvas is a [Uint8ClampedArray]: every channel of
    every pixel is an integer between 0 and 255. *)
Module Pixels.
Import DOM ColorAnalysis.

Definition isByte (v : Z) : Prop := 0 <= v <= 255.

Definition byteColor (c : RGB) : Prop :=
  isByte (rgb_r c) /\ isByte (rgb_g c) /\ isByte (rgb_b c).

Definition byteCanvas (canvas : Canvas) : Prop :=
  forall x y : Z,
    isByte (fst (fst (fst (canvas_pixel canvas x y)))) /\
    isByte (snd (fst (fst (canvas_pixel canvas x y)))) /\
    isByte (snd (fst (canvas_pixel canvas x y))) /\
    isByte (snd (canvas_pixel canvas x y)).

(** The components of an [{h, s, l}] object that [rgbToHsl] can
    return: a hue up to 360 and two percentages. *)
Definition hslInRange (c : HSL) : Prop :=
  0 <= hsl_h c <= 360 /\ 0 <= hsl_s c <= 100 /\ 0 <= hsl_l c <= 100.

(** A bucket that holds at least one pixel, all of them bytes. *)
Definition byteBucket (b : GarmentDetection.Bucket) : Prop :=
  1 <= GarmentDetection.count b /\
  0 <= GarmentDetection.totalR b <= 255 * GarmentDetection.count b /\
  0 <= GarmentDetection.totalG b <= 255 * GarmentDetection.count b /\
  0 <= GarmentDetection.totalB b <= 255 * GarmentDetection.count b.


End Pixels.

(* ================================================================== *)
(** * Facts about the JavaScript primitives                            *)
(* ================================================================== *)

Ltac qlra := Lqa.lra.
Ltac rlra := Lra.lra.

Module JSFacts.

Lemma Qltb_true (x y : Q) : JS.Qltb x y = true <-> (x < y)%Q.
Proof.
  unfold JS.Qltb. rewrite negb_true_iff. split.
  - intros H. apply Qnot_le_lt. intros C. apply Qle_bool_iff in C. congruence.
  - intros H. destruct (Qle_bool y x) eqn:E; auto.
    apply Qle_bool_iff in E. qlra.
Qed.

Lemma Qltb_false (x y : Q) : JS.Qltb x y = false <-> (y <= x)%Q.
Proof.
  unfold JS.Qltb. rewrite negb_false_iff. apply Qle_bool_iff.
Qed.

(** [Math.round] returns an integer within one half of its argument. *)
Lemma round_bounds (x : Q) :
  (inject_Z (JS.round x) - (1 # 2) <= x /\ x < inject_Z (JS.round x) + (1 # 2))%Q.
Proof.
  unfold JS.round.
  pose proof (Qfloor_le (x + (1 # 2))) as Hlo.
  pose proof (Qlt_floor (x + (1 # 2))) as Hhi.
  rewrite inject_Z_plus in Hhi.
  change (inject_Z 1) with 1%Q in Hhi.
  generalize dependent (inject_Z (Qfloor (x + (1 # 2)))). intros f Hlo Hhi.
  split; qlra.
Qed.

Lemma round_nearest (x : Q) : Spec.nearest x (JS.round x).
Proof.
  unfold Spec.nearest. destruct (round_bounds x) as [Hlo Hhi].
  apply Qabs_case; intros _; qlra.
Qed.

(** [Math.round] is monotone: it keeps integer bounds. *)
Lemma round_between (x : Q) (lo hi : Z) :
  (inject_Z lo <= x)%Q -> (x <= inject_Z hi)%Q -> lo <= JS.round x <= hi.
Proof.
  intros Hlo Hhi. unfold JS.round. split.
  - rewrite <- (Qfloor_Z lo). apply Qfloor_resp_le.
    generalize dependent (inject_Z lo). intros; qlra.
  - assert (Qfloor (x + (1 # 2)) < hi + 1); [|lia].
    pose proof (Qfloor_le (x + (1 # 2))) as H.
    rewrite Zlt_Qlt. rewrite inject_Z_plus. change (inject_Z 1) with 1%Q.
    generalize dependent (inject_Z (Qfloor (x + (1 # 2)))).
    generalize dependent (inject_Z hi). intros; qlra.
Qed.

Lemma round_integer (z : Z) : JS.round (inject_Z z) = z.
Proof.
  assert (H : z <= JS.round (inject_Z z) <= z); [|lia].
  unfold JS.round. split.
  - rewrite <- (Qfloor_Z z) at 1. apply Qfloor_resp_le.
    generalize (inject_Z z); intros; qlra.
  - assert (Qfloor (inject_Z z + (1 # 2)) < z + 1); [|lia].
    pose proof (Qfloor_le (inject_Z z + (1 # 2))) as H.
    rewrite Zlt_Qlt. rewrite inject_Z_plus. change (inject_Z 1) with 1%Q.
    generalize dependent (inject_Z (Qfloor (inject_Z z + (1 # 2)))).
    generalize (inject_Z z). intros; qlra.
Qed.

(** [Math.floor(n * 0.1)] is the integer quotient by ten. *)
Lemma floor_tenth (n : Z) : JS.floor (inject_Z n * (1 # 10)) = n / 10.
Proof.
  unfold JS.floor. rewrite Zdiv_Qdiv. apply Qfloor_comp.
  change (inject_Z 10) with 10%Q. unfold Qdiv. reflexivity.
Qed.

Lemma len_nil {A : Type} : JS.len (@nil A) = 0.
Proof. reflexivity. Qed.

Lemma len_cons {A : Type} (x : A) (xs : list A) :
  JS.len (x :: xs) = JS.len xs + 1.
Proof. unfold JS.len. simpl List.length. lia. Qed.

Lemma len_nonneg {A : Type} (xs : list A) : 0 <= JS.len xs.
Proof. unfold JS.len. lia. Qed.

Lemma len_zero {A : Type} (xs : list A) : JS.len xs = 0 <-> xs = [].
Proof.
  destruct xs; split; intros H; try reflexivity; discriminate.
Qed.

Lemma len_map {A B : Type} (f : A -> B) (xs : list A) :
  JS.len (map f xs) = JS.len xs.
Proof. unfold JS.len. now rewrite length_map. Qed.

End JSFacts.

(* ================================================================== *)
(** * RGB to HSL                                                       *)
(* ================================================================== *)

Module ConversionFacts.
Import ColorAnalysis JSFacts.

Example rgbToHsl_red : rgbToHsl 255 0 0 = mkHSL 0 100 50.
Proof. reflexivity. Qed.

Example rgbToHsl_gray : rgbToHsl 128 128 128 = mkHSL 0 0 50.
Proof. reflexivity. Qed.

Example rgbToHsl_olive : rgbToHsl 128 128 0 = mkHSL 60 100 25.
Proof. reflexivity. Qed.

Example hueDifference_wraps : hueDifference 350 10 = 20.
Proof. reflexivity. Qed.

Example hueDifference_opposite : hueDifference 0 180 = 180.
Proof. reflexivity. Qed.

(** The circular difference of two hues in [0, 360] lies in [0, 180]. *)
Lemma hueDifference_range (h1 h2 : Z) :
  0 <= h1 <= 360 -> 0 <= h2 <= 360 -> 0 <= hueDifference h1 h2 <= 180.
Proof. unfold hueDifference. lia. Qed.

(** The scoring engine's private copies of the hue helpers agree with
    the originals. *)
Lemma _hueDiff_hueDifference (h1 h2 : Z) :
  Scoring._hueDiff h1 h2 = hueDifference h1 h2.
Proof. reflexivity. Qed.

Lemma _isWarmHue_isWarmHue (h : Z) : Scoring._isWarmHue h = isWarmHue h.
Proof. reflexivity. Qed.

Lemma _isCoolHue_isCoolHue (h : Z) : Scoring._isCoolHue h = isCoolHue h.
Proof. reflexivity. Qed.

Lemma channel_unit (c : Z) : 0 <= c <= 255 -> (0 <= inject_Z c / 255 <= 1)%Q.
Proof.
  intros [H0 H1]. rewrite Zle_Qle in H0, H1.
  change (inject_Z 0) with 0%Q in H0. change (inject_Z 255) with 255%Q in H1.
  generalize dependent (inject_Z c). intros q H0 H1.
  split.
  - apply Qle_shift_div_l; qlra.
  - apply Qle_shift_div_r; qlra.
Qed.

(** Before rounding, the hue is a fraction of a turn in [0, 1) and
    saturation and lightness are fractions in [0, 1]. *)
Lemma hslFractions_range (r g b : Z) :
  0 <= r <= 255 -> 0 <= g <= 255 -> 0 <= b <= 255 ->
  let '(h, s, l) := hslFractions r g b in
  (0 <= h /\ h < 1 /\ 0 <= s <= 1 /\ 0 <= l <= 1)%Q.
Proof.
  intros Hr Hg Hb. unfold hslFractions.
  pose proof (channel_unit r Hr) as HR.
  pose proof (channel_unit g Hg) as HG.
  pose proof (channel_unit b Hb) as HB.
  generalize dependent (inject_Z r / 255)%Q. intros R HR.
  generalize dependent (inject_Z g / 255)%Q. intros G HG.
  generalize dependent (inject_Z b / 255)%Q. intros B HB.
  cbv zeta.
  assert (HM : (R <= Qmax R (Qmax G B) /\ G <= Qmax R (Qmax G B)
                /\ B <= Qmax R (Qmax G B) /\ Qmax R (Qmax G B) <= 1)%Q).
  { repeat split.
    - apply Q.le_max_l.
    - eapply Qle_trans; [apply Q.le_max_l | apply Q.le_max_r].
    - eapply Qle_trans; [apply Q.le_max_r | apply Q.le_max_r].
    - apply Q.max_lub; [qlra | apply Q.max_lub; qlra]. }
  assert (Hm : (Qmin R (Qmin G B) <= R /\ Qmin R (Qmin G B) <= G
                /\ Qmin R (Qmin G B) <= B /\ 0 <= Qmin R (Qmin G B))%Q).
  { repeat split.
    - apply Q.le_min_l.
    - eapply Qle_trans; [apply Q.le_min_r | apply Q.le_min_l].
    - eapply Qle_trans; [apply Q.le_min_r | apply Q.le_min_r].
    - apply Q.min_glb; [qlra | apply Q.min_glb; qlra]. }
  generalize dependent (Qmax R (Qmax G B)). intros M HM.
  generalize dependent (Qmin R (Qmin G B)). intros m Hm.
  destruct HM as (HM1 & HM2 & HM3 & HM4). destruct Hm as (Hm1 & Hm2 & Hm3 & Hm4).
  assert (Hhalf : forall q : Q, (q / 2 == q * (1 # 2))%Q) by (intros; reflexivity).
  assert (Hsix : forall q : Q, (q / 6 == q * (1 # 6))%Q) by (intros; reflexivity).
  destruct (Qeq_bool M m) eqn:EMm.
  - apply Qeq_bool_iff in EMm. rewrite Hhalf. repeat split; qlra.
  - apply Qeq_bool_neq in EMm.
    assert (Hd : (0 < M - m)%Q).
    { destruct (Qlt_le_dec m M) as [H|H]; [qlra|]. exfalso. apply EMm. qlra. }
    assert (Hq : forall x : Q, (- (M - m) <= x)%Q -> (x <= M - m)%Q ->
                 (-1 <= x / (M - m) <= 1)%Q).
    { intros x H1 H2. split.
      - apply Qle_shift_div_l; qlra.
      - apply Qle_shift_div_r; qlra. }
    assert (Hq0 : forall x : Q, (0 <= x)%Q -> (0 <= x / (M - m))%Q).
    { intros x H1. apply Qle_shift_div_l; qlra. }
    assert (Hqn : forall x : Q, (x < 0)%Q -> (x / (M - m) < 0)%Q).
    { intros x H1. apply Qlt_shift_div_r; qlra. }
    split; [|split; [|split]].
    + destruct (Qeq_bool M R) eqn:ER;
        [|destruct (Qeq_bool M G) eqn:EG; [|destruct (Qeq_bool M B) eqn:EB]].
      * rewrite Hsix. destruct (JS.Qltb G B) eqn:EGB.
        -- pose proof (Hq (G - B)%Q ltac:(qlra) ltac:(qlra)). qlra.
        -- apply Qltb_false in EGB. pose proof (Hq0 (G - B)%Q ltac:(qlra)). qlra.
      * rewrite Hsix. pose proof (Hq (B - R)%Q ltac:(qlra) ltac:(qlra)). qlra.
      * rewrite Hsix. pose proof (Hq (R - G)%Q ltac:(qlra) ltac:(qlra)). qlra.
      * qlra.
    + destruct (Qeq_bool M R) eqn:ER;
        [|destruct (Qeq_bool M G) eqn:EG; [|destruct (Qeq_bool M B) eqn:EB]].
      * rewrite Hsix. destruct (JS.Qltb G B) eqn:EGB.
        -- apply Qltb_true in EGB. pose proof (Hqn (G - B)%Q ltac:(qlra)). qlra.
        -- pose proof (Hq (G - B)%Q ltac:(qlra) ltac:(qlra)). qlra.
      * rewrite Hsix. pose proof (Hq (B - R)%Q ltac:(qlra) ltac:(qlra)). qlra.
      * rewrite Hsix. pose proof (Hq (R - G)%Q ltac:(qlra) ltac:(qlra)). qlra.
      * qlra.
    + destruct (JS.Qltb (1 # 2) ((M + m) / 2)) eqn:EL.
      * apply Qltb_true in EL. rewrite Hhalf in EL. split.
        -- apply Qle_shift_div_l; qlra.
        -- apply Qle_shift_div_r; qlra.
      * split.
        -- apply Qle_shift_div_l; qlra.
        -- apply Qle_shift_div_r; qlra.
    + rewrite Hhalf. split; qlra.
Qed.

(** C1, as the specification states it, fails: the hue of the pure
    red-magenta pixel (255, 0, 1) is 359.76 degrees before rounding and
    [Math.round] takes it to 360, outside the half-open range. *)
Lemma rgbToHsl_hue_reaches_360 :
  rgbToHsl 255 0 1 = mkHSL 360 100 50 /\
  ~ (0 <= hsl_h (rgbToHsl 255 0 1) < 360).
Proof.
  split; [reflexivity|].
  change (rgbToHsl 255 0 1) with (mkHSL 360 100 50). simpl. lia.
Qed.

(** C1 (amended): for every RGB triple of bytes, [rgbToHsl] returns a
    hue between 0 and 360 inclusive and a saturation and a lightness
    between 0 and 100; each component is the value computed before the
    final step (hue in degrees, saturation and lightness in percent)
    rounded to a nearest integer. *)
Theorem rgbToHsl_range (r g b : Z) :
  0 <= r <= 255 -> 0 <= g <= 255 -> 0 <= b <= 255 ->
  let '(h, s, l) := hslFractions r g b in
  0 <= hsl_h (rgbToHsl r g b) <= 360 /\
  0 <= hsl_s (rgbToHsl r g b) <= 100 /\
  0 <= hsl_l (rgbToHsl r g b) <= 100 /\
  Spec.nearest (h * 360) (hsl_h (rgbToHsl r g b)) /\
  Spec.nearest (s * 100) (hsl_s (rgbToHsl r g b)) /\
  Spec.nearest (l * 100) (hsl_l (rgbToHsl r g b)).
Proof.
  intros Hr Hg Hb. pose proof (hslFractions_range r g b Hr Hg Hb) as H.
  unfold rgbToHsl. destruct (hslFractions r g b) as [[h s] l]. simpl.
  destruct H as (H1 & H2 & H3 & H4).
  split; [|split; [|split; [|split; [|split]]]];
    try apply round_nearest;
    apply round_between; unfold inject_Z; qlra.
Qed.

Lemma rgbToHsl_range_witness :
  0 <= hsl_h (rgbToHsl 255 0 1) <= 360 /\
  0 <= hsl_s (rgbToHsl 255 0 1) <= 100 /\
  0 <= hsl_l (rgbToHsl 255 0 1) <= 100.
Proof.
  pose proof (rgbToHsl_range 255 0 1 ltac:(lia) ltac:(lia) ltac:(lia)) as H.
  destruct (hslFractions 255 0 1) as [[h s] l].
  destruct H as (Hh & Hs & Hl & _).
  exact (conj Hh (conj Hs Hl)).
Defined.

End ConversionFacts.

(* ================================================================== *)
(** * Grades                                                           *)
(* ================================================================== *)

Module GradeFacts.
Import Scoring.

Lemma getGrade_letter (score : Z) :
  letter (getGrade score) =
  if 95 <=? score then "S"%string else if 90 <=? score then "A+"%string
  else if 85 <=? score then "A"%string else if 80 <=? score then "B+"%string
  else if 75 <=? score then "B"%string else if 70 <=? score then "C+"%string
  else if 65 <=? score then "C"%string else if 58 <=? score then "D+"%string
  else if 50 <=? score then "D"%string else if 40 <=? score then "E"%string
  else "F"%string.
Proof.
  unfold getGrade.
  repeat match goal with
         | |- context [?a <=? ?b] => destruct (a <=? b); try reflexivity
         end.
Qed.

(** C9: [getGrade] has eleven tiers, each entered at its lower bound:
    95 is an S, 94 an A+, 39 an F; a score has a tier's letter exactly
    when it lies between that tier's bound (inclusive) and the next
    tier's bound (exclusive). *)
Theorem getGrade_boundaries :
  letter (getGrade 95) = "S"%string /\
  letter (getGrade 94) = "A+"%string /\
  letter (getGrade 39) = "F"%string /\
  forall score : Z,
    (letter (getGrade score) = "S"%string <-> 95 <= score) /\
    (letter (getGrade score) = "A+"%string <-> 90 <= score < 95) /\
    (letter (getGrade score) = "A"%string <-> 85 <= score < 90) /\
    (letter (getGrade score) = "B+"%string <-> 80 <= score < 85) /\
    (letter (getGrade score) = "B"%string <-> 75 <= score < 80) /\
    (letter (getGrade score) = "C+"%string <-> 70 <= score < 75) /\
    (letter (getGrade score) = "C"%string <-> 65 <= score < 70) /\
    (letter (getGrade score) = "D+"%string <-> 58 <= score < 65) /\
    (letter (getGrade score) = "D"%string <-> 50 <= score < 58) /\
    (letter (getGrade score) = "E"%string <-> 40 <= score < 50) /\
    (letter (getGrade score) = "F"%string <-> score < 40).
Proof.
  split; [reflexivity|]. split; [reflexivity|]. split; [reflexivity|].
  intros score. rewrite getGrade_letter.
  repeat match goal with
         | |- context [?a <=? score] =>
             destruct (Z.leb_spec a score)
         end;
  repeat match goal with |- _ /\ _ => split end;
  (split; intros Hl; [first [discriminate Hl | lia] | first [reflexivity | lia]]).
Qed.

End GradeFacts.

(* ================================================================== *)
(** * The two neutral predicates                                       *)
(* ================================================================== *)

Module NeutralFacts.
Import ColorAnalysis.

Lemma isNeutral_spec (c : Color) :
  isNeutral c = true <->
  hsl_s (hsl c) < 12 \/
  ((hsl_l (hsl c) < 12 \/ 92 < hsl_l (hsl c)) /\ hsl_s (hsl c) < 20).
Proof.
  unfold isNeutral.
  destruct (Z.ltb_spec (hsl_s (hsl c)) 12);
  destruct (Z.ltb_spec (hsl_l (hsl c)) 12);
  destruct (Z.ltb_spec 92 (hsl_l (hsl c)));
  destruct (Z.ltb_spec (hsl_s (hsl c)) 20); simpl;
  split; intros; try reflexivity; try discriminate; lia.
Qed.

(** C10: the scoring engine calls a colour neutral exactly when its
    saturation is below 12.  Such a colour is neutral for the harmony
    classifier too, but not conversely: a colour with saturation in
    [12, 20) that is very dark or very light is neutral for
    [analyzeHarmony] and is one of the chromatic colours of
    [calculateOutfitScore]. *)
Theorem scoring_neutral_is_stricter (c : Color) :
  (Scoring._isNeutral c = true <-> hsl_s (hsl c) < 12) /\
  (Scoring._isNeutral c = true -> isNeutral c = true) /\
  (12 <= hsl_s (hsl c) < 20 ->
   hsl_l (hsl c) < 12 \/ 92 < hsl_l (hsl c) ->
   isNeutral c = true /\ Scoring._isNeutral c = false /\
   forall colors : list Color,
     In c colors ->
     In c (filter isNeutral colors) /\ In c (Scoring.chromaticColors colors)).
Proof.
  assert (HS : Scoring._isNeutral c = true <-> hsl_s (hsl c) < 12).
  { unfold Scoring._isNeutral. apply Z.ltb_lt. }
  split; [exact HS|]. split.
  - intros H. apply isNeutral_spec. left. now apply HS.
  - intros Hs Hl.
    assert (HN : isNeutral c = true) by (apply isNeutral_spec; right; lia).
    assert (HC : Scoring._isNeutral c = false).
    { unfold Scoring._isNeutral. apply Z.ltb_ge. lia. }
    split; [exact HN|]. split; [exact HC|].
    intros colors Hin. unfold Scoring.chromaticColors. split.
    + apply filter_In. now split.
    + apply filter_In. split; [exact Hin|]. now rewrite HC.
Qed.

Lemma scoring_neutral_is_stricter_witness :
  isNeutral (ofHsl 0 15 5) = true /\
  Scoring._isNeutral (ofHsl 0 15 5) = false.
Proof.
  pose proof (proj2 (proj2 (scoring_neutral_is_stricter (ofHsl 0 15 5)))) as H.
  simpl in H.
  destruct (H ltac:(lia) ltac:(lia)) as (H1 & H2 & _).
  exact (conj H1 H2).
Defined.

End NeutralFacts.

(* ================================================================== *)
(** * Sorting and the trimmed mean                                     *)
(* ================================================================== *)

Module SortFacts.

Section Comparator.
Context {A : Type} (cmp : A -> A -> Z).

Hypothesis cmp_total : forall x y, JS.before cmp x y \/ JS.before cmp y x.
Hypothesis cmp_trans :
  forall x y z, JS.before cmp x y -> JS.before cmp y z -> JS.before cmp x z.

Lemma insert_perm (x : A) (xs : list A) :
  Permutation (x :: xs) (JS.insert cmp x xs).
Proof.
  induction xs as [|y rest IH]; simpl.
  - apply Permutation_refl.
  - destruct (cmp x y <=? 0).
    + apply Permutation_refl.
    + eapply Permutation_trans; [apply perm_swap|].
      apply perm_skip. exact IH.
Qed.

Lemma sort_perm (xs : list A) : Permutation xs (JS.sort cmp xs).
Proof.
  induction xs as [|x rest IH]; simpl.
  - apply Permutation_refl.
  - eapply Permutation_trans; [apply perm_skip, IH | apply insert_perm].
Qed.

Lemma sort_length (xs : list A) : JS.len (JS.sort cmp xs) = JS.len xs.
Proof.
  unfold JS.len. f_equal. symmetry. apply Permutation_length, sort_perm.
Qed.

Lemma insert_sorted (x : A) (xs : list A) :
  StronglySorted (JS.before cmp) xs ->
  StronglySorted (JS.before cmp) (JS.insert cmp x xs).
Proof.
  induction 1 as [|y rest Hrest IH Hall]; simpl.
  - repeat constructor.
  - destruct (Z.leb_spec (cmp x y) 0) as [Hle|Hgt].
    + constructor; [constructor; assumption|].
      constructor; [exact Hle|].
      eapply Forall_impl; [|exact Hall].
      intros z Hz. eapply cmp_trans; eassumption.
    + constructor; [exact IH|].
      assert (Hyx : JS.before cmp y x).
      { destruct (cmp_total x y) as [H|H]; [unfold JS.before in H; lia | exact H]. }
      eapply Permutation_Forall; [apply insert_perm|].
      constructor; assumption.
Qed.

Lemma sort_sorted (xs : list A) : StronglySorted (JS.before cmp) (JS.sort cmp xs).
Proof.
  induction xs as [|x rest IH]; simpl.
  - constructor.
  - apply insert_sorted, IH.
Qed.

End Comparator.

(** The comparator [(a, b) => a - b] sorts numbers in ascending order. *)
Lemma sort_ascending (xs : list Z) :
  StronglySorted Z.le (JS.sort (fun a b => a - b) xs).
Proof.
  assert (H : StronglySorted (JS.before (fun a b => a - b))
                             (JS.sort (fun a b => a - b) xs)).
  { apply sort_sorted.
    - intros x y. unfold JS.before. lia.
    - intros x y z. unfold JS.before. lia. }
  induction H as [|x rest Hrest IH Hall]; constructor.
  - exact IH.
  - eapply Forall_impl; [|exact Hall].
    intros y Hy. unfold JS.before in Hy. lia.
Qed.

Lemma slice_length {A : Type} (from to : Z) (xs : list A) :
  0 <= from -> from <= to -> to <= JS.len xs ->
  JS.len (JS.slice from to xs) = to - from.
Proof.
  intros H0 H1 H2. unfold JS.slice, JS.len in *.
  rewrite length_firstn, length_skipn. lia.
Qed.

End SortFacts.

Module TrimmedMeanFacts.
Import ColorAnalysis GarmentDetection JSFacts SortFacts.

Lemma remainder_length (values : list Z) :
  JS.len (Spec.remainder values) = JS.len values - 2 * (JS.len values / 10).
Proof.
  unfold Spec.remainder. cbv zeta. pose proof (len_nonneg values) as Hn.
  rewrite slice_length.
  - lia.
  - apply Z.div_pos; lia.
  - assert (JS.len values / 10 * 10 <= JS.len values)
      by (rewrite Z.mul_comm; apply Z.mul_div_le; lia).
    lia.
  - rewrite sort_length. assert (0 <= JS.len values / 10) by (apply Z.div_pos; lia). lia.
Qed.

(** The remainder of a non-empty array is never empty, so the branch
    that returns the median is never taken. *)
Lemma remainder_nonempty (values : list Z) :
  values <> [] -> 0 < JS.len (Spec.remainder values).
Proof.
  intros Hne. rewrite remainder_length.
  assert (0 < JS.len values).
  { pose proof (len_nonneg values). destruct (Z.eq_dec (JS.len values) 0) as [E|E]; [|lia].
    apply len_zero in E. contradiction. }
  assert (JS.len values / 10 * 10 <= JS.len values)
    by (rewrite Z.mul_comm; apply Z.mul_div_le; lia).
  lia.
Qed.

Lemma _trimmedMean_unfold (values : list Z) :
  values <> [] ->
  _trimmedMean values = JS.round (JS.mean (Spec.remainder values)).
Proof.
  intros Hne. unfold _trimmedMean.
  destruct (Z.eqb_spec (JS.len values) 0) as [E|_].
  { apply len_zero in E. contradiction. }
  cbv zeta. rewrite floor_tenth, sort_length.
  change (JS.slice (JS.len values / 10) (JS.len values - JS.len values / 10)
            (JS.sort (fun a b => a - b) values)) with (Spec.remainder values).
  pose proof (remainder_nonempty values Hne) as Hpos.
  destruct (Z.eqb_spec (JS.len (Spec.remainder values)) 0) as [E|_]; [lia|].
  reflexivity.
Qed.

Lemma trimmedMean_unfold (values : list Z) :
  values <> [] ->
  trimmedMean values = Some (JS.round (JS.mean (Spec.remainder values))).
Proof.
  intros Hne. unfold trimmedMean.
  cbv zeta. rewrite floor_tenth, sort_length.
  change (JS.slice (JS.len values / 10) (JS.len values - JS.len values / 10)
            (JS.sort (fun a b => a - b) values)) with (Spec.remainder values).
  pose proof (remainder_nonempty values Hne) as Hpos.
  destruct (Z.eqb_spec (JS.len (Spec.remainder values)) 0) as [E|_]; [lia|].
  reflexivity.
Qed.

Example _trimmedMean_fifties : _trimmedMean (repeat 50 100) = 50.
Proof. vm_compute. reflexivity. Qed.

Example _trimmedMean_outliers :
  _trimmedMean [0; 10; 10; 10; 10; 10; 10; 10; 10; 255] = 10.
Proof. vm_compute. reflexivity. Qed.

(** C3, as the specification states it, fails on [1, 2]: nothing is
    dropped, the mean of the remainder is 3/2, and the code returns 2.
    It fails on the empty array too: that array has no median, and the
    code returns 128. *)
Lemma trimmedMean_is_not_the_mean :
  Spec.trimmedMean [1; 2] = Some (3 # 2)%Q /\
  _trimmedMean [1; 2] = 2 /\
  ~ Spec.agrees (_trimmedMean [1; 2]) (Spec.trimmedMean [1; 2]) /\
  Spec.trimmedMean [] = None /\
  _trimmedMean [] = 128 /\
  ~ Spec.agrees (_trimmedMean []) (Spec.trimmedMean []).
Proof.
  split; [reflexivity|]. split; [reflexivity|]. split.
  - change (Spec.trimmedMean [1; 2]) with (Some (3 # 2)%Q).
    change (_trimmedMean [1; 2]) with 2.
    unfold Spec.agrees. intros H. vm_compute in H. discriminate H.
  - split; [reflexivity|]. split; [reflexivity|].
    intros H. exact H.
Qed.

(** C3 (amended): [_trimmedMean] sorts the values in ascending order
    and drops [floor (length / 10)] of them at each end.  For a
    non-empty array the remainder is not empty and the result is its
    mean rounded to a nearest integer by [Math.round] (so the median
    branch never runs); for the empty array the result is the fixed
    value 128.  The helper inside [extractAverageColor] computes the
    same rounded mean.  A hundred copies of 50 give 50. *)
Theorem trimmedMean_rounded (values : list Z) :
  StronglySorted Z.le (JS.sort (fun a b => a - b) values) /\
  Permutation values (JS.sort (fun a b => a - b) values) /\
  JS.len (Spec.remainder values) = JS.len values - 2 * (JS.len values / 10) /\
  (values = [] -> _trimmedMean values = 128) /\
  (values <> [] ->
   Spec.remainder values <> [] /\
   _trimmedMean values = JS.round (JS.mean (Spec.remainder values)) /\
   trimmedMean values = Some (_trimmedMean values) /\
   Spec.nearest (JS.mean (Spec.remainder values)) (_trimmedMean values)) /\
  _trimmedMean (repeat 50 100) = 50.
Proof.
  split; [apply sort_ascending|].
  split; [apply sort_perm|].
  split; [apply remainder_length|].
  split; [intros ->; reflexivity|].
  split; [|apply _trimmedMean_fifties].
  intros Hne. split.
  - intros E. pose proof (remainder_nonempty values Hne) as H.
    rewrite E in H. discriminate H.
  - rewrite (trimmedMean_unfold values Hne), (_trimmedMean_unfold values Hne).
    split; [reflexivity|]. split; [reflexivity|]. apply round_nearest.
Qed.

Lemma trimmedMean_rounded_witness :
  _trimmedMean [1; 2] = JS.round (JS.mean (Spec.remainder [1; 2])) /\
  _trimmedMean [] = 128.
Proof.
  pose proof (trimmedMean_rounded [1; 2]) as (_ & _ & _ & _ & H & _).
  pose proof (trimmedMean_rounded []) as (_ & _ & _ & H0 & _).
  split.
  - apply H. discriminate.
  - apply H0. reflexivity.
Defined.

End TrimmedMeanFacts.

(* ================================================================== *)
(** * Zones without pixels                                             *)
(* ================================================================== *)

Module ZoneFacts.
Import DOM ColorAnalysis GarmentDetection JSFacts.

Lemma Transparent_app (xs ys : list Z) :
  Transparent xs -> Transparent ys -> Transparent (xs ++ ys).
Proof.
  induction 1; intros Hys; simpl.
  - exact Hys.
  - constructor; auto.
Qed.

Lemma Transparent_flat_map {A : Type} (f : A -> list Z) (xs : list A) :
  (forall x, In x xs -> Transparent (f x)) -> Transparent (flat_map f xs).
Proof.
  induction xs as [|x rest IH]; intros H; simpl.
  - constructor.
  - apply Transparent_app.
    + apply H. now left.
    + apply IH. intros y Hy. apply H. now right.
Qed.

Lemma in_upto (n i : Z) : In i (JS.upto n) -> 0 <= i < n.
Proof.
  unfold JS.upto. intros H. apply in_map_iff in H.
  destruct H as (k & <- & Hk). apply in_seq in Hk. lia.
Qed.

Lemma getImageData_transparent (canvas : Canvas) (x y w h : Z) :
  (forall i j, x <= i < x + w -> y <= j < y + h ->
               alpha (canvas_pixel canvas i j) < 128) ->
  Transparent (getImageData canvas x y w h).
Proof.
  intros Halpha. unfold getImageData.
  apply Transparent_flat_map. intros row Hrow. apply in_upto in Hrow.
  apply Transparent_flat_map. intros col Hcol. apply in_upto in Hcol.
  specialize (Halpha (x + col) (y + row) ltac:(lia) ltac:(lia)).
  destruct (canvas_pixel canvas (x + col) (y + row)) as [[[r g] b] a].
  simpl in Halpha. repeat constructor. exact Halpha.
Qed.

(** In transparent data every fourth byte, counted from the fourth,
    is below 128 (and so is a read past the end, which the model
    answers with 0). *)
Lemma Transparent_alpha (data : list Z) :
  Transparent data ->
  forall k : nat, nth (4 * k + 3) data 0 < 128.
Proof.
  induction 1 as [|r g b a rest Ha Hrest IH]; intros k.
  - destruct (4 * k + 3)%nat; simpl; lia.
  - destruct k as [|k].
    + simpl. exact Ha.
    + replace (4 * S k + 3)%nat with (S (S (S (S (4 * k + 3))))) by lia.
      simpl nth. apply IH.
Qed.

Lemma range_multiple (bound step i : Z) :
  In i (JS.range 0 bound step) -> exists k : nat, i = step * Z.of_nat k.
Proof.
  unfold JS.range, JS.upto. rewrite map_map. intros H.
  apply in_map_iff in H. destruct H as (k & <- & _).
  exists k. lia.
Qed.

Lemma flat_map_nil {A B : Type} (f : A -> list B) (xs : list A) :
  (forall x, In x xs -> f x = []) -> flat_map f xs = [].
Proof.
  induction xs as [|x rest IH]; intros H; simpl; [reflexivity|].
  rewrite (H x (or_introl eq_refl)). apply IH.
  intros y Hy. apply H. now right.
Qed.

(** No pixel is sampled from a rectangle whose pixels are all
    transparent. *)
Lemma _getPixelData_transparent (canvas : Canvas) (rect : Rect) :
  Spec.transparentIn canvas rect -> _getPixelData canvas rect = [].
Proof.
  unfold Spec.transparentIn, _getPixelData. cbv zeta. intros Halpha.
  destruct (_ || _); [reflexivity|].
  apply getImageData_transparent in Halpha.
  revert Halpha. generalize (getImageData canvas
    (Z.max 0 (JS.round (rect_x rect))) (Z.max 0 (JS.round (rect_y rect)))
    (Z.min (JS.round (rect_width rect))
           (canvas_width canvas - Z.max 0 (JS.round (rect_x rect))))
    (Z.min (JS.round (rect_height rect))
           (canvas_height canvas - Z.max 0 (JS.round (rect_y rect))))).
  intros data HT. apply flat_map_nil. intros i Hi.
  apply range_multiple in Hi. destruct Hi as (k & ->).
  unfold JS.at_ at 1.
  destruct (Z.ltb_spec (16 * Z.of_nat k + 3) 0) as [Hneg|_]; [lia|].
  replace (Z.to_nat (16 * Z.of_nat k + 3)) with (4 * (4 * k) + 3)%nat by lia.
  pose proof (Transparent_alpha data HT (4 * k)%nat) as Hlt.
  apply Z.ltb_lt in Hlt. rewrite Hlt. reflexivity.
Qed.

(** A canvas without any opaque pixel is transparent in every
    rectangle. *)
Lemma transparent_canvas (canvas : Canvas) (rect : Rect) :
  (forall i j, alpha (canvas_pixel canvas i j) < 128) ->
  Spec.transparentIn canvas rect.
Proof. intros H. unfold Spec.transparentIn. cbv zeta. intros i j _ _. apply H. Qed.


Lemma extractZoneColor_no_pixels (canvas : Canvas) (zone : Zone) :
  _getPixelData canvas (sampledRect zone) = [] ->
  extractZoneColor canvas zone =
  {| zc_rgb := neutralGray; zc_hsl := mkHSL 0 0 50;
     dominantColors := []; isPattern := false;
     pixelCount := 0; filteredCount := 0 |}.
Proof.
  intros H. unfold extractZoneColor. cbv zeta. rewrite H. reflexivity.
Qed.

(** The three zones of an outfit photograph. *)
Example three_zones_transparent (canvas : Canvas) (top bottom shoes : Zone) :
  (forall i j, alpha (canvas_pixel canvas i j) < 128) ->
  map (fun kz => (fst kz, zc_rgb (snd kz)))
      (extractZoneColors canvas
         [("top", top); ("bottom", bottom); ("shoes", shoes)]%string) =
  [("top", neutralGray); ("bottom", neutralGray); ("shoes", neutralGray)]%string.
Proof.
  intros H. unfold extractZoneColors. cbn [map fst snd].
  rewrite !extractZoneColor_no_pixels
    by (apply _getPixelData_transparent, transparent_canvas, H).
  reflexivity.
Qed.



End ZoneFacts.

(* ================================================================== *)
(** * Harmony classification                                           *)
(* ================================================================== *)

Module HarmonyFacts.
Import ColorAnalysis JSFacts.

Example harmony_single (c : Color) :
  analyzeHarmony [c] = mkHarmony "Single Color" 50.
Proof. reflexivity. Qed.

Example harmony_black_white :
  analyzeHarmony [ofHsl 0 0 5; ofHsl 0 0 95] = mkHarmony "Achromatic Contrast" 85.
Proof. reflexivity. Qed.

Example harmony_navy_three_times :
  analyzeHarmony [ofHsl 220 80 20; ofHsl 220 80 20; ofHsl 220 80 20] =
  mkHarmony "Monochromatic - Flat" 68.
Proof. reflexivity. Qed.

Example harmony_opposites_anchored :
  analyzeHarmony [ofHsl 0 50 50; ofHsl 175 50 50; ofHsl 0 0 50] =
  mkHarmony "Complementary" 90.
Proof. reflexivity. Qed.

Lemma chromatics_le (colors : list Color) :
  JS.len (chromatics colors) <= JS.len colors.
Proof.
  unfold JS.len, chromatics.
  pose proof (filter_length_le (fun c => negb (isNeutral c)) colors). lia.
Qed.

(** With two chromatic colours or more, the neutral rules do not apply
    and the hue-wheel rules decide. *)
Lemma analyzeHarmony_hueRules (colors : list Color) :
  2 <= JS.len (chromatics colors) ->
  analyzeHarmony colors = hueRules (neutrals colors) (chromatics colors).
Proof.
  intros H. pose proof (chromatics_le colors) as Hle.
  unfold analyzeHarmony. fold (neutrals colors) (chromatics colors).
  destruct (Z.ltb_spec (JS.len colors) 2) as [?|_]; [lia|].
  cbv zeta.
  destruct (Z.eqb_spec (JS.len (chromatics colors)) 0) as [?|_]; [lia|].
  destruct (Z.eqb_spec (JS.len (chromatics colors)) 1) as [?|_]; [lia|].
  reflexivity.
Qed.

Lemma pairs_length {A : Type} (xs : list A) :
  (3 <= List.length xs -> 3 <= List.length (JS.pairs xs))%nat.
Proof.
  destruct xs as [|x [|y [|z rest]]]; simpl; try lia.
  intros _. rewrite !length_app, !length_map. simpl. lia.
Qed.

Lemma differences_length (colors : list Color) :
  3 <= JS.len (chromatics colors) -> 3 <= JS.len (differences colors).
Proof.
  unfold JS.len, differences, hueDifferences. intros H.
  rewrite length_map.
  pose proof (pairs_length (map (fun c => hsl_h (hsl c)) (chromatics colors))) as P.
  rewrite length_map in P. lia.
Qed.

(** The counters of [analyzeTemperature] never go below zero. *)
Lemma analyzeTemperature_counts (colors : list Color) :
  0 <= warmCount (analyzeTemperature colors) /\
  0 <= coolCount (analyzeTemperature colors).
Proof.
  unfold analyzeTemperature.
  assert (H : forall init : Z * Z * Z,
             0 <= fst (fst init) -> 0 <= snd (fst init) ->
             let r := fold_left
                        (fun '(w, c, n) col =>
                           let temp := getTemperature col in
                           if String.eqb temp "warm" then (w + 1, c, n)
                           else if String.eqb temp "cool" then (w, c + 1, n)
                           else (w, c, n + 1))
                        colors init in
             0 <= fst (fst r) /\ 0 <= snd (fst r)).
  { induction colors as [|col rest IH]; intros [[w c] n] Hw Hc; simpl in *.
    - now split.
    - apply IH; destruct (String.eqb _ "warm"); simpl; try lia;
        destruct (String.eqb _ "cool"); simpl; lia. }
  specialize (H (0, 0, 0) ltac:(simpl; lia) ltac:(simpl; lia)).
  cbv zeta in H.
  destruct (fold_left _ colors (0, 0, 0)) as [[w c] n]. simpl in *. exact H.
Qed.

(** The coherence is a ratio between 0 and 1. *)
Lemma analyzeTemperature_coherence (colors : list Color) :
  (0 <= coherence (analyzeTemperature colors) <= 1)%Q.
Proof.
  pose proof (analyzeTemperature_counts colors) as [Hw Hc].
  unfold analyzeTemperature in *.
  destruct (fold_left _ colors (0, 0, 0)) as [[w c] n]. simpl in *.
  destruct (Z.ltb_spec 0 (w + c)) as [Hpos|_]; [|split; discriminate].
  assert (Ht : (0 < inject_Z (w + c))%Q).
  { change 0%Q with (inject_Z 0). rewrite <- Zlt_Qlt. exact Hpos. }
  split.
  - apply Qle_shift_div_l; [exact Ht|].
    rewrite Qmult_0_l. change 0%Q with (inject_Z 0). rewrite <- Zle_Qle. lia.
  - apply Qle_shift_div_r; [exact Ht|].
    rewrite Qmult_1_l. rewrite <- Zle_Qle. lia.
Qed.

(** Every harmony score lies between 32 and 96, so within the 0..100
    of the data model. *)
Lemma analyzeHarmony_score_range (colors : list Color) :
  32 <= harmony_score (analyzeHarmony colors) <= 96.
Proof.
  unfold analyzeHarmony.
  destruct (JS.len colors <? 2); [simpl; lia|]. cbv zeta.
  destruct (JS.len (filter _ colors) =? 0).
  { destruct (40 <? _); simpl; lia. }
  destruct (_ && _).
  { destruct (filter _ colors) as [|pop rest]; [simpl; lia|].
    destruct (50 <? _); simpl; lia. }
  unfold hueRules. cbv zeta.
  repeat match goal with
         | |- context [if ?c then _ else _] =>
             lazymatch c with
             | context [if _ then _ else _] => fail
             | _ => destruct c
             end
         end; cbn [harmony_score]; try lia.
  all: pose proof (analyzeTemperature_coherence
                     (filter (fun c => negb (isNeutral c)) colors)) as [H0 H1].
  all: match goal with
       | |- _ <= Z.min 70 (JS.round ?x) <= _ =>
           assert (50 <= JS.round x <= 70)
             by (apply round_between; unfold inject_Z; qlra); lia
       end.
Qed.

(** C5, as the property states it, fails: two saturated colours 160
    degrees apart, without a neutral, meet its conditions, but the
    split-complementary rule comes first and takes them. *)
Lemma complementary_shadowed_by_split :
  let colors := [ofHsl 0 80 50; ofHsl 160 80 50] in
  150 <= JS.maximum (differences colors) <= 180 /\
  (60 < avgSaturation colors)%Q /\
  neutrals colors = [] /\
  analyzeHarmony colors = mkHarmony "Split-Complementary" 84 /\
  analyzeHarmony colors <> mkHarmony "Complementary - Bold" 75.
Proof.
  cbv zeta. split; [vm_compute; split; discriminate|].
  split; [reflexivity|]. split; [reflexivity|]. split; [reflexivity|].
  discriminate.
Qed.

(** C5 (amended): when the largest pairwise hue difference of the
    chromatic colours lies in [150, 180] and no pairwise difference
    lies in [130, 170] (the split-complementary rule, which is tried
    first, does not apply), the result is "Complementary - Bold" with
    score 75 if the average chromatic saturation exceeds 60 and no
    colour is neutral, and otherwise "Complementary" with score 90 if a
    neutral is present and 84 if not. *)
Theorem complementary_family (colors : list Color) :
  2 <= JS.len (chromatics colors) ->
  150 <= JS.maximum (differences colors) <= 180 ->
  (forall d, In d (differences colors) -> ~ (130 <= d <= 170)) ->
  ((60 < avgSaturation colors)%Q -> neutrals colors = [] ->
   analyzeHarmony colors = mkHarmony "Complementary - Bold" 75) /\
  (neutrals colors <> [] ->
   analyzeHarmony colors = mkHarmony "Complementary" 90) /\
  ((avgSaturation colors <= 60)%Q -> neutrals colors = [] ->
   analyzeHarmony colors = mkHarmony "Complementary" 84).
Proof.
  intros Hchrom Hmax Hsplit.
  rewrite (analyzeHarmony_hueRules colors Hchrom).
  unfold hueRules. cbv zeta.
  fold (differences colors) (avgSaturation colors).
  destruct (Z.ltb_spec (JS.maximum (differences colors)) 25) as [?|_]; [lia|].
  destruct (Z.leb_spec (JS.maximum (differences colors)) 60) as [?|_]; [lia|].
  rewrite andb_false_r.
  assert (Hex : existsb inSplitRange (differences colors) = false).
  { apply not_true_is_false. intros Hex.
    apply existsb_exists in Hex. destruct Hex as (d & Hd & Hr).
    apply (Hsplit d Hd). unfold inSplitRange in Hr.
    apply andb_true_iff in Hr. destruct Hr as [H1 H2].
    apply Z.leb_le in H1, H2. lia. }
  rewrite Hex, andb_false_r.
  destruct (Z.leb_spec 150 (JS.maximum (differences colors))) as [_|?]; [|lia].
  destruct (Z.leb_spec (JS.maximum (differences colors)) 180) as [_|?]; [|lia].
  cbn [andb].
  split; [|split].
  - intros Hsat Hnone. fold (neutrals colors). rewrite Hnone.
    apply Qltb_true in Hsat. rewrite Hsat. reflexivity.
  - intros Hsome.
    assert (Hpos : 0 < JS.len (neutrals colors)).
    { pose proof (len_nonneg (neutrals colors)).
      destruct (Z.eq_dec (JS.len (neutrals colors)) 0) as [E|E]; [|lia].
      apply len_zero in E. contradiction. }
    apply Z.ltb_lt in Hpos. rewrite Hpos.
    rewrite andb_false_r. reflexivity.
  - intros Hsat Hnone. rewrite Hnone.
    apply Qltb_false in Hsat. rewrite Hsat. reflexivity.
Qed.

(** Red and cyan (hues 0 and 180), saturated, with no neutral. *)
Lemma complementary_family_witness :
  analyzeHarmony [ofHsl 0 80 50; ofHsl 180 80 50] =
  mkHarmony "Complementary - Bold" 75.
Proof.
  refine (proj1 (complementary_family [ofHsl 0 80 50; ofHsl 180 80 50] _ _ _) _ _).
  - vm_compute. discriminate.
  - vm_compute. split; discriminate.
  - intros d [<-|[]]. vm_compute. intros [_ H]. apply H. reflexivity.
  - reflexivity.
  - reflexivity.
Defined.

(** C6: three colours at hues 0, 120 and 240 with saturation 60 and
    lightness 50 are "Triadic" with score 82.  In general, with three
    chromatic colours or more, when no earlier rule applies (the largest
    hue difference is at least 25 and not in [25, 60], no difference
    lies in [130, 170] and the largest is not in [150, 180]), all
    pairwise differences in [90, 150] or a spread below 40, together
    with an average difference of at least 90, give "Triadic", 82. *)
Theorem triadic (colors : list Color) :
  (forall rgb1 rgb2 rgb3 : RGB,
     analyzeHarmony [ mkColor rgb1 (mkHSL 0 60 50);
                      mkColor rgb2 (mkHSL 120 60 50);
                      mkColor rgb3 (mkHSL 240 60 50) ] =
     mkHarmony "Triadic" 82) /\
  (3 <= JS.len (chromatics colors) ->
   25 <= JS.maximum (differences colors) ->
   ~ (25 <= JS.maximum (differences colors) <= 60) ->
   (forall d, In d (differences colors) -> ~ (130 <= d <= 170)) ->
   ~ (150 <= JS.maximum (differences colors) <= 180) ->
   (forall d, In d (differences colors) -> 90 <= d <= 150) \/
   JS.maximum (differences colors) - JS.minimum (differences colors) < 40 ->
   (90 <= JS.mean (differences colors))%Q ->
   analyzeHarmony colors = mkHarmony "Triadic" 82).
Proof.
  split; [reflexivity|].
  intros Hchrom Hmono Hana Hsplit Hcomp Htri Havg.
  rewrite (analyzeHarmony_hueRules colors ltac:(lia)).
  pose proof (differences_length colors Hchrom) as Hlen.
  unfold hueRules. cbv zeta.
  fold (differences colors) (avgSaturation colors).
  destruct (Z.ltb_spec (JS.maximum (differences colors)) 25) as [?|_]; [lia|].
  destruct (Z.leb_spec 25 (JS.maximum (differences colors))) as [_|?]; [|lia].
  destruct (Z.leb_spec (JS.maximum (differences colors)) 60) as [?|_]; [lia|].
  cbn [andb].
  assert (Hex : existsb inSplitRange (differences colors) = false).
  { apply not_true_is_false. intros Hex.
    apply existsb_exists in Hex. destruct Hex as (d & Hd & Hr).
    apply (Hsplit d Hd). unfold inSplitRange in Hr.
    apply andb_true_iff in Hr. destruct Hr as [H1 H2].
    apply Z.leb_le in H1, H2. lia. }
  rewrite Hex, andb_false_r.
  assert (Hc : (150 <=? JS.maximum (differences colors))
               && (JS.maximum (differences colors) <=? 180) = false).
  { apply not_true_is_false. intros Hc. apply Hcomp.
    apply andb_true_iff in Hc. destruct Hc as [H1 H2].
    apply Z.leb_le in H1, H2. lia. }
  rewrite Hc.
  destruct (Z.leb_spec 3 (JS.len (chromatics colors))) as [_|?]; [|lia].
  destruct (Z.leb_spec 3 (JS.len (differences colors))) as [_|?]; [|lia].
  cbn [andb].
  assert (Ht : forallb inTriadRange (differences colors)
               || (JS.maximum (differences colors)
                   - JS.minimum (differences colors) <? 40) = true).
  { apply orb_true_iff. destruct Htri as [Hall|Hspread].
    - left. apply forallb_forall. intros d Hd. specialize (Hall d Hd).
      unfold inTriadRange. apply andb_true_iff. split; apply Z.leb_le; lia.
    - right. apply Z.ltb_lt. exact Hspread. }
  rewrite Ht. apply Qle_bool_iff in Havg. rewrite Havg. reflexivity.
Qed.

Lemma triadic_witness :
  analyzeHarmony [ofHsl 0 60 50; ofHsl 120 60 50; ofHsl 240 60 50] =
  mkHarmony "Triadic" 82.
Proof.
  refine (proj2 (triadic [ofHsl 0 60 50; ofHsl 120 60 50; ofHsl 240 60 50])
                _ _ _ _ _ _ _).
  - vm_compute. discriminate.
  - vm_compute. discriminate.
  - vm_compute. intros [_ H]. apply H. reflexivity.
  - intros d [<-|[<-|[<-|[]]]]; vm_compute; intros [H _]; apply H; reflexivity.
  - vm_compute. intros [H _]. apply H. reflexivity.
  - left. intros d [<-|[<-|[<-|[]]]]; vm_compute; split; discriminate.
  - vm_compute. discriminate.
Defined.

End HarmonyFacts.

(* ================================================================== *)
(** * Pattern detection                                                *)
(* ================================================================== *)

Module PatternFacts.
Import ColorAnalysis GarmentDetection JSFacts SortFacts.

Lemma _isPattern_cons (c1 c2 : DominantColor) (rest : list DominantColor) :
  _isPattern (c1 :: c2 :: rest) = true <->
  (1 # 4 <= frequency c1)%Q /\ (3 # 20 <= frequency c2)%Q /\
  Spec.distinct c1 c2.
Proof.
  unfold _isPattern, Spec.distinct.
  destruct (JS.Qltb (frequency c1) (1 # 4)) eqn:E1.
  { apply Qltb_true in E1. simpl. split; [discriminate|].
    intros (H & _). qlra. }
  destruct (JS.Qltb (frequency c2) (3 # 20)) eqn:E2.
  { apply Qltb_true in E2. simpl. split; [discriminate|].
    intros (_ & H & _). qlra. }
  apply Qltb_false in E1, E2. cbn [orb]. cbv zeta.
  rewrite !orb_true_iff, !Z.ltb_lt. tauto.
Qed.

Lemma firstn_In {A : Type} (n : nat) (xs : list A) (y : A) :
  In y (firstn n xs) -> In y xs.
Proof.
  revert xs. induction n as [|n IH]; intros [|x rest]; simpl; try tauto.
  intros [->|H]; [now left | right; now apply IH].
Qed.

Lemma StronglySorted_firstn {A : Type} (R : A -> A -> Prop) (n : nat)
  (xs : list A) :
  StronglySorted R xs -> StronglySorted R (firstn n xs).
Proof.
  intros H. revert n.
  induction H as [|x rest Hrest IH Hall]; intros [|n]; simpl;
    try constructor.
  - apply IH.
  - apply Forall_forall. intros y Hy.
    rewrite Forall_forall in Hall. apply Hall.
    eapply firstn_In. exact Hy.
Qed.

Lemma StronglySorted_map {A B : Type} (R : A -> A -> Prop)
  (S : B -> B -> Prop) (f : A -> B) (xs : list A) :
  (forall x y, R x y -> S (f x) (f y)) ->
  StronglySorted R xs -> StronglySorted S (map f xs).
Proof.
  intros Hf. induction 1 as [|x rest Hrest IH Hall]; simpl; constructor.
  - exact IH.
  - apply Forall_map. eapply Forall_impl; [|exact Hall].
    intros y. apply Hf.
Qed.

(** The list that [extractZoneColors] passes to [_isPattern] is in
    order of decreasing frequency: its first two entries are the two
    most frequent dominant colours. *)
Lemma dominantColors_byFrequency (pixels : list RGB) (n : Z) :
  Spec.byFrequency (_getDominantColorsFromPixels pixels n).
Proof.
  unfold Spec.byFrequency, _getDominantColorsFromPixels.
  destruct (Z.eqb_spec (JS.len pixels) 0) as [E|Hne]; [constructor|].
  cbv zeta.
  eapply StronglySorted_map;
    [|unfold JS.slice; apply StronglySorted_firstn;
      rewrite Nat.sub_0_r || idtac; apply sort_sorted].
  - intros x y Hxy. cbn [frequency]. unfold JS.before in Hxy.
    assert (Hlen : (0 < inject_Z (JS.len pixels))%Q).
    { pose proof (len_nonneg pixels).
      change 0%Q with (inject_Z 0). rewrite <- Zlt_Qlt. lia. }
    assert (Hc : (inject_Z (count y) <= inject_Z (count x))%Q).
    { rewrite <- Zle_Qle. lia. }
    apply Qle_shift_div_l; [exact Hlen|].
    unfold Qdiv. rewrite <- Qmult_assoc, (Qmult_comm (/ _)), Qmult_inv_r, Qmult_1_r.
    + exact Hc.
    + intros E. rewrite E in Hlen. apply (Qlt_irrefl 0), Hlen.
  - intros x y. unfold JS.before. lia.
  - intros x y z. unfold JS.before. lia.
Qed.

Example pattern_two_tone :
  _isPattern
    [ mkDominant (mkRGB 200 30 30) (mkHSL 0 74 45) (3 # 10);
      mkDominant (mkRGB 200 140 30) (mkHSL 40 74 45) (2 # 10) ] = true.
Proof. reflexivity. Qed.

Example pattern_single_colour (c : DominantColor) : _isPattern [c] = false.
Proof. reflexivity. Qed.

(** In a list in order of decreasing frequency the first two entries
    are the two most frequent ones. *)
Lemma byFrequency_first_two (c1 c2 : DominantColor) (rest : list DominantColor) :
  Spec.byFrequency (c1 :: c2 :: rest) ->
  Spec.twoMostFrequent (c1 :: c2 :: rest) c1 c2.
Proof.
  unfold Spec.byFrequency. intros Hs.
  inversion Hs as [|? ? Htail Hall1]; subst.
  inversion Htail as [|? ? _ Hall2]; subst.
  inversion Hall1 as [|? ? H21 _]; subst.
  exists 0%nat, 1%nat. split; [discriminate|].
  split; [reflexivity|]. split; [reflexivity|]. split; [exact H21|].
  intros [|[|k]] d H0 H1 Hd; try contradiction.
  cbn [nth_error] in Hd. apply nth_error_In in Hd.
  rewrite Forall_forall in Hall2. now apply Hall2.
Qed.

(** C7, as the property states it, fails: [_isPattern] tests the first
    two entries of the list, whatever their rank.  Here the two most
    frequent colours, with frequencies 0.5 and 0.4 and hues 120 degrees
    apart, stand behind a rare one, and the answer is [false]. *)
Lemma isPattern_reads_the_first_two :
  _isPattern
    [ mkDominant (mkRGB 26 26 26) (mkHSL 0 0 10) (1 # 10);
      mkDominant (mkRGB 204 51 51) (mkHSL 0 60 50) (1 # 2);
      mkDominant (mkRGB 51 204 51) (mkHSL 120 60 50) (2 # 5) ] = false /\
  exists c1 c2 : DominantColor,
    Spec.twoMostFrequent
      [ mkDominant (mkRGB 26 26 26) (mkHSL 0 0 10) (1 # 10);
        mkDominant (mkRGB 204 51 51) (mkHSL 0 60 50) (1 # 2);
        mkDominant (mkRGB 51 204 51) (mkHSL 120 60 50) (2 # 5) ] c1 c2 /\
    (1 # 4 <= frequency c1)%Q /\ (3 # 20 <= frequency c2)%Q /\
    Spec.distinct c1 c2.
Proof.
  split; [reflexivity|].
  exists (mkDominant (mkRGB 204 51 51) (mkHSL 0 60 50) (1 # 2)),
         (mkDominant (mkRGB 51 204 51) (mkHSL 120 60 50) (2 # 5)).
  split; [|split; [|split]].
  - exists 1%nat, 2%nat. split; [discriminate|].
    split; [reflexivity|]. split; [reflexivity|]. split; [discriminate|].
    intros [|[|[|k]]] d H1 H2 Hd; try contradiction.
    + injection Hd as <-. discriminate.
    + destruct k; discriminate Hd.
  - discriminate.
  - discriminate.
  - unfold Spec.distinct. cbn. left. lia.
Qed.

(** C7 (amended): for every list of dominant colours in order of
    decreasing frequency, [_isPattern] is true exactly when the two
    most frequent colours, which are then its first two entries, have
    frequencies of at least 0.25 and 0.15 and differ by more than 25
    degrees of hue, more than 25 of lightness or more than 30 of
    saturation; the list [_getDominantColorsFromPixels] builds is always
    in that order.  On a list in any order the test is the same test of
    the first two entries.  Frequencies 0.3 and 0.2 with a hue
    difference of 40 give true; differences of 5, 5 and 5 give false. *)
Theorem isPattern_iff (dominantColors : list DominantColor) :
  (Spec.byFrequency dominantColors ->
   (_isPattern dominantColors = true <->
    exists c1 c2 rest,
      dominantColors = c1 :: c2 :: rest /\
      Spec.twoMostFrequent dominantColors c1 c2 /\
      (1 # 4 <= frequency c1)%Q /\ (3 # 20 <= frequency c2)%Q /\
      Spec.distinct c1 c2)) /\
  (forall pixels n,
     Spec.byFrequency (_getDominantColorsFromPixels pixels n)) /\
  (_isPattern dominantColors = true <->
   exists c1 c2 rest,
     dominantColors = c1 :: c2 :: rest /\
     (1 # 4 <= frequency c1)%Q /\ (3 # 20 <= frequency c2)%Q /\
     Spec.distinct c1 c2) /\
  (forall c1 c2 rest,
     (frequency c1 == 3 # 10)%Q -> (frequency c2 == 2 # 10)%Q ->
     hueDifference (hsl_h (dom_hsl c1)) (hsl_h (dom_hsl c2)) = 40 ->
     _isPattern (c1 :: c2 :: rest) = true) /\
  (forall c1 c2 rest,
     hueDifference (hsl_h (dom_hsl c1)) (hsl_h (dom_hsl c2)) = 5 ->
     Z.abs (hsl_l (dom_hsl c1) - hsl_l (dom_hsl c2)) = 5 ->
     Z.abs (hsl_s (dom_hsl c1) - hsl_s (dom_hsl c2)) = 5 ->
     _isPattern (c1 :: c2 :: rest) = false).
Proof.
  assert (Hfirst :
    _isPattern dominantColors = true <->
    exists c1 c2 rest,
      dominantColors = c1 :: c2 :: rest /\
      (1 # 4 <= frequency c1)%Q /\ (3 # 20 <= frequency c2)%Q /\
      Spec.distinct c1 c2).
  { destruct dominantColors as [|c1 [|c2 rest]].
    + split; [discriminate|]. intros (c1 & c2 & rest & H & _). discriminate H.
    + split; [discriminate|]. intros (d1 & d2 & rest & H & _). discriminate H.
    + rewrite _isPattern_cons. split.
      * intros H. exists c1, c2, rest. split; [reflexivity | exact H].
      * intros (d1 & d2 & rest' & E & H). injection E as -> -> _. exact H. }
  split; [|split; [|split; [|split]]].
  - intros Hsorted. rewrite Hfirst. split.
    + intros (c1 & c2 & rest & E & H). exists c1, c2, rest.
      split; [exact E|]. split; [|exact H].
      rewrite E in *. now apply byFrequency_first_two.
    + intros (c1 & c2 & rest & E & _ & H). exists c1, c2, rest.
      split; [exact E | exact H].
  - apply dominantColors_byFrequency.
  - exact Hfirst.
  - intros c1 c2 rest F1 F2 Hhue. apply _isPattern_cons.
    split; [rewrite F1; discriminate|]. split; [rewrite F2; discriminate|].
    unfold Spec.distinct. cbv zeta. left. lia.
  - intros c1 c2 rest Hhue Hl Hs. apply not_true_is_false. intros H.
    apply _isPattern_cons in H. destruct H as (_ & _ & H).
    unfold Spec.distinct in H. cbv zeta in H. lia.
Qed.

(** Two lists in order of decreasing frequency: a two-tone pattern, and
    two colours too much alike. *)
Lemma isPattern_iff_witness :
  _isPattern
    [ mkDominant (mkRGB 200 30 30) (mkHSL 0 74 45) (3 # 10);
      mkDominant (mkRGB 200 140 30) (mkHSL 40 74 45) (2 # 10) ] = true /\
  _isPattern
    [ mkDominant (mkRGB 60 60 60) (mkHSL 0 40 45) (3 # 10);
      mkDominant (mkRGB 60 60 70) (mkHSL 5 45 50) (2 # 10) ] = false.
Proof.
  split.
  - apply (proj1 (isPattern_iff
                    [ mkDominant (mkRGB 200 30 30) (mkHSL 0 74 45) (3 # 10);
                      mkDominant (mkRGB 200 140 30) (mkHSL 40 74 45) (2 # 10) ])).
    + unfold Spec.byFrequency.
      repeat (constructor; [|repeat constructor; discriminate]). constructor.
    + eexists _, _, _. split; [reflexivity|].
      split.
      { apply byFrequency_first_two. unfold Spec.byFrequency.
        repeat (constructor; [|repeat constructor; discriminate]). constructor. }
      split; [discriminate|]. split; [discriminate|].
      unfold Spec.distinct. cbn. left. lia.
  - apply (proj2 (proj2 (proj2 (proj2 (isPattern_iff [])))));
      reflexivity.
Defined.

End PatternFacts.

(* ================================================================== *)
(** * The body-column detector                                         *)
(* ================================================================== *)

Module BodyColumnFacts.
Import DOM ColorAnalysis GarmentDetection JSFacts.

Lemma floor_fraction (n p q : Z) :
  0 < q -> JS.floor (inject_Z n * (p # Z.to_pos q)) = n * p / q.
Proof.
  intros Hq. unfold JS.floor. rewrite Zdiv_Qdiv. apply Qfloor_comp.
  rewrite inject_Z_mult. unfold Qdiv.
  rewrite (Qmake_Qdiv p (Z.to_pos q)). unfold Qdiv.
  rewrite Z2Pos.id by exact Hq. ring.
Qed.


Lemma windowSize_spec (canvas : Canvas) :
  windowSize canvas = canvas_width canvas * 5 / 10.
Proof. unfold windowSize. apply (floor_fraction _ 5 10). lia. Qed.

(** A store into a [Float32Array] keeps 24 bits: one tenth becomes
    0.100000001490116..., and 2^24 + 1 becomes 2^24. *)
Example fround_tenth :
  F64.fround 0x1.999999999999ap-4 = 0x1.99999ap-4%float.
Proof. vm_compute. reflexivity. Qed.

Example fround_tie_to_even : F64.fround 16777217 = 16777216%float.
Proof. vm_compute. reflexivity. Qed.

Example ofZ_byte : F64.ofZ 255 = 255%float.
Proof. vm_compute. reflexivity. Qed.

(** The rounding of the stores decides the test at the threshold.  In
    this image of 20 by 700 pixels the ten columns on the left are gray
    128 and the ten on the right gray 143, but for one sampled row.  The
    column means, 128 + 8/70000 and 143 + 7/70000, are stored as
    128 + 7 * 2^-16 and 143 + 7 * 2^-16, so the two edge strengths are
    stored as 15, the best window sums to 30 and its average is 3: the
    detector reports a column. *)
Example detectBodyColumn_at_threshold :
  _detectBodyColumn
    (mkCanvas 20 700
       (fun x y =>
          if x <? 10
          then (if y =? 210 then (118, 130, 144, 255) else (128, 128, 128, 255))
          else (if y =? 210 then (150, 141, 135, 255) else (143, 143, 143, 255))))
  = Some (mkColumn 0 12).
Proof. vm_compute. reflexivity. Qed.



End BodyColumnFacts.

(* ================================================================== *)
(** * The outfit score                                                 *)
(* ================================================================== *)

Module NumFacts.
Import Num.
Local Open Scope R_scope.

Lemma div_fin (x y : R) : y <> 0 -> div (Fin x) (Fin y) = Fin (x / y).
Proof.
  intros Hy. unfold div. destruct (Req_dec_T y 0) as [E|_]; [contradiction|].
  reflexivity.
Qed.


Lemma round_ofZ (z : Z) : round (ofZ z) = ofZ z.
Proof.
  unfold round, ofZ. f_equal. f_equal. apply Zfloor_eq. rlra.
Qed.

Lemma round_fin (x : R) : round (Fin x) = ofZ (Zfloor (x + 0.5)).
Proof. reflexivity. Qed.

Lemma add_ofZ (a b : Z) : add (ofZ a) (ofZ b) = ofZ (a + b).
Proof. unfold add, ofZ. now rewrite plus_IZR. Qed.

Lemma max_ofZ (a b : Z) : max (ofZ a) (ofZ b) = ofZ (Z.max a b).
Proof.
  unfold max, ofZ. f_equal.
  destruct (Z.max_spec a b) as [[H ->]|[H ->]].
  - apply Rmax_right. apply IZR_le. lia.
  - apply Rmax_left. apply IZR_le. lia.
Qed.

Lemma min_ofZ (a b : Z) : min (ofZ a) (ofZ b) = ofZ (Z.min a b).
Proof.
  unfold min, ofZ. f_equal.
  destruct (Z.min_spec a b) as [[H ->]|[H ->]].
  - apply Rmin_left. apply IZR_le. lia.
  - apply Rmin_right. apply IZR_le. lia.
Qed.

Lemma sum_from_fin (xs : list Z) (init : R) :
  finite (fold_left add (map ofZ xs) (Fin init)).
Proof.
  revert init. induction xs as [|x rest IH]; intros init; simpl.
  - now exists init.
  - apply IH.
Qed.

Lemma sum_finite (xs : list Z) : finite (sum (map ofZ xs)).
Proof. apply sum_from_fin. Qed.

Lemma max_from_fin (xs : list Z) (init : R) :
  finite (fold_left max (map ofZ xs) (Fin init)).
Proof.
  revert init. induction xs as [|x rest IH]; intros init; simpl.
  - now exists init.
  - apply IH.
Qed.

Lemma min_from_fin (xs : list Z) (init : R) :
  finite (fold_left min (map ofZ xs) (Fin init)).
Proof.
  revert init. induction xs as [|x rest IH]; intros init; simpl.
  - now exists init.
  - apply IH.
Qed.

Lemma maximum_finite (xs : list Z) :
  xs <> [] -> finite (maximum (map ofZ xs)).
Proof.
  destruct xs as [|x rest]; [contradiction|]. intros _.
  apply (max_from_fin rest (IZR x)).
Qed.

Lemma minimum_finite (xs : list Z) :
  xs <> [] -> finite (minimum (map ofZ xs)).
Proof.
  destruct xs as [|x rest]; [contradiction|]. intros _.
  apply (min_from_fin rest (IZR x)).
Qed.

(** The bell curve of finite arguments is a real in (0, 1]. *)
Lemma bell_fin (v c s : R) :
  s <> 0 ->
  exists y : R,
    Scoring._bellCurve (Fin v) (Fin c) (Fin s) = Fin y /\ 0 < y <= 1.
Proof.
  intros Hs. unfold Scoring._bellCurve, sub, neg, add.
  rewrite (div_fin _ _ Hs). unfold sqr, mul, exp.
  eexists. split; [reflexivity|]. split.
  - apply exp_pos.
  - rewrite <- exp_0.
    set (q := (v + - c) / s).
    assert (Hq : 0 <= q * q) by (apply Rle_0_sqr).
    destruct (Req_dec (-0.5 * (q * q)) 0) as [E|N].
    + rewrite E. apply Rle_refl.
    + left. apply exp_increasing. rlra.
Qed.


Lemma IZR_len_nonzero {A : Type} (xs : list A) : xs <> [] -> IZR (JS.len xs) <> 0.
Proof.
  intros Hne E. apply eq_IZR_R0 in E. apply JSFacts.len_zero in E. contradiction.
Qed.

(** [Math.round] keeps integer bounds. *)
Lemma Zfloor_half_between (x : R) (lo hi : Z) :
  IZR lo <= x <= IZR hi -> (lo <= Zfloor (x + 0.5) <= hi)%Z.
Proof.
  intros [Hlo Hhi]. split.
  - apply Zfloor_lub. rlra.
  - pose proof (Zfloor_bound (x + 0.5)) as [Hb _].
    assert (H : IZR (Zfloor (x + 0.5)) < IZR (hi + 1)).
    { rewrite plus_IZR. rlra. }
    apply lt_IZR in H. lia.
Qed.

End NumFacts.

Module ScoreFacts.
Import ColorAnalysis Num NumFacts Scoring.
Local Open Scope R_scope.

(** The first sub-score is an integer. *)
Lemma harmonyPoints_integer (harmonyResult : HarmonyResult) :
  exists z : Z, harmonyPoints harmonyResult = ofZ z.
Proof.
  unfold harmonyPoints, ofZ, mul. rewrite round_fin. eexists. reflexivity.
Qed.

(** A harmony score between 0 and 100 earns between 0 and 30 points. *)
Lemma harmonyPoints_range (harmonyResult : HarmonyResult) :
  (0 <= harmony_score harmonyResult <= 100)%Z ->
  exists z : Z, harmonyPoints harmonyResult = ofZ z /\ (0 <= z <= 30)%Z.
Proof.
  intros [H0 H1]. unfold harmonyPoints, ofZ, mul. rewrite round_fin.
  eexists. split; [reflexivity|].
  apply IZR_le in H0, H1. apply Zfloor_half_between. rlra.
Qed.

(** The contrast sub-score is an integer between 0 and 18. *)
Lemma contrastPoints_integer (colors : list Color) :
  exists z : Z, contrastPoints colors = ofZ z /\ (0 <= z <= 18)%Z.
Proof.
  unfold contrastPoints. cbv zeta.
  destruct (Z.ltb_spec 0 (JS.len (map ofZ (_pairwiseContrasts colors))))
    as [Hpos|_].
  - destruct (sum_finite (_pairwiseContrasts colors)) as [x ->].
    unfold ofZ at 1. rewrite div_fin.
    2:{ intros E. apply eq_IZR_R0 in E. lia. }
    destruct (bell_fin (x / IZR (JS.len (map ofZ (_pairwiseContrasts colors))))
                38 18 ltac:(rlra)) as (y & -> & Hy).
    unfold mul. rewrite round_fin. eexists. split; [reflexivity|].
    apply Zfloor_half_between. rlra.
  - exists 0%Z. split; [reflexivity | lia].
Qed.

(** For at least one colour, the average saturation is finite. *)
Lemma avgSat_finite (colors : list Color) :
  colors <> [] -> finite (avgSat colors).
Proof.
  intros Hne. unfold avgSat.
  rewrite <- (map_map (fun c => hsl_s (hsl c)) ofZ).
  destruct (sum_finite (map (fun c => hsl_s (hsl c)) colors)) as [x ->].
  unfold ofZ. rewrite div_fin by (now apply IZR_len_nonzero).
  eexists. reflexivity.
Qed.

(** For at least one colour, the intensity sub-score is an integer
    between 0 and 15. *)
Lemma intensityPoints_integer (colors : list Color) :
  colors <> [] ->
  exists z : Z, intensityPoints colors = ofZ z /\ (0 <= z <= 15)%Z.
Proof.
  intros Hne. unfold intensityPoints. cbv zeta.
  destruct (avgSat_finite colors Hne) as [a ->].
  rewrite <- (map_map (fun c => hsl_s (hsl c)) ofZ).
  assert (Hsat : map (fun c => hsl_s (hsl c)) colors <> []).
  { intros E. apply map_eq_nil in E. contradiction. }
  destruct (maximum_finite _ Hsat) as [hi ->].
  destruct (minimum_finite _ Hsat) as [lo ->].
  unfold sub, neg, add at 2.
  destruct (bell_fin (hi + - lo) 35 20 ltac:(rlra)) as (y1 & -> & Hy1).
  destruct (bell_fin a 45 25 ltac:(rlra)) as (y2 & -> & Hy2).
  unfold mul, add. rewrite round_fin. eexists. split; [reflexivity|].
  apply Zfloor_half_between. rlra.
Qed.




Lemma coherencePoints_range (colors : list Color) :
  (4 <= coherencePoints colors <= 12)%Z.
Proof.
  unfold coherencePoints. cbv zeta.
  destruct (2 <=? JS.len (chromaticColors colors))%Z; [|lia].
  destruct (eqb _ _); [lia|]. destruct (leb _ _); lia.
Qed.

Lemma anchorPoints_range (colors : list Color) :
  (5 <= anchorPoints colors <= 10)%Z.
Proof.
  unfold anchorPoints. cbv zeta.
  repeat match goal with
         | |- context [if ?c then _ else _] => destruct c
         end; lia.
Qed.

Lemma polishPoints_range (colors : list Color) (harmonyResult : HarmonyResult) :
  (0 <= polishPoints colors harmonyResult <= 15)%Z.
Proof. unfold polishPoints. cbv zeta. lia. Qed.

(** With one colour or more the score is as promised: for every
    non-empty list of colour records and every harmony result, the six
    points of the breakdown are integers, the total is their sum clamped
    to [0, 100], and so the total is an integer between 0 and 100.  When
    the harmony score is itself between 0 and 100 the six caps (30, 18,
    15, 12, 10, 15) keep the sum in range, whatever branches are
    taken. *)
Theorem calculateOutfitScore_total (colors : list Color)
  (harmonyResult : HarmonyResult) :
  colors <> [] ->
  exists pts : list Z,
    List.length pts = 6%nat /\
    map points (breakdown (calculateOutfitScore colors harmonyResult))
    = map ofZ pts /\
    total (calculateOutfitScore colors harmonyResult)
    = ofZ (Spec.clamp (JS.sum pts)) /\
    Spec.isScore (total (calculateOutfitScore colors harmonyResult)) /\
    ((0 <= harmony_score harmonyResult <= 100)%Z ->
     (0 <= JS.sum pts <= 100)%Z).
Proof.
  intros Hne.
  assert (H1 : exists p1, harmonyPoints harmonyResult = ofZ p1 /\
                 ((0 <= harmony_score harmonyResult <= 100)%Z ->
                  (0 <= p1 <= 30)%Z)).
  { destruct (harmonyPoints_integer harmonyResult) as (p1 & E1).
    exists p1. split; [exact E1|]. intros Hs.
    destruct (harmonyPoints_range harmonyResult Hs) as (q & Eq & Hq).
    rewrite E1 in Eq. unfold ofZ in Eq. injection Eq as Eq.
    apply eq_IZR in Eq. lia. }
  destruct H1 as (p1 & E1 & B1).
  destruct (contrastPoints_integer colors) as (p2 & E2 & B2).
  destruct (intensityPoints_integer colors Hne) as (p3 & E3 & B3).
  pose proof (coherencePoints_range colors) as B4.
  pose proof (anchorPoints_range colors) as B5.
  pose proof (polishPoints_range colors harmonyResult) as B6.
  exists [p1; p2; p3; coherencePoints colors; anchorPoints colors;
          polishPoints colors harmonyResult].
  split; [reflexivity|].
  unfold calculateOutfitScore. cbv zeta. cbn [total breakdown map points].
  rewrite E1, E2, E3.
  assert (Etotal :
    max (Fin 0)
      (min (Fin 100)
         (round
            (add (add (add (add (add (add (Fin 0) (ofZ p1)) (ofZ p2)) (ofZ p3))
                        (ofZ (coherencePoints colors)))
                   (ofZ (anchorPoints colors)))
               (ofZ (polishPoints colors harmonyResult)))))
    = ofZ (Spec.clamp
             (JS.sum [p1; p2; p3; coherencePoints colors; anchorPoints colors;
                      polishPoints colors harmonyResult]))).
  { change (Fin 0) with (ofZ 0). change (Fin 100) with (ofZ 100).
    rewrite !add_ofZ, round_ofZ, min_ofZ, max_ofZ. reflexivity. }
  split; [reflexivity|]. split; [exact Etotal|]. split.
  - rewrite Etotal. eexists. split; [reflexivity|].
    unfold Spec.clamp. lia.
  - intros Hs. specialize (B1 Hs). unfold JS.sum. cbn [fold_left]. lia.
Qed.

Lemma calculateOutfitScore_total_witness :
  Spec.isScore
    (total (calculateOutfitScore
              [ofHsl 0 60 50; ofHsl 120 60 50; ofHsl 240 60 50]
              (analyzeHarmony
                 [ofHsl 0 60 50; ofHsl 120 60 50; ofHsl 240 60 50]))).
Proof.
  destruct (calculateOutfitScore_total
              [ofHsl 0 60 50; ofHsl 120 60 50; ofHsl 240 60 50]
              (analyzeHarmony [ofHsl 0 60 50; ofHsl 120 60 50; ofHsl 240 60 50])
              ltac:(discriminate)) as (pts & _ & _ & _ & H & _).
  exact H.
Defined.

End ScoreFacts.

(* ================================================================== *)
(** * Hexadecimal codes and colour names                               *)
(* ================================================================== *)

Module ColorTextFacts.
Import ColorAnalysis ColorText JSFacts.

(** Every byte prints as two hexadecimal digits that [parseInt] reads
    back. *)
Lemma byte_digits (x : Z) :
  0 <= x <= 255 ->
  exists c1 c2 : ascii,
    padStart2 (toString16 x) = String c1 (String c2 EmptyString) /\
    parsePair c1 c2 = Some x.
Proof.
  intros Hx.
  assert (Hall :
    forallb
      (fun x =>
         match padStart2 (toString16 x) with
         | String c1 (String c2 EmptyString) =>
             match parsePair c1 c2 with
             | Some y => y =? x
             | None => false
             end
         | _ => false
         end)
      (JS.upto 256) = true) by (vm_compute; reflexivity).
  rewrite forallb_forall in Hall.
  assert (Hin : In x (JS.upto 256)).
  { unfold JS.upto. apply in_map_iff. exists (Z.to_nat x). split; [lia|].
    apply in_seq. lia. }
  specialize (Hall x Hin).
  destruct (padStart2 (toString16 x)) as [|c1 [|c2 [|? ?]]]; try discriminate.
  destruct (parsePair c1 c2) as [y|] eqn:Ey; [|discriminate].
  apply Z.eqb_eq in Hall. subst y.
  exists c1, c2. split; [reflexivity | exact Ey].
Qed.

(** Writing a colour whose channels are bytes as a hexadecimal code and
    reading the code back gives the colour again; the code is a [#]
    sign followed by six digits. *)
Theorem hexToRgb_rgbToHex (r g b : Z) :
  0 <= r <= 255 -> 0 <= g <= 255 -> 0 <= b <= 255 ->
  hexToRgb (rgbToHex r g b) = Some (mkRGB r g b) /\
  String.length (rgbToHex r g b) = 7%nat.
Proof.
  intros Hr Hg Hb.
  destruct (byte_digits r Hr) as (r1 & r2 & Er & Pr).
  destruct (byte_digits g Hg) as (g1 & g2 & Eg & Pg).
  destruct (byte_digits b Hb) as (b1 & b2 & Eb & Pb).
  unfold rgbToHex. cbn [map String.concat]. rewrite Er, Eg, Eb.
  cbn [String.append]. split; [|reflexivity].
  unfold hexToRgb. rewrite Pr, Pg, Pb. reflexivity.
Qed.

Lemma hexToRgb_rgbToHex_witness :
  hexToRgb (rgbToHex 255 128 0) = Some (mkRGB 255 128 0) /\
  String.length (rgbToHex 255 128 0) = 7%nat.
Proof. apply hexToRgb_rgbToHex; lia. Defined.

(** [_getHueName] names every hue: whatever the integers [h], [s] and
    [l] are, its last statement, which returns 'Unknown', is never
    reached. *)
Theorem _getHueName_never_unknown (h s l : Z) :
  _getHueName h s l <> "Unknown"%string.
Proof.
  unfold _getHueName.
  repeat match goal with
         | |- context [if ?c then _ else _] => destruct c eqn:?
         end;
    try discriminate.
  exfalso.
  repeat match goal with
         | H : _ || _ = false |- _ => apply orb_false_iff in H; destruct H
         | H : _ && _ = false |- _ => apply andb_false_iff in H
         end.
  rewrite ?Z.leb_gt, ?Z.ltb_ge in *. lia.
Qed.

(** [generateSuggestions] never gives more than five suggestions and
    never the same one twice: the advice to add a neutral and the one to
    match the temperatures exclude the advice to add an accent, and a
    harmony has one type. *)
Theorem generateSuggestions_distinct (colors : list Color)
  (harmonyResult : HarmonyResult) :
  (List.length (generateSuggestions colors harmonyResult) <= 5)%nat /\
  NoDup (generateSuggestions colors harmonyResult).
Proof.
  unfold generateSuggestions. cbv zeta.
  set (nn := JS.len (filter isNeutral colors)).
  set (nc := JS.len (filter (fun c => negb (isNeutral c)) colors)).
  set (a := (nn =? 0) && (2 <=? nc)).
  set (t := (0 <? warmCount (analyzeTemperature colors))
            && (0 <? coolCount (analyzeTemperature colors)) && (2 <=? nc)).
  set (c := JS.Qltb _ 15).
  set (s := 3 <=? _).
  set (k := String.eqb (harmony_type harmonyResult) "Color Clash").
  set (n := nc =? 0).
  set (f := String.eqb (harmony_type harmonyResult) "Monochromatic - Flat").
  assert (Han : a && n = false).
  { subst a n. destruct (Z.eqb_spec nc 0) as [->|]; [|apply andb_false_r].
    rewrite !andb_false_r. reflexivity. }
  assert (Htn : t && n = false).
  { subst t n. destruct (Z.eqb_spec nc 0) as [->|]; [|apply andb_false_r].
    rewrite !andb_false_r. reflexivity. }
  assert (Hkf : k && f = false).
  { subst k f. destruct (String.eqb_spec (harmony_type harmonyResult) "Color Clash")
      as [->|]; reflexivity. }
  unfold suggestTemperature.
  set (w := String.eqb (dominant (analyzeTemperature colors)) "warm").
  clearbody a t c s k n f w.
  destruct a, t, c, s, k, n, f; try discriminate; destruct w;
    cbn [pushIf app List.length String.append];
    (split; [lia|]);
    repeat (constructor; [cbn [In]; intuition discriminate|]);
    constructor.
Qed.

End ColorTextFacts.

(* ================================================================== *)
(** * Arrays: extremes, sums and reordering                            *)
(* ================================================================== *)

Module ArrayFacts.
Import JSFacts.

Lemma fold_max_spec (rest : list Z) (x : Z) :
  (fold_left Z.max rest x = x \/ In (fold_left Z.max rest x) rest) /\
  x <= fold_left Z.max rest x /\
  Forall (fun y => y <= fold_left Z.max rest x) rest.
Proof.
  revert x. induction rest as [|y rest IH]; intros x; cbn [fold_left].
  - split; [now left|]. split; [lia | constructor].
  - destruct (IH (Z.max x y)) as (Hin & Hle & Hall).
    split; [|split].
    + destruct Hin as [E|Hin]; [|right; now right].
      rewrite E. destruct (Z.max_spec x y) as [[_ Em]|[_ Em]]; rewrite Em.
      * right. now left.
      * now left.
    + lia.
    + constructor; [lia | exact Hall].
Qed.

Lemma fold_min_spec (rest : list Z) (x : Z) :
  (fold_left Z.min rest x = x \/ In (fold_left Z.min rest x) rest) /\
  fold_left Z.min rest x <= x /\
  Forall (fun y => fold_left Z.min rest x <= y) rest.
Proof.
  revert x. induction rest as [|y rest IH]; intros x; cbn [fold_left].
  - split; [now left|]. split; [lia | constructor].
  - destruct (IH (Z.min x y)) as (Hin & Hle & Hall).
    split; [|split].
    + destruct Hin as [E|Hin]; [|right; now right].
      rewrite E. destruct (Z.min_spec x y) as [[_ Em]|[_ Em]]; rewrite Em.
      * now left.
      * right. now left.
    + lia.
    + constructor; [lia | exact Hall].
Qed.

(** [Math.max(...arr)] of a non-empty array is an element of the array
    that no element exceeds; likewise [Math.min(...arr)]. *)
Lemma maximum_spec (xs : list Z) :
  xs <> [] ->
  In (JS.maximum xs) xs /\ Forall (fun y => y <= JS.maximum xs) xs.
Proof.
  destruct xs as [|x rest]; [contradiction|]. intros _.
  unfold JS.maximum. destruct (fold_max_spec rest x) as (Hin & Hle & Hall).
  split.
  - destruct Hin as [E|Hin]; [left; now symmetry | now right].
  - constructor; assumption.
Qed.

Lemma minimum_spec (xs : list Z) :
  xs <> [] ->
  In (JS.minimum xs) xs /\ Forall (fun y => JS.minimum xs <= y) xs.
Proof.
  destruct xs as [|x rest]; [contradiction|]. intros _.
  unfold JS.minimum. destruct (fold_min_spec rest x) as (Hin & Hle & Hall).
  split.
  - destruct Hin as [E|Hin]; [left; now symmetry | now right].
  - constructor; assumption.
Qed.

Lemma minimum_le_maximum (xs : list Z) : JS.minimum xs <= JS.maximum xs.
Proof.
  destruct xs as [|x rest]; [simpl; lia|].
  destruct (maximum_spec (x :: rest) ltac:(discriminate)) as [_ Hmax].
  destruct (minimum_spec (x :: rest) ltac:(discriminate)) as [_ Hmin].
  inversion Hmax; inversion Hmin; subst. lia.
Qed.

Lemma maximum_perm (xs ys : list Z) :
  Permutation xs ys -> JS.maximum xs = JS.maximum ys.
Proof.
  intros P. destruct xs as [|x xs'].
  - apply Permutation_nil in P. now subst.
  - assert (Hy : ys <> []).
    { intros ->. apply Permutation_sym, Permutation_nil in P. discriminate. }
    destruct (maximum_spec (x :: xs') ltac:(discriminate)) as [I1 A1].
    destruct (maximum_spec ys Hy) as [I2 A2].
    rewrite Forall_forall in A1, A2.
    pose proof (A2 _ (Permutation_in _ P I1)).
    pose proof (A1 _ (Permutation_in _ (Permutation_sym P) I2)). lia.
Qed.

Lemma minimum_perm (xs ys : list Z) :
  Permutation xs ys -> JS.minimum xs = JS.minimum ys.
Proof.
  intros P. destruct xs as [|x xs'].
  - apply Permutation_nil in P. now subst.
  - assert (Hy : ys <> []).
    { intros ->. apply Permutation_sym, Permutation_nil in P. discriminate. }
    destruct (minimum_spec (x :: xs') ltac:(discriminate)) as [I1 A1].
    destruct (minimum_spec ys Hy) as [I2 A2].
    rewrite Forall_forall in A1, A2.
    pose proof (A2 _ (Permutation_in _ P I1)).
    pose proof (A1 _ (Permutation_in _ (Permutation_sym P) I2)). lia.
Qed.

Lemma sum_from (xs : list Z) (a : Z) : fold_left Z.add xs a = a + JS.sum xs.
Proof.
  unfold JS.sum. revert a. induction xs as [|x rest IH]; intros a; cbn [fold_left].
  - lia.
  - rewrite (IH (a + x)), (IH (0 + x)). lia.
Qed.

Lemma sum_cons (x : Z) (xs : list Z) : JS.sum (x :: xs) = x + JS.sum xs.
Proof. unfold JS.sum at 1. cbn [fold_left]. rewrite sum_from. lia. Qed.

Lemma sum_app (xs ys : list Z) : JS.sum (xs ++ ys) = JS.sum xs + JS.sum ys.
Proof.
  induction xs as [|x rest IH]; [reflexivity|].
  cbn [app]. rewrite !sum_cons, IH. lia.
Qed.

Lemma sum_perm (xs ys : list Z) : Permutation xs ys -> JS.sum xs = JS.sum ys.
Proof.
  induction 1; rewrite ?sum_cons in *; lia.
Qed.

Lemma len_perm {A : Type} (xs ys : list A) :
  Permutation xs ys -> JS.len xs = JS.len ys.
Proof. intros P. unfold JS.len. now rewrite (Permutation_length P). Qed.

Lemma mean_perm (xs ys : list Z) : Permutation xs ys -> JS.mean xs = JS.mean ys.
Proof.
  intros P. unfold JS.mean. now rewrite (sum_perm _ _ P), (len_perm _ _ P).
Qed.

Lemma filter_perm {A : Type} (f : A -> bool) (xs ys : list A) :
  Permutation xs ys -> Permutation (filter f xs) (filter f ys).
Proof.
  induction 1; cbn [filter].
  - constructor.
  - destruct (f x); [now constructor | assumption].
  - destruct (f x), (f y); try apply Permutation_refl. apply perm_swap.
  - eapply Permutation_trans; eassumption.
Qed.

Lemma existsb_perm {A : Type} (f : A -> bool) (xs ys : list A) :
  Permutation xs ys -> existsb f xs = existsb f ys.
Proof.
  induction 1; cbn [existsb]; try congruence.
  destruct (f x), (f y); reflexivity.
Qed.

Lemma forallb_perm {A : Type} (f : A -> bool) (xs ys : list A) :
  Permutation xs ys -> forallb f xs = forallb f ys.
Proof.
  induction 1; cbn [forallb]; try congruence.
  destruct (f x), (f y); reflexivity.
Qed.

(** Reordering an array reorders the values of a symmetric function
    over its pairs. *)
Lemma pairs_perm {A B : Type} (f : A * A -> B) (xs ys : list A) :
  (forall a b, f (a, b) = f (b, a)) ->
  Permutation xs ys ->
  Permutation (map f (JS.pairs xs)) (map f (JS.pairs ys)).
Proof.
  intros Hsym. induction 1; cbn [JS.pairs].
  - constructor.
  - rewrite !map_app, !map_map. apply Permutation_app; [|assumption].
    now apply Permutation_map.
  - cbn [map app]. rewrite !map_app, !map_map. cbn [map].
    rewrite (Hsym y x). constructor.
    rewrite !app_assoc. apply Permutation_app_tail. apply Permutation_app_comm.
  - eapply Permutation_trans; eassumption.
Qed.

Lemma len_filter_le {A : Type} (f : A -> bool) (xs : list A) :
  JS.len (filter f xs) <= JS.len xs.
Proof. unfold JS.len. pose proof (filter_length_le f xs). lia. Qed.

(** Every element is on one side of a test or on the other. *)
Lemma len_filter_split {A : Type} (f : A -> bool) (xs : list A) :
  JS.len (filter f xs) + JS.len (filter (fun x => negb (f x)) xs) = JS.len xs.
Proof.
  unfold JS.len. induction xs as [|x rest IH]; [reflexivity|].
  cbn [filter]. destruct (f x); cbn [negb List.length]; lia.
Qed.

(** A filter keeps everything, or nothing, when its test is the same
    on every element. *)
Lemma filter_true {A : Type} (f : A -> bool) (xs : list A) :
  forallb f xs = true -> filter f xs = xs.
Proof.
  induction xs as [|x rest IH]; [reflexivity|]. cbn [forallb filter].
  intros H. apply andb_true_iff in H as [Hx Hrest].
  rewrite Hx, (IH Hrest). reflexivity.
Qed.

Lemma filter_false {A : Type} (f : A -> bool) (xs : list A) :
  forallb (fun x => negb (f x)) xs = true -> filter f xs = [].
Proof.
  induction xs as [|x rest IH]; [reflexivity|]. cbn [forallb filter].
  intros H. apply andb_true_iff in H as [Hx Hrest].
  apply negb_true_iff in Hx. rewrite Hx. exact (IH Hrest).
Qed.

Lemma filter_none {A : Type} (f : A -> bool) (xs : list A) :
  forallb f xs = true -> filter (fun x => negb (f x)) xs = [].
Proof.
  induction xs as [|x rest IH]; [reflexivity|]. cbn [forallb filter].
  intros H. apply andb_true_iff in H as [Hx Hrest].
  rewrite Hx, (IH Hrest). reflexivity.
Qed.

(** [Math.round] reaches an integer from one half below it. *)
Lemma round_from_half (x : Q) (lo : Z) :
  (inject_Z lo - (1 # 2) <= x)%Q -> lo <= JS.round x.
Proof.
  intros H. unfold JS.round. rewrite <- (Qfloor_Z lo). apply Qfloor_resp_le.
  generalize dependent (inject_Z lo). intros; qlra.
Qed.

End ArrayFacts.

(* ================================================================== *)
(** * Temperature and harmony of a palette                             *)
(* ================================================================== *)

Module PaletteFacts.
Import ColorAnalysis JSFacts ArrayFacts.

(** A temperature is one of three texts. *)
Lemma getTemperature_cases (c : Color) :
  getTemperature c = "warm"%string \/ getTemperature c = "cool"%string \/
  getTemperature c = "neutral"%string.
Proof.
  unfold getTemperature. destruct (isNeutral c); [now right; right|].
  destruct (isWarmHue _); [now left | now right; left].
Qed.

(** The loop of [analyzeTemperature] counts the colours of each
    temperature. *)
Lemma temperature_fold (colors : list Color) (w c n : Z) :
  fold_left
    (fun '(w, c, n) col =>
       let temp := getTemperature col in
       if String.eqb temp "warm" then (w + 1, c, n)
       else if String.eqb temp "cool" then (w, c + 1, n)
       else (w, c, n + 1))
    colors (w, c, n)
  = (w + JS.len (filter (fun col => String.eqb (getTemperature col) "warm") colors),
     c + JS.len (filter (fun col => String.eqb (getTemperature col) "cool") colors),
     n + JS.len (filter (fun col => String.eqb (getTemperature col) "neutral") colors)).
Proof.
  revert w c n. induction colors as [|col rest IH]; intros w c n.
  - cbn [fold_left filter]. rewrite len_nil, !Z.add_0_r. reflexivity.
  - cbn [fold_left filter]. cbv zeta.
    destruct (getTemperature_cases col) as [E|[E|E]]; rewrite E;
      cbn [String.eqb Ascii.eqb Bool.eqb andb]; rewrite IH, ?len_cons;
      repeat match goal with
             | |- (_, _) = (_, _) => apply f_equal2
             end; lia.
Qed.

Lemma temperature_perm (xs ys : list Color) :
  Permutation xs ys -> analyzeTemperature xs = analyzeTemperature ys.
Proof.
  intros P. unfold analyzeTemperature. rewrite !temperature_fold.
  rewrite (len_perm _ _ (filter_perm (fun col => String.eqb (getTemperature col) "warm") _ _ P)).
  rewrite (len_perm _ _ (filter_perm (fun col => String.eqb (getTemperature col) "cool") _ _ P)).
  rewrite (len_perm _ _ (filter_perm (fun col => String.eqb (getTemperature col) "neutral") _ _ P)).
  reflexivity.
Qed.

(** The coherence is the share of the larger of two camps, so it is
    never below one half. *)
Lemma coherence_half (colors : list Color) :
  (1 # 2 <= coherence (analyzeTemperature colors) <= 1)%Q.
Proof.
  unfold analyzeTemperature. rewrite temperature_fold.
  set (w := 0 + JS.len (filter (fun col => String.eqb (getTemperature col) "warm")
                                colors)).
  set (c := 0 + JS.len (filter (fun col => String.eqb (getTemperature col) "cool")
                                colors)).
  assert (Hw : 0 <= w)
    by (subst w; apply Z.add_nonneg_nonneg; [lia | apply len_nonneg]).
  assert (Hc : 0 <= c)
    by (subst c; apply Z.add_nonneg_nonneg; [lia | apply len_nonneg]).
  clearbody w c. cbn [coherence].
  destruct (Z.ltb_spec 0 (w + c)) as [Hpos|_]; [|split; discriminate].
  assert (Ht : (0 < inject_Z (w + c))%Q).
  { change 0%Q with (inject_Z 0). rewrite <- Zlt_Qlt. exact Hpos. }
  split.
  - apply Qle_shift_div_l; [exact Ht|].
    assert (H2 : w + c <= 2 * Z.max w c) by lia.
    rewrite Zle_Qle, inject_Z_mult in H2. change (inject_Z 2) with 2%Q in H2.
    generalize dependent (inject_Z (w + c)).
    generalize (inject_Z (Z.max w c)). intros; qlra.
  - apply Qle_shift_div_r; [exact Ht|].
    rewrite Qmult_1_l. rewrite <- Zle_Qle. lia.
Qed.

(** [analyzeTemperature] counts every colour exactly once, under the
    temperature [getTemperature] gives it; the coherence lies between
    one half and one, and the dominant temperature is 'neutral' exactly
    when warm and cool colours are equally many. *)
Theorem analyzeTemperature_census (colors : list Color) :
  warmCount (analyzeTemperature colors)
  = JS.len (filter (fun c => String.eqb (getTemperature c) "warm") colors) /\
  coolCount (analyzeTemperature colors)
  = JS.len (filter (fun c => String.eqb (getTemperature c) "cool") colors) /\
  neutralCount (analyzeTemperature colors)
  = JS.len (filter isNeutral colors) /\
  warmCount (analyzeTemperature colors) + coolCount (analyzeTemperature colors)
  + neutralCount (analyzeTemperature colors) = JS.len colors /\
  (1 # 2 <= coherence (analyzeTemperature colors) <= 1)%Q /\
  (dominant (analyzeTemperature colors) = "neutral"%string <->
   warmCount (analyzeTemperature colors) = coolCount (analyzeTemperature colors)).
Proof.
  pose proof (coherence_half colors) as Hcoh.
  unfold analyzeTemperature in *. rewrite temperature_fold in *.
  cbn [warmCount coolCount neutralCount dominant].
  assert (Hn : filter (fun c => String.eqb (getTemperature c) "neutral") colors
               = filter isNeutral colors).
  { apply filter_ext. intros c. unfold getTemperature.
    destruct (isNeutral c); [reflexivity|]. now destruct (isWarmHue _). }
  assert (Hsum :
    JS.len (filter (fun c => String.eqb (getTemperature c) "warm") colors)
    + JS.len (filter (fun c => String.eqb (getTemperature c) "cool") colors)
    + JS.len (filter (fun c => String.eqb (getTemperature c) "neutral") colors)
    = JS.len colors).
  { clear. induction colors as [|c rest IH]; [reflexivity|].
    cbn [filter]. destruct (getTemperature_cases c) as [E|[E|E]]; rewrite E;
      cbn [String.eqb Ascii.eqb Bool.eqb andb]; rewrite ?len_cons; lia. }
  rewrite Hn in *.
  split; [lia|]. split; [lia|]. split; [lia|]. split; [lia|].
  split; [exact Hcoh|].
  set (w := 0 + JS.len (filter (fun col => String.eqb (getTemperature col) "warm")
                                colors)).
  set (c := 0 + JS.len (filter (fun col => String.eqb (getTemperature col) "cool")
                                colors)).
  destruct (Z.ltb_spec c w); [split; [discriminate | lia]|].
  destruct (Z.ltb_spec w c); [split; [discriminate | lia]|].
  split; [lia | reflexivity].
Qed.

(** The pairwise hue differences of a reordered palette are the same
    differences, reordered. *)
Lemma hueDifferences_perm (xs ys : list Z) :
  Permutation xs ys -> Permutation (hueDifferences xs) (hueDifferences ys).
Proof.
  intros P. unfold hueDifferences. apply pairs_perm; [|exact P].
  intros a b. unfold hueDifference. cbn [fst snd].
  replace (b - a) with (- (a - b)) by lia. now rewrite Z.abs_opp.
Qed.

Lemma hueRules_perm (ns ns' cs cs' : list Color) :
  Permutation ns ns' -> Permutation cs cs' ->
  hueRules ns cs = hueRules ns' cs'.
Proof.
  intros Pn Pc. unfold hueRules. cbv zeta.
  pose proof (Permutation_map (fun c => hsl_h (hsl c)) Pc) as Ph.
  pose proof (Permutation_map (fun c => hsl_s (hsl c)) Pc) as Ps.
  pose proof (Permutation_map (fun c => hsl_l (hsl c)) Pc) as Pl.
  pose proof (hueDifferences_perm _ _ Ph) as Pd.
  rewrite (len_perm _ _ Pn), (len_perm _ _ Pc), (temperature_perm _ _ Pc).
  rewrite (maximum_perm _ _ Pd), (minimum_perm _ _ Pd), (mean_perm _ _ Pd).
  rewrite (len_perm _ _ Pd).
  rewrite (existsb_perm inSplitRange _ _ Pd), (forallb_perm inTriadRange _ _ Pd).
  rewrite (maximum_perm _ _ Ps), (minimum_perm _ _ Ps), (mean_perm _ _ Ps).
  rewrite (maximum_perm _ _ Pl), (minimum_perm _ _ Pl).
  reflexivity.
Qed.

(** The harmony of an outfit does not depend on the order in which its
    colours are listed. *)
Theorem analyzeHarmony_perm (colors colors' : list Color) :
  Permutation colors colors' ->
  analyzeHarmony colors = analyzeHarmony colors'.
Proof.
  intros P. unfold analyzeHarmony.
  pose proof (filter_perm isNeutral _ _ P) as Pn.
  pose proof (filter_perm (fun c => negb (isNeutral c)) _ _ P) as Pc.
  pose proof (Permutation_map (fun c => hsl_l (hsl c)) P) as Pl.
  rewrite (len_perm _ _ P). cbv zeta.
  rewrite (len_perm _ _ Pn), (len_perm _ _ Pc).
  rewrite (maximum_perm _ _ Pl), (minimum_perm _ _ Pl).
  rewrite (hueRules_perm _ _ _ _ Pn Pc).
  destruct (JS.len colors' <? 2); [reflexivity|].
  destruct (JS.len (filter _ colors') =? 0); [reflexivity|].
  destruct (Z.eqb_spec (JS.len (filter (fun c => negb (isNeutral c)) colors')) 1)
    as [E|_]; [|reflexivity].
  destruct (1 <=? _); [|reflexivity]. cbn [andb].
  destruct (filter (fun c => negb (isNeutral c)) colors') as [|p [|q rest]] eqn:Ef;
    try (unfold JS.len in E; cbn in E; lia).
  apply Permutation_sym, Permutation_length_1_inv in Pc. rewrite Pc. reflexivity.
Qed.

Lemma analyzeHarmony_perm_witness :
  analyzeHarmony [ofHsl 0 80 50; ofHsl 160 80 50; ofHsl 0 0 10]
  = analyzeHarmony [ofHsl 160 80 50; ofHsl 0 0 10; ofHsl 0 80 50].
Proof.
  apply analyzeHarmony_perm.
  apply (Permutation_cons_app [ofHsl 160 80 50; ofHsl 0 0 10] []).
  apply Permutation_refl.
Defined.

(** Every verdict of [analyzeHarmony] is one of twenty-one fixed pairs
    of a type and a score, or it is 'Mixed' with a score between 58 and
    70. *)
Theorem analyzeHarmony_verdicts (colors : list Color) :
  In (harmony_type (analyzeHarmony colors),
      harmony_score (analyzeHarmony colors))
     [ ("Single Color"%string, 50); ("Achromatic Contrast"%string, 85);
       ("Achromatic"%string, 72); ("Neutral-Anchored Pop"%string, 88);
       ("Neutral-Anchored"%string, 80); ("Monochromatic"%string, 87);
       ("Monochromatic - Flat"%string, 68); ("Analogous"%string, 88);
       ("Analogous"%string, 91); ("Analogous"%string, 93);
       ("Analogous"%string, 96); ("Split-Complementary"%string, 84);
       ("Complementary - Bold"%string, 75); ("Complementary"%string, 90);
       ("Complementary"%string, 84); ("Triadic"%string, 82);
       ("Tension (Neutral-Rescued)"%string, 62); ("Color Clash"%string, 32);
       ("Color Clash"%string, 40); ("Warm Harmony"%string, 78);
       ("Cool Harmony"%string, 78) ]
  \/ (harmony_type (analyzeHarmony colors) = "Mixed"%string /\
      58 <= harmony_score (analyzeHarmony colors) <= 70).
Proof.
  unfold analyzeHarmony.
  destruct (JS.len colors <? 2); [left; cbn; tauto|]. cbv zeta.
  destruct (JS.len (filter _ colors) =? 0).
  { destruct (40 <? _); left; cbn; tauto. }
  destruct (_ && _).
  { destruct (filter _ colors) as [|pop rest]; [left; cbn; tauto|].
    destruct (50 <? _); left; cbn; tauto. }
  unfold hueRules. cbv zeta.
  repeat match goal with
         | |- context [if ?c then _ else _] =>
             lazymatch c with
             | context [if _ then _ else _] => fail
             | _ => destruct c
             end
         end;
    cbn [harmony_type harmony_score String.append];
    try (left; cbn; tauto).
  all: right; split; [reflexivity|].
  all: pose proof (coherence_half
                     (filter (fun c => negb (isNeutral c)) colors)) as [H0 H1].
  all: match goal with
       | |- _ <= Z.min 70 (JS.round ?x) <= _ =>
           assert (58 <= JS.round x)
             by (apply round_from_half; unfold inject_Z; qlra);
           assert (50 <= JS.round x <= 70)
             by (apply round_between; unfold inject_Z; qlra); lia
       end.
Qed.

End PaletteFacts.

(* ================================================================== *)
(** * From the bytes of the canvas to the colour of a zone             *)
(* ================================================================== *)

Module PixelFacts.
Import DOM ColorAnalysis GarmentDetection Pixels.
Import JSFacts SortFacts ArrayFacts.

(** [rgbToHsl] on bytes: a hue up to 360 and two percentages. *)
Lemma rgbToHsl_bytes (r g b : Z) :
  isByte r -> isByte g -> isByte b -> hslInRange (rgbToHsl r g b).
Proof.
  intros Hr Hg Hb.
  pose proof (ConversionFacts.hslFractions_range r g b Hr Hg Hb) as H.
  unfold hslInRange, rgbToHsl. destruct (hslFractions r g b) as [[h s] l].
  cbn [hsl_h hsl_s hsl_l]. destruct H as (H1 & H2 & H3 & H4).
  split; [|split]; apply round_between; unfold inject_Z; qlra.
Qed.

Lemma getImageData_bytes (canvas : Canvas) (x y w h : Z) :
  byteCanvas canvas -> Forall isByte (getImageData canvas x y w h).
Proof.
  intros Hb. unfold getImageData.
  apply Forall_flat_map, Forall_forall. intros row _.
  apply Forall_flat_map, Forall_forall. intros col _.
  specialize (Hb (x + col) (y + row)).
  destruct (canvas_pixel canvas (x + col) (y + row)) as [[[r g] b] a].
  cbn [fst snd] in Hb. destruct Hb as (Hr & Hg & Hb & Ha).
  repeat (constructor; [assumption|]). constructor.
Qed.

(** A read of the data gives a byte, also out of range, where the read
    is [undefined] and the model has 0. *)
Lemma at_byte (data : list Z) (i : Z) :
  Forall isByte data -> isByte (JS.at_ data i 0).
Proof.
  intros H. unfold JS.at_. destruct (i <? 0); [unfold isByte; lia|].
  destruct (nth_in_or_default (Z.to_nat i) data 0) as [Hin | ->].
  - rewrite Forall_forall in H. now apply H.
  - unfold isByte. lia.
Qed.

Lemma _getPixelData_bytes (canvas : Canvas) (rect : Rect) :
  byteCanvas canvas -> Forall byteColor (_getPixelData canvas rect).
Proof.
  intros Hb. unfold _getPixelData. cbv zeta.
  destruct (_ || _); [constructor|].
  apply Forall_flat_map, Forall_forall. intros i _.
  destruct (_ <? 128); [constructor|].
  constructor; [|constructor].
  pose proof (getImageData_bytes canvas
                (Z.max 0 (JS.round (rect_x rect)))
                (Z.max 0 (JS.round (rect_y rect)))
                (Z.min (JS.round (rect_width rect))
                       (canvas_width canvas - Z.max 0 (JS.round (rect_x rect))))
                (Z.min (JS.round (rect_height rect))
                       (canvas_height canvas - Z.max 0 (JS.round (rect_y rect))))
                Hb) as Hdata.
  unfold byteColor. cbn [rgb_r rgb_g rgb_b].
  repeat split; apply at_byte; exact Hdata.
Qed.

(** The mean of a non-empty array lies between any bounds of its
    elements. *)
Lemma mean_between (xs : list Z) (lo hi : Z) :
  xs <> [] -> Forall (fun v => lo <= v <= hi) xs ->
  (inject_Z lo <= JS.mean xs <= inject_Z hi)%Q.
Proof.
  intros Hne Hall.
  assert (Hsum : lo * JS.len xs <= JS.sum xs <= hi * JS.len xs).
  { clear Hne. induction Hall as [|x rest Hx _ IH].
    - rewrite len_nil. unfold JS.sum. simpl. lia.
    - rewrite sum_cons, len_cons. lia. }
  assert (Hpos : 0 < JS.len xs).
  { pose proof (len_nonneg xs). destruct (Z.eq_dec (JS.len xs) 0) as [E|]; [|lia].
    apply len_zero in E. contradiction. }
  unfold JS.mean.
  assert (Ht : (0 < inject_Z (JS.len xs))%Q).
  { change 0%Q with (inject_Z 0). now rewrite <- Zlt_Qlt. }
  split.
  - apply Qle_shift_div_l; [exact Ht|].
    rewrite <- inject_Z_mult, <- Zle_Qle. lia.
  - apply Qle_shift_div_r; [exact Ht|].
    rewrite <- inject_Z_mult, <- Zle_Qle. lia.
Qed.

Lemma remainder_incl (values : list Z) (v : Z) :
  In v (Spec.remainder values) -> In v values.
Proof.
  unfold Spec.remainder, JS.slice. cbv zeta. intros H.
  apply PatternFacts.firstn_In in H.
  assert (Hs : In v (JS.sort (fun a b => a - b) values)).
  { clear -H. revert H. generalize (JS.sort (fun a b => a - b) values).
    generalize (Z.to_nat (JS.len values / 10)).
    induction n as [|n IH]; intros [|x rest]; simpl; try tauto.
    intros Hin. right. now apply IH. }
  eapply Permutation_in; [apply Permutation_sym, sort_perm | exact Hs].
Qed.

(** The trimmed mean of a non-empty array lies between the smallest and
    the largest of its values. *)
Theorem _trimmedMean_between (values : list Z) :
  values <> [] ->
  JS.minimum values <= _trimmedMean values <= JS.maximum values.
Proof.
  intros Hne. rewrite (TrimmedMeanFacts._trimmedMean_unfold values Hne).
  destruct (maximum_spec values Hne) as [_ Hmax].
  destruct (minimum_spec values Hne) as [_ Hmin].
  rewrite Forall_forall in Hmax, Hmin.
  assert (Hr : Spec.remainder values <> []).
  { intros E. pose proof (TrimmedMeanFacts.remainder_nonempty values Hne) as P.
    rewrite E in P. unfold JS.len in P. simpl in P. lia. }
  destruct (mean_between (Spec.remainder values) (JS.minimum values)
              (JS.maximum values) Hr) as [Hlo Hhi].
  { apply Forall_forall. intros v Hv. apply remainder_incl in Hv.
    split; [now apply Hmin | now apply Hmax]. }
  apply round_between; assumption.
Qed.

Lemma _trimmedMean_between_witness :
  JS.minimum [10; 200; 30] <= _trimmedMean [10; 200; 30]
  <= JS.maximum [10; 200; 30].
Proof. apply _trimmedMean_between. discriminate. Defined.

Lemma _trimmedMean_byte (values : list Z) :
  Forall isByte values -> isByte (_trimmedMean values).
Proof.
  intros Hall. destruct values as [|v rest].
  - vm_compute. split; discriminate.
  - rewrite (TrimmedMeanFacts._trimmedMean_unfold (v :: rest)) by discriminate.
    assert (Hr : Spec.remainder (v :: rest) <> []).
    { intros E.
      pose proof (TrimmedMeanFacts.remainder_nonempty (v :: rest)
                    ltac:(discriminate)) as P.
      rewrite E in P. unfold JS.len in P. simpl in P. lia. }
    destruct (mean_between (Spec.remainder (v :: rest)) 0 255 Hr) as [Hlo Hhi].
    { apply Forall_forall. intros x Hx. apply remainder_incl in Hx.
      rewrite Forall_forall in Hall. now apply Hall. }
    apply round_between; assumption.
Qed.

(** Adding a pixel to the [Map] adds one to the counts and keeps every
    bucket non-empty. *)
Lemma addPixel_counts (acc : list (Key * Bucket)) (k : Key) (px : RGB) :
  Forall (fun kb => 1 <= count (snd kb)) acc ->
  Forall (fun kb => 1 <= count (snd kb)) (addPixel acc k px) /\
  JS.sum (map (fun kb => count (snd kb)) (addPixel acc k px))
  = JS.sum (map (fun kb => count (snd kb)) acc) + 1.
Proof.
  induction acc as [|[k' b] rest IH]; intros Hall; cbn [addPixel].
  - split; [repeat constructor; cbn; lia|]. reflexivity.
  - inversion Hall as [|? ? Hb Hrest]; subst. cbn [snd] in Hb.
    destruct (key_eqb k' k).
    + split; [constructor; [cbn; lia | exact Hrest]|].
      cbn [map snd count]. rewrite !sum_cons. lia.
    + destruct (IH Hrest) as [IH1 IH2].
      split; [constructor; [exact Hb | exact IH1]|].
      cbn [map snd]. rewrite !sum_cons, IH2. lia.
Qed.

Lemma addPixel_bytes (acc : list (Key * Bucket)) (k : Key) (px : RGB) :
  byteColor px ->
  Forall (fun kb => byteBucket (snd kb)) acc ->
  Forall (fun kb => byteBucket (snd kb)) (addPixel acc k px).
Proof.
  intros (Hr & Hg & Hb). unfold isByte in *.
  induction acc as [|[k' b] rest IH]; intros Hall; cbn [addPixel].
  - repeat constructor; cbn; lia.
  - inversion Hall as [|? ? Hbk Hrest]; subst. cbn [snd] in Hbk.
    destruct (key_eqb k' k).
    + constructor; [|exact Hrest]. unfold byteBucket in *.
      cbn [snd count totalR totalG totalB]. lia.
    + constructor; [exact Hbk | now apply IH].
Qed.

Section Buckets.
Variable key : RGB -> Key.


Lemma buckets_bytes (pixels : list RGB) (acc : list (Key * Bucket)) :
  Forall byteColor pixels ->
  Forall (fun kb => byteBucket (snd kb)) acc ->
  Forall (fun kb => byteBucket (snd kb))
         (fold_left (fun acc px => addPixel acc (key px) px) pixels acc).
Proof.
  intros Hpx. revert acc.
  induction Hpx as [|px rest Hp _ IH]; intros acc Hall; cbn [fold_left].
  - exact Hall.
  - apply IH. now apply addPixel_bytes.
Qed.

End Buckets.

(** The buckets that are kept are buckets of the [Map]. *)
Lemma top_In (bs : list Bucket) (n : Z) (b : Bucket) :
  In b (JS.slice 0 n (JS.sort (fun a b => count b - count a) bs)) -> In b bs.
Proof.
  unfold JS.slice. cbn [Z.to_nat skipn]. intros H.
  apply PatternFacts.firstn_In in H.
  eapply Permutation_in; [apply Permutation_sym, sort_perm | exact H].
Qed.






Lemma bucket_mean_byte (t c : Z) :
  1 <= c -> 0 <= t <= 255 * c -> isByte (JS.round (inject_Z t / inject_Z c)).
Proof.
  intros Hc Ht.
  assert (Hq : (0 < inject_Z c)%Q).
  { change 0%Q with (inject_Z 0). rewrite <- Zlt_Qlt. lia. }
  apply round_between.
  - apply Qle_shift_div_l; [exact Hq|].
    rewrite <- inject_Z_mult, <- Zle_Qle. lia.
  - apply Qle_shift_div_r; [exact Hq|].
    rewrite <- inject_Z_mult, <- Zle_Qle. lia.
Qed.

Lemma _getDominantFromPixels_bytes (pixels : list RGB) :
  Forall byteColor pixels -> byteColor (_getDominantFromPixels pixels).
Proof.
  intros Hall. unfold _getDominantFromPixels.
  destruct (JS.len pixels =? 0).
  { unfold byteColor, isByte. cbn [rgb_r rgb_g rgb_b]. lia. }
  cbv zeta. unfold byteColor. cbn [rgb_r rgb_g rgb_b].
  split; [|split]; apply _trimmedMean_byte, Forall_map;
    (eapply Forall_impl; [|exact Hall]); intros px (Hr & Hg & Hb); assumption.
Qed.

Lemma _getDominantColors_bytes (pixels : list RGB) (n : Z) :
  Forall byteColor pixels ->
  Forall (fun d => byteColor (dom_rgb d) /\ hslInRange (dom_hsl d))
         (_getDominantColorsFromPixels pixels n).
Proof.
  intros Hpx. unfold _getDominantColorsFromPixels.
  destruct (JS.len pixels =? 0); [constructor|]. cbv zeta.
  set (key := fun px : RGB =>
                (Z.shiftr (rgb_r px) 4, Z.shiftr (rgb_g px) 4,
                 Z.shiftr (rgb_b px) 4)).
  change (fold_left _ pixels []) with
    (fold_left (fun acc px => addPixel acc (key px) px) pixels []).
  pose proof (buckets_bytes key pixels [] Hpx ltac:(constructor)) as Hall.
  apply Forall_map, Forall_forall. intros b Hb. apply top_In in Hb.
  apply in_map_iff in Hb. destruct Hb as (kb & <- & Hkb).
  rewrite Forall_forall in Hall. destruct (Hall kb Hkb) as (Hc & Hr & Hg & Hbl).
  cbn [dom_rgb dom_hsl rgb_r rgb_g rgb_b].
  assert (Hrgb : isByte (JS.round (inject_Z (totalR (snd kb)) / inject_Z (count (snd kb))))
                 /\ isByte (JS.round (inject_Z (totalG (snd kb)) / inject_Z (count (snd kb))))
                 /\ isByte (JS.round (inject_Z (totalB (snd kb)) / inject_Z (count (snd kb))))).
  { split; [|split]; now apply bucket_mean_byte. }
  split; [exact Hrgb|]. destruct Hrgb as (? & ? & ?). now apply rgbToHsl_bytes.
Qed.

(** On a canvas of bytes, the record of every zone holds a colour whose
    channels are bytes, with a hue of at most 360 and a saturation and a
    lightness of at most 100; the skin filter never leaves more pixels
    than were sampled; and there are at most three dominant colours,
    each again a colour of bytes. *)
Theorem extractZoneColor_bytes (canvas : Canvas) (zone : Zone) :
  byteCanvas canvas ->
  byteColor (zc_rgb (extractZoneColor canvas zone)) /\
  hslInRange (zc_hsl (extractZoneColor canvas zone)) /\
  0 <= filteredCount (extractZoneColor canvas zone)
    <= pixelCount (extractZoneColor canvas zone) /\
  JS.len (dominantColors (extractZoneColor canvas zone)) <= 3 /\
  Forall (fun d => byteColor (dom_rgb d) /\ hslInRange (dom_hsl d))
         (dominantColors (extractZoneColor canvas zone)).
Proof.
  intros Hcanvas. unfold extractZoneColor. cbv zeta.
  cbn [zc_rgb zc_hsl filteredCount pixelCount dominantColors].
  pose proof (_getPixelData_bytes canvas (sampledRect zone) Hcanvas) as Hpx.
  set (pixelData := _getPixelData canvas (sampledRect zone)) in *.
  assert (Hf : Forall byteColor (_rejectSkinPixels pixelData)).
  { unfold _rejectSkinPixels. apply Forall_forall. intros px Hin.
    apply filter_In in Hin. rewrite Forall_forall in Hpx. now apply Hpx. }
  assert (Hchosen :
    Forall byteColor
      (if 0 <? JS.len (_rejectSkinPixels pixelData)
       then _rejectSkinPixels pixelData else pixelData)).
  { destruct (0 <? _); assumption. }
  pose proof (_getDominantFromPixels_bytes _ Hchosen) as Hdom.
  split; [exact Hdom|]. split.
  { destruct Hdom as (? & ? & ?). now apply rgbToHsl_bytes. }
  split.
  { split; [apply len_nonneg | apply len_filter_le]. }
  split; [|now apply _getDominantColors_bytes].
  unfold _getDominantColorsFromPixels. destruct (_ =? 0); [rewrite len_nil; lia|].
  cbv zeta. rewrite len_map. unfold JS.len, JS.slice.
  rewrite length_firstn. lia.
Qed.

Lemma extractZoneColor_bytes_witness :
  byteColor
    (zc_rgb
       (extractZoneColor
          (mkCanvas 8 8 (fun _ _ => (200, 30, 30, 255)))
          (mkZone (mkRect 0 0 8 8) None))).
Proof.
  refine (proj1 (extractZoneColor_bytes
                   (mkCanvas 8 8 (fun _ _ => (200, 30, 30, 255)))
                   (mkZone (mkRect 0 0 8 8) None) _)).
  intros x y. cbn [canvas_pixel fst snd]. unfold isByte. lia.
Defined.

End PixelFacts.

(* ================================================================== *)
(** * Confidence and mood                                              *)
(* ================================================================== *)

Module SignalFacts.
Import ColorAnalysis Num NumFacts Scoring Signals.
Local Open Scope R_scope.



(** Far from the centre the bell is low: a value below 20 earns less
    than 51 hundredths of the curve centred at 55 with spread 25. *)
Lemma bell_low (v : R) :
  v < 20 ->
  exists y : R,
    _bellCurve (Fin v) (Fin 55) (Fin 25) = Fin y /\ 0 < y <= 51 / 100.
Proof.
  intros Hv. unfold _bellCurve, sub, neg, add.
  rewrite (div_fin _ 25) by rlra. unfold sqr, mul, exp.
  eexists. split; [reflexivity|]. split; [apply exp_pos|].
  match goal with
  | |- context [Rtrigo_def.exp (_ * (?t * ?t))] =>
      assert (Hq : t < - (14 / 10)) by rlra;
      generalize dependent t; intros q Hq
  end.
  assert (Hp : 0 < (- q - 14 / 10) * (- q + 14 / 10))
    by (apply Rmult_lt_0_compat; rlra).
  assert (Hqq : 196 / 100 < q * q) by rlra.
  assert (H1 : Rtrigo_def.exp (-0.5 * (q * q)) <= Rtrigo_def.exp (- (98 / 100))).
  { left. apply exp_increasing. rlra. }
  assert (H2 : 1 + 98 / 100 < Rtrigo_def.exp (98 / 100))
    by (apply exp_ineq1; rlra).
  assert (H3 : Rtrigo_def.exp (- (98 / 100)) = / Rtrigo_def.exp (98 / 100))
    by apply exp_Ropp.
  assert (H4 : / Rtrigo_def.exp (98 / 100) < / (1 + 98 / 100)).
  { apply Rinv_lt_contravar; [|exact H2].
    apply Rmult_lt_0_compat; [rlra | apply exp_pos]. }
  assert (H5 : / (1 + 98 / 100) <= 51 / 100) by rlra.
  eapply Rle_trans; [exact H1|]. rewrite H3. left.
  eapply Rlt_le_trans; [exact H4 | exact H5].
Qed.

Lemma bell_saturation (s : R) :
  exists y : R,
    _bellCurve (Fin s) (Fin 55) (Fin 25) = Fin y /\ 0 < y <= 1 /\
    (s < 20 -> y <= 51 / 100).
Proof.
  destruct (bell_fin s 55 25 ltac:(rlra)) as (y & E & Hy).
  exists y. split; [exact E|]. split; [exact Hy|].
  intros Hs. destruct (bell_low s Hs) as (y' & E' & Hy').
  rewrite E in E'. injection E' as <-. apply Hy'.
Qed.

Lemma avgLight_finite (colors : list Color) :
  colors <> [] -> finite (avgLight colors).
Proof.
  intros Hne. unfold avgLight.
  rewrite <- (map_map (fun c => hsl_l (hsl c)) ofZ).
  destruct (sum_finite (map (fun c => hsl_l (hsl c)) colors)) as [x ->].
  unfold ofZ. rewrite div_fin by (now apply IZR_len_nonzero).
  eexists. reflexivity.
Qed.

Lemma squares_from (a : R) (colors : list Color) (init : R) :
  0 <= init ->
  exists t : R,
    fold_left
      (fun s c => add s (sqr (sub (ofZ (hsl_l (hsl c))) (Fin a))))
      colors (Fin init) = Fin t /\ 0 <= t.
Proof.
  revert init. induction colors as [|c rest IH]; intros init Hinit.
  - exists init. split; [reflexivity | exact Hinit].
  - cbn [fold_left]. unfold ofZ, sub, neg, add at 2, sqr, mul. unfold add at 2.
    apply IH.
    pose proof (Rle_0_sqr (IZR (hsl_l (hsl c)) + - a)) as H.
    unfold Rsqr in H. rlra.
Qed.

(** The standard deviation of the lightnesses is a real number. *)
Lemma lightDeviation_finite (colors : list Color) :
  colors <> [] -> finite (lightDeviation colors).
Proof.
  intros Hne. unfold lightDeviation.
  destruct (avgLight_finite colors Hne) as [a ->].
  destruct (squares_from a colors 0 ltac:(rlra)) as (t & -> & Ht).
  pose proof (IZR_len_nonzero colors Hne) as Hlen.
  unfold ofZ. rewrite div_fin by exact Hlen.
  unfold sqrt.
  assert (Hpos : 0 < IZR (JS.len colors)).
  { pose proof (JSFacts.len_nonneg colors) as H0. apply IZR_le in H0. rlra. }
  assert (Hq : 0 <= t / IZR (JS.len colors)).
  { apply Rmult_le_pos; [exact Ht|]. left. now apply Rinv_0_lt_compat. }
  destruct (Rlt_dec (t / IZR (JS.len colors)) 0) as [H|_]; [rlra|].
  eexists. reflexivity.
Qed.

(** The share of the larger camp among two colours or more. *)
Lemma dominance_unit (m n : Z) :
  (0 <= m <= n)%Z -> (2 <= n)%Z ->
  exists d : R, div (ofZ m) (ofZ n) = Fin d /\ 0 <= d <= 1.
Proof.
  intros [H0 H1] Hn. unfold ofZ.
  assert (Hpos : 0 < IZR n) by (apply IZR_lt; lia).
  rewrite div_fin by rlra. eexists. split; [reflexivity|].
  apply IZR_le in H0, H1. split.
  - apply Rmult_le_pos; [exact H0|]. left. now apply Rinv_0_lt_compat.
  - apply (Rmult_le_reg_r (IZR n)); [exact Hpos|].
    unfold Rdiv. rewrite Rmult_assoc, Rinv_l, Rmult_1_r, Rmult_1_l by rlra.
    exact H1.
Qed.

(** The six factors of the confidence add up to a real number above 4
    and at most 97. *)
Lemma confidenceSum_range (colors : list Color) :
  colors <> [] ->
  exists x : R, confidenceSum colors = Fin x /\ 4 < x <= 97.
Proof.
  intros Hne. unfold confidenceSum. cbv zeta.
  (* factor 1 *)
  assert (F1 : exists f1 : R,
             (if (0 <? JS.len (map ofZ (_pairwiseContrasts colors)))%Z
              then add (Fin 0)
                     (mul (_bellCurve
                             (div (sum (map ofZ (_pairwiseContrasts colors)))
                                  (ofZ (JS.len (map ofZ (_pairwiseContrasts colors)))))
                             (Fin 40) (Fin 20)) (Fin 25))
              else Fin 0) = Fin f1 /\ 0 <= f1 <= 25).
  { destruct (Z.ltb_spec 0 (JS.len (map ofZ (_pairwiseContrasts colors))))
      as [Hpos|_].
    - destruct (sum_finite (_pairwiseContrasts colors)) as [x ->].
      unfold ofZ at 1. rewrite div_fin.
      2:{ intros E. apply eq_IZR_R0 in E. lia. }
      destruct (bell_fin (x / IZR (JS.len (map ofZ (_pairwiseContrasts colors))))
                  40 20 ltac:(rlra)) as (y & -> & Hy).
      unfold mul, add. eexists. split; [reflexivity|]. rlra.
    - exists 0. split; [reflexivity | rlra]. }
  destruct F1 as (f1 & -> & Hf1).
  destruct (ScoreFacts.avgSat_finite colors Hne) as [s ->].
  destruct (bell_saturation s) as (y2 & -> & Hy2 & Hlow).
  destruct (avgLight_finite colors Hne) as [l ->].
  destruct (lightDeviation_finite colors Hne) as [d ->].
  destruct (bell_fin d 15 12 ltac:(rlra)) as (y3 & -> & Hy3).
  (* factor 5 *)
  set (chrom := filter (fun c => negb (_isNeutral c)) colors).
  set (w := JS.len (filter (fun c => _isWarmHue (hsl_h (hsl c))) chrom)).
  set (c := JS.len (filter (fun c => _isCoolHue (hsl_h (hsl c))) chrom)).
  assert (Hw : (0 <= w <= JS.len chrom)%Z)
    by (split; [apply JSFacts.len_nonneg | apply ArrayFacts.len_filter_le]).
  assert (Hc : (0 <= c <= JS.len chrom)%Z)
    by (split; [apply JSFacts.len_nonneg | apply ArrayFacts.len_filter_le]).
  assert (Ha : forall a b : R, add (Fin a) (Fin b) = Fin (a + b))
    by reflexivity.
  assert (Hm : forall a b : R, mul (Fin a) (Fin b) = Fin (a * b))
    by reflexivity.
  assert (F5 : exists f5 : R,
             (if (2 <=? JS.len chrom)%Z
              then mul (div (ofZ (Z.max w c)) (ofZ (JS.len chrom))) (Fin 15)
              else mul (Fin 15) (Fin 0.8)) = Fin f5 /\ 0 <= f5 <= 15).
  { destruct (Z.leb_spec 2 (JS.len chrom)) as [H2|_].
    - destruct (dominance_unit (Z.max w c) (JS.len chrom) ltac:(lia) H2)
        as (dm & -> & Hdm).
      rewrite Hm. eexists. split; [reflexivity|]. rlra.
    - rewrite Hm. eexists. split; [reflexivity|]. rlra. }
  destruct F5 as (f5 & E5 & Hf5).
  destruct (2 <=? JS.len chrom)%Z; rewrite E5; clear E5;
    clearbody w c chrom; unfold ltb;
    repeat match goal with
           | |- context [if ?b then _ else _] =>
               lazymatch b with
               | context [if _ then _ else _] => fail
               | _ => destruct b; cbn [andb]; cbv iota
               end
           end;
    rewrite ?Ha, ?Hm;
    eexists; (split; [reflexivity|]);
    try (assert (y2 <= 51 / 100) by (apply Hlow; assumption));
    rlra.
Qed.

(** [calculateConfidence] of one colour or more is an integer between
    4 and 97: the clamp to [0, 100] is never needed, and no outfit is
    given a confidence above 97, since the full darkness bonus needs a
    saturation that costs more than it brings. *)
Theorem calculateConfidence_range (colors : list Color) :
  colors <> [] ->
  exists t : Z, calculateConfidence colors = ofZ t /\ (4 <= t <= 97)%Z.
Proof.
  intros Hne. unfold calculateConfidence.
  destruct (Z.eqb_spec (JS.len colors) 0) as [E|_].
  { apply JSFacts.len_zero in E. contradiction. }
  destruct (confidenceSum_range colors Hne) as (x & -> & Hx).
  rewrite round_fin.
  change (Fin 0) with (ofZ 0). change (Fin 100) with (ofZ 100).
  rewrite min_ofZ, max_ofZ. eexists. split; [reflexivity|].
  assert (H : (5 <= Zfloor (x + 0.5) + 1 <= 98)%Z); [|lia].
  assert (H4 : (4 <= Zfloor (x + 0.5) <= 97)%Z)
    by (apply Zfloor_half_between; rlra).
  lia.
Qed.

Lemma calculateConfidence_range_witness :
  exists t : Z,
    calculateConfidence [ofHsl 220 60 20; ofHsl 0 0 95; ofHsl 30 40 45] = ofZ t /\
    (4 <= t <= 97)%Z.
Proof. apply calculateConfidence_range. discriminate. Defined.

End SignalFacts.

Module MoodFacts.
Import ColorAnalysis Scoring Signals JSFacts ArrayFacts.

(** The average saturation of neutrals is at most 11. *)
Lemma neutral_saturation (colors : list Color) :
  colors <> [] -> forallb _isNeutral colors = true ->
  (JS.mean (map (fun c => hsl_s (hsl c)) colors) <= 11)%Q.
Proof.
  intros Hne Hall.
  assert (Hs : map (fun c => hsl_s (hsl c)) colors <> []).
  { intros E. apply map_eq_nil in E. contradiction. }
  destruct (minimum_spec _ Hs) as [_ Hmin].
  apply (PixelFacts.mean_between _
           (JS.minimum (map (fun c => hsl_s (hsl c)) colors)) 11 Hs).
  rewrite Forall_forall in *. intros v Hv. split; [now apply Hmin|].
  apply in_map_iff in Hv. destruct Hv as (c & <- & Hc).
  rewrite forallb_forall in Hall. specialize (Hall c Hc).
  unfold _isNeutral in Hall. apply Z.ltb_lt in Hall. lia.
Qed.

(** An outfit of neutrals only has one of three moods, and its average
    lightness decides which: 'Dark / Edgy' below 18, 'Monochrome
    Minimal' from 18 to 75, 'Neutral / Classic' above 75. *)
Theorem detectMood_all_neutral (colors : list Color) :
  colors <> [] -> forallb _isNeutral colors = true ->
  detectMood colors
  = if JS.Qltb (JS.mean (map (fun c => hsl_l (hsl c)) colors)) 18
    then mkMood "Dark / Edgy" "🖤"
    else if Qle_bool (JS.mean (map (fun c => hsl_l (hsl c)) colors)) 75
    then mkMood "Monochrome Minimal" "🤍"
    else mkMood "Neutral / Classic" "🎯".
Proof.
  intros Hne Hall. unfold detectMood.
  destruct (Z.eqb_spec (JS.len colors) 0) as [E|_].
  { apply len_zero in E. contradiction. }
  cbv zeta.
  pose proof (neutral_saturation colors Hne Hall) as Hs.
  rewrite (filter_true _ _ Hall), (filter_none _ _ Hall), Z.eqb_refl.
  set (S := JS.mean (map (fun c => hsl_s (hsl c)) colors)) in *.
  set (L := JS.mean (map (fun c => hsl_l (hsl c)) colors)).
  assert (E1 : JS.Qltb S 20 = true) by (apply Qltb_true; qlra).
  assert (E2 : JS.Qltb 55 S = false) by (apply Qltb_false; qlra).
  assert (E3 : Qle_bool 20 S = false).
  { apply not_true_is_false. intros H. apply Qle_bool_iff in H. qlra. }
  assert (E4 : Qle_bool 15 S = false).
  { apply not_true_is_false. intros H. apply Qle_bool_iff in H. qlra. }
  assert (E5 : JS.Qltb 40 S = false) by (apply Qltb_false; qlra).
  assert (E6 : JS.Qltb S 25 = true) by (apply Qltb_true; qlra).
  assert (E7 : JS.Qltb S 15 = true) by (apply Qltb_true; qlra).
  rewrite E1, E2, E3, E4, E5, E6, E7.
  change (JS.len (map (fun c => hsl_h (hsl c)) [])) with 0.
  cbn [andb orb Z.leb Z.compare].
  rewrite !andb_false_r. cbn [andb].
  destruct (JS.Qltb L 18) eqn:A1; [reflexivity|]. cbn [andb].
  apply Qltb_false in A1.
  destruct (Qle_bool 18 L) eqn:A2.
  2:{ exfalso. apply not_true_iff_false in A2. apply A2, Qle_bool_iff, A1. }
  cbn [andb].
  destruct (Qle_bool L 75) eqn:A3; [reflexivity|].
  assert (A4 : (75 < L)%Q).
  { apply Qnot_le_lt. intros H. apply Qle_bool_iff in H. congruence. }
  assert (A5 : JS.Qltb L 70 = false) by (apply Qltb_false; qlra).
  rewrite A5, !andb_false_r. reflexivity.
Qed.

Lemma detectMood_all_neutral_witness :
  detectMood [ofHsl 0 0 10; ofHsl 0 5 95; ofHsl 210 8 40]
  = mkMood "Monochrome Minimal" "🤍".
Proof.
  rewrite detectMood_all_neutral; [reflexivity | discriminate | reflexivity].
Defined.

End MoodFacts.

(* ================================================================== *)
(** * The score of an analysed outfit                                  *)
(* ================================================================== *)

Module OutfitFacts.
Import ColorAnalysis Num NumFacts Scoring JSFacts ArrayFacts.
Local Open Scope R_scope.

(** The harmony that [analyzeHarmony] finds earns between 10 and 29
    points. *)
Lemma harmonyPoints_of_analysis (colors : list Color) :
  exists p : Z,
    harmonyPoints (analyzeHarmony colors) = ofZ p /\ (10 <= p <= 29)%Z.
Proof.
  pose proof (HarmonyFacts.analyzeHarmony_score_range colors) as [H0 H1].
  unfold harmonyPoints, ofZ, mul. rewrite round_fin.
  eexists. split; [reflexivity|].
  apply IZR_le in H0, H1.
  set (x := IZR (harmony_score (analyzeHarmony colors))) in *.
  split.
  - apply Zfloor_lub. rlra.
  - pose proof (Zfloor_bound (x * 0.30 + 0.5)) as [Hb _].
    assert (H : IZR (Zfloor (x * 0.30 + 0.5)) < IZR 30) by rlra.
    apply lt_IZR in H. lia.
Qed.

(** Analysed and scored, an outfit of one colour or more gets a total
    that is the plain sum of its six points, between 19 and 99: the
    clamp to [0, 100] is never needed and a score of 100 is out of
    reach. *)
Theorem outfit_score_range (colors : list Color) :
  colors <> [] ->
  exists pts : list Z,
    map points (breakdown (calculateOutfitScore colors (analyzeHarmony colors)))
    = map ofZ pts /\
    total (calculateOutfitScore colors (analyzeHarmony colors))
    = ofZ (JS.sum pts) /\
    (19 <= JS.sum pts <= 99)%Z.
Proof.
  intros Hne.
  destruct (harmonyPoints_of_analysis colors) as (p1 & E1 & B1).
  destruct (ScoreFacts.contrastPoints_integer colors) as (p2 & E2 & B2).
  destruct (ScoreFacts.intensityPoints_integer colors Hne) as (p3 & E3 & B3).
  pose proof (ScoreFacts.coherencePoints_range colors) as B4.
  pose proof (ScoreFacts.anchorPoints_range colors) as B5.
  pose proof (ScoreFacts.polishPoints_range colors (analyzeHarmony colors)) as B6.
  exists [p1; p2; p3; coherencePoints colors; anchorPoints colors;
          polishPoints colors (analyzeHarmony colors)].
  unfold calculateOutfitScore. cbv zeta. cbn [total breakdown map points].
  rewrite E1, E2, E3.
  assert (Hsum :
    JS.sum [p1; p2; p3; coherencePoints colors; anchorPoints colors;
            polishPoints colors (analyzeHarmony colors)]
    = (0 + p1 + p2 + p3 + coherencePoints colors + anchorPoints colors
       + polishPoints colors (analyzeHarmony colors))%Z) by reflexivity.
  split; [reflexivity|]. split; [|rewrite Hsum; lia].
  change (Fin 0) with (ofZ 0). change (Fin 100) with (ofZ 100).
  rewrite !add_ofZ, round_ofZ, min_ofZ, max_ofZ, Hsum. f_equal. lia.
Qed.

Lemma outfit_score_range_witness :
  exists pts : list Z,
    map points
        (breakdown
           (calculateOutfitScore
              [ofHsl 220 60 25; ofHsl 0 0 95; ofHsl 30 45 40]
              (analyzeHarmony [ofHsl 220 60 25; ofHsl 0 0 95; ofHsl 30 45 40])))
    = map ofZ pts /\
    total
      (calculateOutfitScore
         [ofHsl 220 60 25; ofHsl 0 0 95; ofHsl 30 45 40]
         (analyzeHarmony [ofHsl 220 60 25; ofHsl 0 0 95; ofHsl 30 45 40]))
    = ofZ (JS.sum pts) /\
    (19 <= JS.sum pts <= 99)%Z.
Proof. apply outfit_score_range. discriminate. Defined.

(** The two engines disagree on greens.  For an outfit of two or more
    chromatic colours with hues from 70 up to 170, [analyzeTemperature]
    counts every colour as cool and finds the outfit perfectly coherent,
    while the score counts none of them as warm or as cool and gives
    the lowest points for coherence. *)
Theorem green_outfit_coherence (colors : list Color) :
  (2 <= JS.len colors)%Z ->
  forallb (fun c => negb (isNeutral c)
                    && (70 <=? hsl_h (hsl c))%Z && (hsl_h (hsl c) <? 170)%Z)
          colors = true ->
  dominant (analyzeTemperature colors) = "cool"%string /\
  (coherence (analyzeTemperature colors) == 1)%Q /\
  coherencePoints colors = 4%Z.
Proof.
  intros Hlen Hall. rewrite forallb_forall in Hall.
  assert (Hc : forall c, In c colors ->
                 isNeutral c = false /\ (70 <= hsl_h (hsl c) < 170)%Z).
  { intros c Hin. specialize (Hall c Hin).
    apply andb_true_iff in Hall as [Hall H3].
    apply andb_true_iff in Hall as [H1 H2].
    apply negb_true_iff in H1. apply Z.leb_le in H2. apply Z.ltb_lt in H3.
    split; [exact H1 | lia]. }
  assert (Hcool : filter (fun c => String.eqb (getTemperature c) "cool") colors
                  = colors).
  { apply filter_true, forallb_forall. intros c Hin.
    destruct (Hc c Hin) as [Hn Hh]. unfold getTemperature. rewrite Hn.
    unfold isWarmHue.
    destruct (Z.ltb_spec (hsl_h (hsl c)) 70); [lia|].
    destruct (Z.leb_spec 300 (hsl_h (hsl c))); [lia|].
    rewrite andb_false_r. reflexivity. }
  assert (Hwarm : filter (fun c => String.eqb (getTemperature c) "warm") colors
                  = []).
  { apply filter_false, forallb_forall. intros c Hin.
    destruct (Hc c Hin) as [Hn Hh]. unfold getTemperature. rewrite Hn.
    unfold isWarmHue.
    destruct (Z.ltb_spec (hsl_h (hsl c)) 70); [lia|].
    destruct (Z.leb_spec 300 (hsl_h (hsl c))); [lia|].
    rewrite andb_false_r. reflexivity. }
  assert (Hpos : (0 < JS.len colors)%Z) by lia.
  split; [|split].
  - unfold analyzeTemperature. rewrite PaletteFacts.temperature_fold.
    rewrite Hcool, Hwarm. change (JS.len (@nil Color)) with 0%Z.
    rewrite !Z.add_0_l. cbn [dominant].
    destruct (Z.ltb_spec (JS.len colors) 0); [lia|].
    destruct (Z.ltb_spec 0 (JS.len colors)); [reflexivity | lia].
  - unfold analyzeTemperature. rewrite PaletteFacts.temperature_fold.
    rewrite Hcool, Hwarm. change (JS.len (@nil Color)) with 0%Z.
    rewrite !Z.add_0_l. cbn [coherence].
    destruct (Z.ltb_spec 0 (JS.len colors)); [|lia].
    rewrite Z.max_r by lia. apply Qmult_inv_r.
    intros E. unfold Qeq in E. cbn [Qnum Qden inject_Z] in E. lia.
  - assert (Hchrom : chromaticColors colors = colors).
    { apply filter_true, forallb_forall. intros c Hin.
      destruct (Hc c Hin) as [Hn _]. unfold _isNeutral.
      unfold isNeutral in Hn.
      destruct (Z.ltb_spec (hsl_s (hsl c)) 12); [discriminate | reflexivity]. }
    assert (Hw : warmCount colors = 0%Z).
    { unfold warmCount. rewrite filter_false; [reflexivity|].
      apply forallb_forall. intros c Hin. destruct (Hc c Hin) as [_ Hh].
      unfold _isWarmHue.
      destruct (Z.ltb_spec (hsl_h (hsl c)) 70); [lia|].
      destruct (Z.leb_spec 300 (hsl_h (hsl c))); [lia|].
      rewrite andb_false_r. reflexivity. }
    assert (Hk : coolCount colors = 0%Z).
    { unfold coolCount. rewrite filter_false; [reflexivity|].
      apply forallb_forall. intros c Hin. destruct (Hc c Hin) as [_ Hh].
      unfold _isCoolHue.
      destruct (Z.leb_spec 170 (hsl_h (hsl c))); [lia | reflexivity]. }
    unfold coherencePoints. cbv zeta. rewrite Hchrom, Hw, Hk.
    destruct (Z.leb_spec 2 (JS.len colors)); [|lia].
    change (Z.max 0 0) with 0%Z. unfold ofZ.
    rewrite div_fin by (apply not_0_IZR; lia).
    unfold eqb, leb.
    assert (Hz : 0 / IZR (JS.len colors) = 0) by (unfold Rdiv; ring).
    rewrite Hz.
    destruct (Req_dec_T 0 1) as [E|_]; [rlra|].
    destruct (Rle_dec 0.66 0) as [E|_]; [rlra | reflexivity].
Qed.

Lemma green_outfit_coherence_witness :
  dominant (analyzeTemperature [ofHsl 90 50 40; ofHsl 140 60 30])
  = "cool"%string /\
  (coherence (analyzeTemperature [ofHsl 90 50 40; ofHsl 140 60 30]) == 1)%Q /\
  coherencePoints [ofHsl 90 50 40; ofHsl 140 60 30] = 4%Z.
Proof.
  apply green_outfit_coherence; [unfold JS.len; simpl; lia | reflexivity].
Defined.

End OutfitFacts.

(* ================================================================== *)
(** * The confidence of a zone's colour                                *)
(* ================================================================== *)

Module ZoneConfidenceFacts.
Import ColorAnalysis Num NumFacts ZoneConfidence.
Local Open Scope R_scope.

(** The distance of two colours is a real number that is not
    negative. *)
Lemma distance_fin (px dominantColor : RGB) :
  exists d : R, distance px dominantColor = Fin d /\ 0 <= d.
Proof.
  unfold distance, ofZ, sqr, mul, add, sqrt.
  set (r := IZR (rgb_r px - rgb_r dominantColor)).
  set (g := IZR (rgb_g px - rgb_g dominantColor)).
  set (b := IZR (rgb_b px - rgb_b dominantColor)).
  pose proof (Rle_0_sqr r) as Hr. pose proof (Rle_0_sqr g) as Hg.
  pose proof (Rle_0_sqr b) as Hb. unfold Rsqr in *.
  destruct (Rlt_dec (r * r + g * g + b * b) 0) as [H|_]; [rlra|].
  eexists. split; [reflexivity | apply sqrt_pos].
Qed.

Lemma totalDist_fin (sample : list RGB) (dominantColor : RGB) (init : R) :
  0 <= init ->
  exists t : R,
    fold_left (fun total px => add total (distance px dominantColor))
              sample (Fin init) = Fin t /\ 0 <= t.
Proof.
  revert init. induction sample as [|px rest IH]; intros init Hinit.
  - exists init. split; [reflexivity | exact Hinit].
  - cbn [fold_left].
    destruct (distance_fin px dominantColor) as (d & -> & Hd).
    unfold add at 2. apply IH. rlra.
Qed.

(** A count divided by a positive constant. *)
Lemma ratio_fin (n : Z) (k : R) :
  (0 <= n)%Z -> 0 < k ->
  exists q : R, div (ofZ n) (Fin k) = Fin q /\ 0 <= q.
Proof.
  intros Hn Hk. unfold ofZ. rewrite div_fin by rlra.
  eexists. split; [reflexivity|]. apply IZR_le in Hn.
  apply Rmult_le_pos; [exact Hn|]. left. now apply Rinv_0_lt_compat.
Qed.

(** [_calculateConfidence] returns a number of hundredths between 0
    and 1, whatever the pixels and the dominant colour are. *)
Theorem _calculateConfidence_hundredths (allPixels filteredPixels : list RGB)
  (dominantColor : RGB) :
  exists k : Z,
    _calculateConfidence allPixels filteredPixels dominantColor
    = Fin (IZR k / 100) /\ (0 <= k <= 100)%Z.
Proof.
  unfold _calculateConfidence.
  destruct (Z.eqb_spec (JS.len allPixels) 0) as [E|Hne].
  { exists 0%Z. split; [f_equal; unfold Rdiv; ring | lia]. }
  cbv zeta.
  pose proof (JSFacts.len_nonneg allPixels) as Hall.
  pose proof (JSFacts.len_nonneg filteredPixels) as Hfil.
  assert (Hpos : 0 < IZR (JS.len allPixels)) by (apply IZR_lt; lia).
  (* survival *)
  destruct (ratio_fin (JS.len filteredPixels) (IZR (JS.len allPixels)) Hfil Hpos)
    as (sv & Esv & Hsv).
  change (Fin (IZR (JS.len allPixels))) with (ofZ (JS.len allPixels)) in Esv.
  rewrite Esv. rewrite (div_fin sv 0.5) by rlra.
  (* pixel score *)
  set (samplePixels :=
         if (0 <? JS.len filteredPixels)%Z then filteredPixels else allPixels).
  destruct (ratio_fin (JS.len samplePixels) 100 (JSFacts.len_nonneg _)
              ltac:(rlra)) as (ps & -> & Hps).
  (* consistency *)
  assert (C : exists c : R,
             (if (0 <? JS.len (JS.slice 0 200 samplePixels))%Z
              then
                add (add (Fin 0) (mul (min (Fin 1) (Fin (sv / 0.5))) (Fin 0.4)))
                  (mul
                     (max (Fin 0)
                        (sub (Fin 1)
                           (div
                              (div
                                 (fold_left
                                    (fun total px =>
                                       add total (distance px dominantColor))
                                    (JS.slice 0 200 samplePixels) (Fin 0))
                                 (ofZ (JS.len (JS.slice 0 200 samplePixels))))
                              (Fin 150))))
                     (Fin 0.4))
              else add (Fin 0) (mul (min (Fin 1) (Fin (sv / 0.5))) (Fin 0.4)))
             = Fin c /\ 0 <= c <= 0.8).
  { assert (Hmin : 0 <= Rmin 1 (sv / 0.5) <= 1).
    { split; [apply Rmin_glb; rlra | apply Rmin_l]. }
    destruct (Z.ltb_spec 0 (JS.len (JS.slice 0 200 samplePixels))) as [Hs|_].
    - destruct (totalDist_fin (JS.slice 0 200 samplePixels) dominantColor 0
                  ltac:(rlra)) as (t & -> & Ht).
      assert (Hn : 0 < IZR (JS.len (JS.slice 0 200 samplePixels)))
        by (apply IZR_lt; lia).
      unfold ofZ. rewrite div_fin by rlra. rewrite div_fin by rlra.
      unfold sub, neg, add, max, min, mul.
      eexists. split; [reflexivity|].
      assert (Hq : 0 <= t / IZR (JS.len (JS.slice 0 200 samplePixels)) / 150).
      { apply Rmult_le_pos; [|rlra].
        apply Rmult_le_pos; [exact Ht|]. left. now apply Rinv_0_lt_compat. }
      assert (Hmax : 0 <= Rmax 0 (1 + - (t / IZR (JS.len (JS.slice 0 200 samplePixels)) / 150)) <= 1).
      { split; [apply Rmax_l | apply Rmax_lub; rlra]. }
      rlra.
    - unfold add, min, mul. eexists. split; [reflexivity|]. rlra. }
  destruct C as (c & -> & Hc).
  unfold min, mul, add. rewrite round_fin. unfold ofZ.
  rewrite div_fin by rlra.
  eexists. split; [reflexivity|].
  assert (Hp : 0 <= Rmin 1 ps <= 1).
  { split; [apply Rmin_glb; rlra | apply Rmin_l]. }
  apply Zfloor_half_between. rlra.
Qed.

End ZoneConfidenceFacts.

(* ================================================================== *)
(** * WCAG luminance and contrast                                      *)
(* ================================================================== *)

Module ContrastFacts.
Import ColorAnalysis Contrast Pixels.
Local Open Scope R_scope.

(** A power of a base in (0, 1] with a positive exponent stays in
    (0, 1]. *)
Lemma Rpower_unit (x y : R) : 0 < x <= 1 -> 0 < y -> 0 < Rpower x y <= 1.
Proof.
  intros [H0 H1] Hy. unfold Rpower. split; [apply exp_pos|].
  rewrite <- exp_0.
  assert (Hln : ln x <= 0).
  { rewrite <- ln_1. destruct H1 as [H1 | ->]; [|apply Rle_refl].
    left. now apply ln_increasing. }
  destruct (Req_dec (y * ln x) 0) as [E|N].
  - rewrite E. apply Rle_refl.
  - left. apply exp_increasing.
    assert (y * ln x <= 0); [|rlra].
    rewrite <- (Rmult_0_r y). apply Rmult_le_compat_l; rlra.
Qed.

(** A channel of a byte is linearised to a number between 0 and 1. *)
Lemma linearize_unit (c : Z) : isByte c -> 0 <= linearize c <= 1.
Proof.
  intros [H0 H1]. apply IZR_le in H0, H1. unfold linearize. cbv zeta.
  set (x := IZR c / 255).
  assert (Hx : 0 <= x <= 1) by (unfold x; split; rlra).
  clearbody x.
  destruct (Rle_dec x 0.03928) as [Hs|Hs].
  - split; rlra.
  - assert (Hb : 0 < (x + 0.055) / 1.055 <= 1) by (split; rlra).
    destruct (Rpower_unit _ 2.4 Hb ltac:(rlra)) as [Hp0 Hp1].
    split; [left; exact Hp0 | exact Hp1].
Qed.

Lemma relativeLuminance_unit (r g b : Z) :
  isByte r -> isByte g -> isByte b -> 0 <= relativeLuminance r g b <= 1.
Proof.
  intros Hr Hg Hb. unfold relativeLuminance. cbv zeta.
  pose proof (linearize_unit r Hr). pose proof (linearize_unit g Hg).
  pose proof (linearize_unit b Hb). split; rlra.
Qed.

(** The contrast of two colours of bytes lies between 1 and 21, does
    not depend on their order, and is 1 for a colour and itself; black
    on white reaches 21. *)
Theorem calculateContrast_range (color1 color2 : Color) :
  byteColor (rgb color1) -> byteColor (rgb color2) ->
  1 <= calculateContrast color1 color2 <= 21 /\
  calculateContrast color1 color2 = calculateContrast color2 color1 /\
  calculateContrast color1 color1 = 1 /\
  calculateContrast (mkColor (mkRGB 0 0 0) (hsl color1))
                    (mkColor (mkRGB 255 255 255) (hsl color2)) = 21.
Proof.
  intros (Hr1 & Hg1 & Hb1) (Hr2 & Hg2 & Hb2).
  unfold calculateContrast. cbv zeta.
  pose proof (relativeLuminance_unit _ _ _ Hr1 Hg1 Hb1) as H1.
  pose proof (relativeLuminance_unit _ _ _ Hr2 Hg2 Hb2) as H2.
  set (l1 := relativeLuminance (rgb_r (rgb color1)) (rgb_g (rgb color1))
                               (rgb_b (rgb color1))) in *.
  set (l2 := relativeLuminance (rgb_r (rgb color2)) (rgb_g (rgb color2))
                               (rgb_b (rgb color2))) in *.
  clearbody l1 l2.
  split; [|split; [|split]].
  - assert (Hmin : 0 <= Rmin l1 l2) by (apply Rmin_glb; rlra).
    assert (Hmax : Rmax l1 l2 <= 1) by (apply Rmax_lub; rlra).
    pose proof (Rminmax l1 l2) as Hmm.
    assert (Hd : 0 < Rmin l1 l2 + 0.05) by rlra.
    split.
    + apply (Rmult_le_reg_r (Rmin l1 l2 + 0.05)); [exact Hd|].
      unfold Rdiv. rewrite Rmult_assoc, Rinv_l by rlra. rlra.
    + apply (Rmult_le_reg_r (Rmin l1 l2 + 0.05)); [exact Hd|].
      unfold Rdiv. rewrite Rmult_assoc, Rinv_l by rlra. rlra.
  - now rewrite (Rmax_comm l1 l2), (Rmin_comm l1 l2).
  - unfold Rmax, Rmin. destruct (Rle_dec l1 l1) as [_|N]; [|exfalso; rlra].
    unfold Rdiv. apply Rinv_r. rlra.
  - cbn [rgb rgb_r rgb_g rgb_b].
    assert (Eb : relativeLuminance 0 0 0 = 0).
    { unfold relativeLuminance, linearize. cbv zeta.
      destruct (Rle_dec (0 / 255) 0.03928) as [_|N]; [|exfalso; rlra].
      unfold Rdiv. ring. }
    assert (Ew : relativeLuminance 255 255 255 = 1).
    { unfold relativeLuminance, linearize. cbv zeta.
      destruct (Rle_dec (255 / 255) 0.03928) as [H|_]; [exfalso; rlra|].
      assert (E1 : (255 / 255 + 0.055) / 1.055 = 1) by rlra.
      rewrite E1. unfold Rpower. rewrite ln_1, Rmult_0_r, exp_0. rlra. }
    rewrite Eb, Ew. unfold Rmax, Rmin.
    destruct (Rle_dec 0 1) as [_|N]; [|exfalso; rlra].
    rlra.
Qed.

Lemma calculateContrast_range_witness :
  1 <= calculateContrast (mkColor (mkRGB 10 20 30) (mkHSL 210 50 8))
                         (mkColor (mkRGB 250 240 230) (mkHSL 30 67 94))
    <= 21.
Proof.
  refine (proj1 (calculateContrast_range
                   (mkColor (mkRGB 10 20 30) (mkHSL 210 50 8))
                   (mkColor (mkRGB 250 240 230) (mkHSL 30 67 94)) _ _));
    unfold byteColor, isByte; cbn [rgb rgb_r rgb_g rgb_b]; lia.
Defined.

End ContrastFacts.

(* ================================================================== *)
(** * The colour histogram and the average colour of a region          *)
(* ================================================================== *)

Module RegionFacts.
Import DOM ColorAnalysis GarmentDetection Histogram Pixels.
Import JSFacts SortFacts ArrayFacts PixelFacts.

(** The sampling loop keeps every bucket non-empty and, on bytes, a
    bucket of bytes. *)
Lemma buckets_loop (P : Bucket -> Prop) (data : list Z) (idxs : list Z)
  (acc : list (Key * Bucket)) :
  (forall acc k i,
     Forall (fun kb => P (snd kb)) acc ->
     Forall (fun kb => P (snd kb))
            (addPixel acc k
               (mkRGB (JS.at_ data i 0) (JS.at_ data (i + 1) 0)
                      (JS.at_ data (i + 2) 0)))) ->
  Forall (fun kb => P (snd kb)) acc ->
  Forall (fun kb => P (snd kb))
    (fold_left
       (fun acc i =>
          if JS.at_ data (i + 3) 0 <? 128 then acc
          else
            addPixel acc
              (Z.shiftr (JS.at_ data i 0) 3,
               Z.shiftr (JS.at_ data (i + 1) 0) 3,
               Z.shiftr (JS.at_ data (i + 2) 0) 3)
              (mkRGB (JS.at_ data i 0) (JS.at_ data (i + 1) 0)
                     (JS.at_ data (i + 2) 0)))
       idxs acc).
Proof.
  intros Hstep. revert acc.
  induction idxs as [|i rest IH]; intros acc Hacc; cbn [fold_left].
  - exact Hacc.
  - apply IH. destruct (_ <? 128); [exact Hacc | now apply Hstep].
Qed.

Lemma buckets_nonempty (data : list Z) :
  Forall (fun kb => 1 <= count (snd kb)) (buckets data).
Proof.
  unfold buckets. cbv zeta.
  apply (buckets_loop (fun b => 1 <= count b)); [|constructor].
  intros acc k i Hacc. now apply addPixel_counts.
Qed.

Lemma buckets_of_bytes (data : list Z) :
  Forall isByte data -> Forall (fun kb => byteBucket (snd kb)) (buckets data).
Proof.
  intros Hdata. unfold buckets. cbv zeta.
  apply (buckets_loop byteBucket); [|constructor].
  intros acc k i Hacc. apply addPixel_bytes; [|exact Hacc].
  unfold byteColor. cbn [rgb_r rgb_g rgb_b].
  split; [|split]; now apply at_byte.
Qed.

(** [extractDominantColors] returns at most [count] colours, the most
    frequent first, each found in at least one pixel; on a canvas of
    bytes their channels are bytes. *)
Theorem extractDominantColors_top (canvas : Canvas) (x y : Q)
  (width height count : Z) :
  0 <= count ->
  JS.len (extractDominantColors canvas x y width height count) <= count /\
  StronglySorted (fun a b => entry_frequency b <= entry_frequency a)
                 (extractDominantColors canvas x y width height count) /\
  Forall (fun e => 1 <= entry_frequency e)
         (extractDominantColors canvas x y width height count) /\
  (byteCanvas canvas ->
   Forall (fun e => isByte (entry_r e) /\ isByte (entry_g e) /\ isByte (entry_b e))
          (extractDominantColors canvas x y width height count)).
Proof.
  intros Hcount. unfold extractDominantColors. cbv zeta.
  destruct (_ || _).
  { split; [rewrite JSFacts.len_nil; lia|]. repeat split; constructor. }
  set (data := getImageData canvas _ _ _ _).
  split; [|split; [|split]].
  - rewrite len_map. unfold JS.len, JS.slice. rewrite length_firstn. lia.
  - eapply PatternFacts.StronglySorted_map;
      [|unfold JS.slice; apply PatternFacts.StronglySorted_firstn;
        cbn [Z.to_nat skipn]; apply sort_sorted].
    + intros a b Hab. cbn [entry_frequency]. unfold JS.before in Hab. lia.
    + intros a b. unfold JS.before. lia.
    + intros a b c. unfold JS.before. lia.
  - apply Forall_map, Forall_forall. intros b Hb. cbn [entry_frequency].
    apply top_In in Hb. apply in_map_iff in Hb. destruct Hb as (kb & <- & Hkb).
    pose proof (buckets_nonempty data) as Hall.
    rewrite Forall_forall in Hall. now apply Hall.
  - intros Hbytes.
    assert (Hdata : Forall isByte data) by (now apply getImageData_bytes).
    apply Forall_map, Forall_forall. intros b Hb.
    cbn [entry_r entry_g entry_b].
    apply top_In in Hb. apply in_map_iff in Hb. destruct Hb as (kb & <- & Hkb).
    pose proof (buckets_of_bytes data Hdata) as Hall.
    rewrite Forall_forall in Hall.
    destruct (Hall kb Hkb) as (Hc & Hr & Hg & Hbl).
    split; [|split]; now apply bucket_mean_byte.
Qed.

Lemma extractDominantColors_top_witness :
  JS.len (extractDominantColors
            (mkCanvas 8 8 (fun x _ => if x <? 4 then (200, 30, 30, 255)
                                      else (10, 10, 200, 255)))
            0 0 8 8 3) <= 3.
Proof.
  refine (proj1 (extractDominantColors_top
                   (mkCanvas 8 8 (fun x _ => if x <? 4 then (200, 30, 30, 255)
                                             else (10, 10, 200, 255)))
                   0 0 8 8 3 _)).
  lia.
Defined.

(** [extractAverageColor] always returns three defined channels: the
    inner [trimmedMean] is only called on arrays that are not empty, so
    its read of the median, [undefined] on an empty array, never shows;
    on a canvas of bytes the channels are bytes. *)
Theorem extractAverageColor_defined (canvas : Canvas) (x y : Q)
  (width height : Z) :
  exists r g b : Z,
    extractAverageColor canvas x y width height = (Some r, Some g, Some b) /\
    (byteCanvas canvas -> isByte r /\ isByte g /\ isByte b).
Proof.
  unfold extractAverageColor. cbv zeta.
  destruct (_ || _).
  { exists 128, 128, 128. split; [reflexivity|]. intros _. unfold isByte. lia. }
  set (data := getImageData canvas _ _ _ _).
  set (sampled := filter _ (JS.range 0 (JS.len data) 16)).
  destruct (Z.eqb_spec (JS.len (map (fun i => JS.at_ data i 0) sampled)) 0)
    as [E|Hne].
  { exists 128, 128, 128. split; [reflexivity|]. intros _. unfold isByte. lia. }
  assert (Hs : sampled <> []).
  { intros E. rewrite E in Hne. now apply Hne. }
  assert (Hmap : forall f : Z -> Z, map f sampled <> []).
  { intros f E. apply map_eq_nil in E. contradiction. }
  rewrite !TrimmedMeanFacts.trimmedMean_unfold by apply Hmap.
  eexists _, _, _. split; [reflexivity|].
  intros Hbytes.
  assert (Hdata : Forall isByte data) by (now apply getImageData_bytes).
  rewrite <- !TrimmedMeanFacts._trimmedMean_unfold by apply Hmap.
  split; [|split]; apply _trimmedMean_byte, Forall_map, Forall_forall;
    intros i _; now apply at_byte.
Qed.

End RegionFacts.

(* ================================================================== *)
(** * The skin filter and the range mapping                            *)
(* ================================================================== *)

Module SkinFacts.
Import ColorAnalysis GarmentDetection JSFacts.

(** A gray pixel has no saturation. *)
Lemma rgbToHsl_gray_saturation (v : Z) : hsl_s (rgbToHsl v v v) = 0.
Proof.
  unfold rgbToHsl, hslFractions. cbv zeta.
  set (q := (inject_Z v / 255)%Q).
  assert (E : Qeq_bool (Qmax q (Qmax q q)) (Qmin q (Qmin q q)) = true).
  { apply Qeq_bool_iff. rewrite !Q.max_id, !Q.min_id. reflexivity. }
  rewrite E. reflexivity.
Qed.

(** The skin filter never takes a gray pixel for skin, whatever its
    lightness: both skin ranges ask for a saturation of 15 or more. *)
Theorem gray_is_not_skin (v : Z) : _isSkinColor (mkRGB v v v) = false.
Proof.
  unfold _isSkinColor. cbn [rgb_r rgb_g rgb_b].
  rewrite rgbToHsl_gray_saturation.
  unfold skinRanges. cbn [existsb hMin hMax sMin sMax lMin lMax].
  change (15 <=? 0) with false. change (20 <=? 0) with false.
  rewrite !andb_false_r. reflexivity.
Qed.

End SkinFacts.

Module RangeFacts.
Import Signals.



End RangeFacts.

(* ================================================================== *)
(** * Where a detected body column lies                                *)
(* ================================================================== *)

Module ColumnFacts.
Import DOM GarmentDetection JSFacts BodyColumnFacts.

(** The loop keeps [maxStart] among the window starts. *)
Lemma slide_start (edge : list float) (size lo hi : Z) (starts : list Z)
  (state : float * float * Z) :
  Forall (fun i => lo <= i <= hi) starts ->
  lo <= snd state <= hi ->
  lo <= snd (fold_left (slideStep edge size) starts state) <= hi.
Proof.
  intros Hall. revert state.
  induction Hall as [|i rest Hi _ IH]; intros state Hstate; cbn [fold_left].
  - exact Hstate.
  - apply IH. destruct state as [[cur best] start]. unfold slideStep.
    destruct (PrimFloat.ltb _ _); cbn [snd] in *; lia.
Qed.

(** A detected column lies inside the image and is at least as wide as
    the window of half the image width. *)
Theorem detectBodyColumn_inside (canvas : Canvas) (column : Column) :
  _detectBodyColumn canvas = Some column ->
  0 <= column_x column /\
  column_x column + column_width column <= canvas_width canvas /\
  windowSize canvas <= column_width column /\
  10 <= windowSize canvas.
Proof.
  unfold _detectBodyColumn. cbv zeta.
  destruct (Z.ltb_spec (stripH canvas) 10) as [|_]; [discriminate|].
  destruct (Z.ltb_spec (canvas_width canvas) 20) as [|Hw]; [discriminate|].
  cbn [orb].
  destruct (Z.ltb_spec (windowSize canvas) 10) as [|Hs]; [discriminate|].
  assert (Hhalf : windowSize canvas <= canvas_width canvas).
  { rewrite windowSize_spec. apply Z.div_le_upper_bound; lia. }
  pose proof (slide_start (stripEdges canvas) (windowSize canvas) 0
                (canvas_width canvas - windowSize canvas)
                (JS.range 1 (canvas_width canvas - windowSize canvas + 1) 1)
                (fold_left (fun acc i => (acc + F64.read (stripEdges canvas) i)%float)
                           (JS.upto (windowSize canvas)) 0%float,
                 fold_left (fun acc i => (acc + F64.read (stripEdges canvas) i)%float)
                           (JS.upto (windowSize canvas)) 0%float,
                 0)) as Hstart.
  change (fold_left (slideStep (stripEdges canvas) (windowSize canvas)) _ _)
    with (slideWindow (stripEdges canvas) (canvas_width canvas)
            (windowSize canvas)) in Hstart.
  destruct (slideWindow (stripEdges canvas) (canvas_width canvas)
              (windowSize canvas)) as [[cur best] start].
  cbn [snd] in Hstart.
  assert (Hrange : 0 <= start <= canvas_width canvas - windowSize canvas).
  { apply Hstart; [|lia].
    apply Forall_forall. intros i Hi. unfold JS.range in Hi.
    apply in_map_iff in Hi. destruct Hi as (k & <- & Hk).
    apply ZoneFacts.in_upto in Hk.
    rewrite Z.div_1_r in Hk. lia. }
  destruct (PrimFloat.ltb _ _); [discriminate|].
  intros E. injection E as <-. cbn [column_x column_width].
  rewrite ?(floor_fraction _ 5 100) by lia.
  assert (Hp : 0 <= canvas_width canvas * 5 / 100) by (apply Z.div_pos; lia).
  generalize dependent (canvas_width canvas * 5 / 100). intros padding Hp.
  lia.
Qed.

(** An image of 20 by 30 pixels, black on the left and white on the
    right: the column found starts at the left border. *)
Lemma detectBodyColumn_inside_witness :
  0 <= 0 /\ 0 + 12 <= 20 /\
  windowSize
    (mkCanvas 20 30 (fun x _ => if x <? 10 then (0, 0, 0, 255)
                                else (255, 255, 255, 255))) <= 12 /\
  10 <= windowSize
          (mkCanvas 20 30 (fun x _ => if x <? 10 then (0, 0, 0, 255)
                                      else (255, 255, 255, 255))).
Proof.
  refine (detectBodyColumn_inside
            (mkCanvas 20 30 (fun x _ => if x <? 10 then (0, 0, 0, 255)
                                        else (255, 255, 255, 255)))
            (mkColumn 0 12) _).
  vm_compute. reflexivity.
Defined.

End ColumnFacts.
